(** * Camera matching: projection, parameter set, residuals, optimizer

    A shallow embedding of the Python sources

      - [camera_matcher/utils/math_utils.py]        ([project_point])
      - [camera_matcher/core/camera_parameters.py]  ([ParameterConstraints], [CameraParameters])
      - [camera_matcher/core/locator_pair.py]       ([LocatorPair])
      - [camera_matcher/core/optimization.py]       ([CameraOptimizer])
      - [camera_matcher/core/camera_matcher.py]     ([CameraMatcher.optimize_camera])

    Python floats are IEEE binary64 numbers, modelled by the kernel's
    primitive floats; Python ints are [Z]; a Python [dict] is a [gmap];
    an exception is a value of [exn] and a call that may raise returns a
    [res].  Maya ([maya.cmds], [maya.api.OpenMaya]), numpy and scipy are
    outside the repository: the scene is a finite map that the [cmds_*]
    functions read, the commands that change the scene are collected in a
    log, and the matrix operations, the array sum and the two solvers are
    fields of the classes [OpenMaya], [Numpy] and [Scipy].  The power
    operator follows CPython's [float_pow]; the [pow] of the C library it
    ends in is the field of the class [Libm]. *)

From Stdlib Require Import ZArith String List Floats Bool Lia.
From stdpp Require Import base option list gmap strings pretty.

Set Warnings "-inexact-float".
Local Open Scope string_scope.
Local Open Scope Z_scope.
Local Open Scope float_scope.

(* ===================================================================== *)
(** ** Python values, exceptions and float arithmetic                     *)
(* ===================================================================== *)

(** The exception classes the sources raise or meet, each with the text
    that [str(e)] returns. [MayaError] stands for whatever [maya.cmds]
    raises by itself: the sources do not fix its Python class, which may
    be one of the classes above, so no statement of this file rests on
    a [MayaError] being different from them. *)
Inductive exn : Type :=
| RuntimeError (msg : string)
| ValueError (msg : string)
| ZeroDivisionError (msg : string)
| OverflowError (msg : string)
| IndexError (msg : string)
| MayaError (msg : string).

Definition str (e : exn) : string :=
  match e with
  | RuntimeError m | ValueError m | ZeroDivisionError m
  | OverflowError m | IndexError m | MayaError m => m
  end.

(** The outcome of a call: a returned value or a raised exception. *)
Inductive res (A : Type) : Type :=
| Ok (a : A)
| Raise (e : exn).
Arguments Ok {A} a.
Arguments Raise {A} e.

Definition bind {A B : Type} (r : res A) (k : A -> res B) : res B :=
  match r with
  | Ok a => k a
  | Raise e => Raise e
  end.

Notation "'let*' x ':=' r 'in' k" := (bind r (fun x => k))
  (at level 10, x pattern, r at level 200, k at level 200, only parsing).

(** [try: body except Exception as e: handler e]. *)
Definition try_except {A : Type} (body : res A) (handler : exn -> res A) : res A :=
  match body with
  | Ok a => Ok a
  | Raise e => handler e
  end.

Definition is_ok {A : Type} (r : res A) : bool :=
  match r with Ok _ => true | Raise _ => false end.

Definition vec2 : Type := float * float.
Definition vec3 : Type := float * float * float.

(** [float(n)] for a Python int, as the mixed operators do ([0.5 * n]):
    rounded to the nearest binary64 number, [OverflowError] when that
    number is not finite. *)
Definition float_of_int (n : Z) : res float :=
  let f := SF2Prim (binary_normalize prec emax n 0 false) in
  if is_infinity f
  then Raise (OverflowError "int too large to convert to float")
  else Ok f.

(** [a / b] on floats raises for a zero divisor. *)
Definition truediv (a b : float) : res float :=
  if PrimFloat.eqb b 0
  then Raise (ZeroDivisionError "float division by zero")
  else Ok (a / b).

(** [max(a, b)] and [min(a, b)] keep their first argument unless the
    second compares strictly greater (smaller). *)
Definition py_max (a b : float) : float := if PrimFloat.ltb a b then b else a.
Definition py_min (a b : float) : float := if PrimFloat.ltb b a then b else a.

(** The value of [x ** y] on floats: a float, or a complex number when
    the base is negative and the exponent is not an integer. *)
Inductive power : Type :=
| PowFloat (x : float)
| PowComplex.

(** [errno] as a call of C's [pow] leaves it; [OtherErrno] carries the
    text of the exception that CPython builds from it. *)
Inductive errno : Type :=
| NoError
| ERANGE
| OtherErrno (text : string).

(** [pow] of the platform's C library, which CPython's [float_pow] calls
    once it has sorted out the special cases: the result and the [errno]
    it leaves. Its last bit differs from one library to the next (it need
    not be the correctly rounded value), so it is left open. *)
Class Libm : Type := {
  libm_pow : float -> float -> float * errno
}.

(** [_Py_ADJUST_ERANGE1]: an infinite result counts as a range error, a
    range error with a zero result does not. *)
Definition adjust_erange (x : float) (e : errno) : errno :=
  match e with
  | NoError => if is_infinity x then ERANGE else NoError
  | ERANGE => if PrimFloat.eqb x 0 then NoError else ERANGE
  | OtherErrno text => OtherErrno text
  end.

(** The end of [float_pow], for a base that is finite, positive and not
    1.0: the platform's [pow], then [OverflowError] for a range error
    and [ValueError] for any other [errno]. *)
Definition platform_pow `{Libm} (iv iw : float) : res float :=
  let '(ix, e) := libm_pow iv iw in
  match adjust_erange ix e with
  | NoError => Ok ix
  | ERANGE => Raise (OverflowError "(34, 'Numerical result out of range')")
  | OtherErrno text => Raise (ValueError text)
  end.

(** [x ** 0.5], by the cases of [float_pow] in their order: a NaN base is
    returned, an infinite base gives its absolute value, a zero base
    gives 0.0, a negative base gives a complex number (the exponent is
    not an integer), the base 1.0 gives 1.0, and the platform's [pow]
    does the rest. *)
Definition pow_half `{Libm} (x : float) : res power :=
  if is_nan x then Ok (PowFloat x)
  else if is_infinity x then Ok (PowFloat (abs x))
  else if PrimFloat.eqb x 0 then Ok (PowFloat 0)
  else if PrimFloat.ltb x 0 then Ok PowComplex
  else if PrimFloat.eqb x 1 then Ok (PowFloat 1)
  else let* ix := platform_pow x 0.5 in Ok (PowFloat ix).

(** [x ** 2], the int converted to 2.0, by the same cases: the exponent
    is an even integer, so a negative base is replaced by its absolute
    value and the result is not negated. *)
Definition pow_two `{Libm} (x : float) : res float :=
  if is_nan x then Ok x
  else if is_infinity x then Ok (abs x)
  else if PrimFloat.eqb x 0 then Ok 0
  else
    let iv := if PrimFloat.ltb x 0 then - x else x in
    if PrimFloat.eqb iv 1 then Ok 1
    else platform_pow iv 2.

(** [len(l)] as a Python int. *)
Definition len {A : Type} (l : list A) : Z := Z.of_nat (length l).

(** [f"{n}"] for an int. *)
Definition fmt_int (n : Z) : string := pretty n.

(* ===================================================================== *)
(** ** The Maya scene                                                     *)
(* ===================================================================== *)

(** What the sources query of a scene node. A query field is [None] when
    Maya refuses the query for that node. *)
Record node : Type := mk_node {
  node_type : string;                 (* cmds.nodeType *)
  transform_parents : list string;    (* listRelatives(parent=True, type='transform') *)
  camera_shapes : list string;        (* listRelatives(shapes=True, type='camera') *)
  ws_translation : option vec3;       (* xform(q, worldSpace, translation) *)
  ws_rotation : option vec3;          (* xform(q, worldSpace, rotation) *)
  ws_matrix : option (list float)     (* xform(q, worldSpace, matrix): 16 floats *)
}.

(** A scene: its nodes by name and its attribute values by plug name
    (["node.attribute"]). *)
Record scene : Type := mk_scene {
  nodes : gmap string node;
  plugs : gmap string float
}.

Definition no_object (name : string) : exn :=
  MayaError ("No object matches name: " ++ name).

Definition cmds_objExists (s : scene) (name : string) : bool :=
  bool_decide (is_Some (nodes s !! name)).

Definition cmds_node (s : scene) (name : string) : res node :=
  match nodes s !! name with
  | Some nd => Ok nd
  | None => Raise (no_object name)
  end.

Definition cmds_nodeType (s : scene) (name : string) : res string :=
  let* nd := cmds_node s name in Ok (node_type nd).

Definition cmds_listRelatives_parent (s : scene) (name : string) : res (list string) :=
  let* nd := cmds_node s name in Ok (transform_parents nd).

Definition cmds_listRelatives_shapes (s : scene) (name : string) : res (list string) :=
  let* nd := cmds_node s name in Ok (camera_shapes nd).

Definition query_field {A : Type} (name : string) (o : option A) : res A :=
  match o with
  | Some a => Ok a
  | None => Raise (MayaError ("Invalid query on: " ++ name))
  end.

Definition cmds_xform_q_translation (s : scene) (name : string) : res vec3 :=
  let* nd := cmds_node s name in query_field name (ws_translation nd).

Definition cmds_xform_q_rotation (s : scene) (name : string) : res vec3 :=
  let* nd := cmds_node s name in query_field name (ws_rotation nd).

Definition cmds_xform_q_matrix (s : scene) (name : string) : res (list float) :=
  let* nd := cmds_node s name in query_field name (ws_matrix nd).

Definition cmds_getAttr (s : scene) (plug : string) : res float :=
  match plugs s !! plug with
  | Some v => Ok v
  | None => Raise (no_object plug)
  end.

(** The commands that change the scene. A method returns the commands it
    issued, in order; the scene is unchanged exactly when that list is
    empty. *)
Inductive maya_write : Type :=
| XformTranslation (name : string) (t : vec3)   (* xform(name, worldSpace=True, translation=t) *)
| XformRotation (name : string) (r : vec3)      (* xform(name, worldSpace=True, rotation=r) *)
| SetAttr (plug : string) (v : float)           (* setAttr(plug, v) *)
| Delete (name : string).                       (* delete(name) *)

(** A write command succeeds on an existing target and raises otherwise. *)
Definition cmds_write (s : scene) (w : maya_write) : res unit :=
  match w with
  | XformTranslation name _ | XformRotation name _ | Delete name =>
      if cmds_objExists s name then Ok tt else Raise (no_object name)
  | SetAttr plug _ =>
      if bool_decide (is_Some (plugs s !! plug)) then Ok tt else Raise (no_object plug)
  end.

(** Issue the commands in order, stopping at the first that raises; the
    second component lists the commands that were carried out. *)
Fixpoint cmds_writes (s : scene) (ws : list maya_write) : res unit * list maya_write :=
  match ws with
  | [] => (Ok tt, [])
  | w :: rest =>
      match cmds_write s w with
      | Ok _ => let '(r, done) := cmds_writes s rest in (r, w :: done)
      | Raise e => (Raise e, [])
      end
  end.

(** [om.MPoint(x, y, z, w)]. *)
Record MPoint : Type := mk_MPoint { px : float; py : float; pz : float; pw : float }.

(** The two operations of [maya.api.OpenMaya] the sources use, on a 4x4
    matrix given as its 16 entries: [MMatrix.inverse()] and
    [MPoint * MMatrix]. *)
Class OpenMaya : Type := {
  MMatrix_inverse : list float -> list float;
  MPoint_mul : MPoint -> list float -> MPoint
}.

(** [np.sum] over a float array. *)
Class Numpy : Type := {
  np_sum : list float -> float
}.

(* ===================================================================== *)
(** ** camera_parameters.py                                              *)
(* ===================================================================== *)

(** [@dataclass ParameterConstraints]. *)
Record ParameterConstraints : Type := mk_constraints {
  is_locked : bool;
  min_value : option float;
  max_value : option float
}.

(** [ParameterConstraints()]. *)
Definition default_constraints : ParameterConstraints :=
  mk_constraints false None None.

Definition clamp_value (c : ParameterConstraints) (value : float) : float :=
  let value := match min_value c with
               | Some m => py_max value m
               | None => value
               end in
  let value := match max_value c with
               | Some m => py_min value m
               | None => value
               end in
  value.

(** [ParameterConstraints] objects are mutable and held by reference:
    [lock_parameter] assigns a field of the object found in the dict, and
    [set_constraints] stores the very object it is given. The objects live
    in a heap; a dict entry is a reference into it. *)
Definition ref : Type := nat.

Record heap : Type := mk_heap {
  next_ref : ref;
  obj : ref -> ParameterConstraints
}.

Definition empty_heap : heap := mk_heap O (fun _ => default_constraints).

(** A constructor call: a new object at a reference not used before. *)
Definition alloc (h : heap) (c : ParameterConstraints) : ref * heap :=
  (next_ref h,
   mk_heap (S (next_ref h)) (fun r => if Nat.eqb r (next_ref h) then c else obj h r)).

(** An assignment to the object at [r]. *)
Definition update (h : heap) (r : ref) (c : ParameterConstraints) : heap :=
  mk_heap (next_ref h) (fun r' => if Nat.eqb r' r then c else obj h r').

(** The fields of a [CameraParameters] object. [_camera_shape] and
    [_camera_transform] are [None] only inside [__init__], before
    [_update_from_maya] assigns them; they are kept as the strings they
    hold afterwards. *)
Record CameraParameters : Type := mk_params {
  camera_name : string;
  _camera_shape : string;
  _camera_transform : string;
  _translation : vec3;
  _rotation : vec3;
  _focal_length : float;
  _film_offset_x : float;
  _film_offset_y : float;
  _film_aperture_h : float;
  _film_aperture_v : float;
  _constraints : gmap string ref
}.

(** Tuple indexing [t[0]], [t[1]], [t[2]]. *)
Definition idx0 (t : vec3) : float := fst (fst t).
Definition idx1 (t : vec3) : float := snd (fst t).
Definition idx2 (t : vec3) : float := snd t.

(** The canonical order, the same list literal in [get_parameter_vector],
    [set_parameter_vector] and [get_unlocked_parameter_names]. *)
Definition param_names : list string :=
  [ "translate_x"; "translate_y"; "translate_z";
    "rotate_x"; "rotate_y"; "rotate_z";
    "focal_length"; "film_offset_x"; "film_offset_y" ].

(** The dict literal of [__init__]: one new object per name. *)
Definition initial_constraints : list (string * ParameterConstraints) :=
  [ ("translate_x", default_constraints);
    ("translate_y", default_constraints);
    ("translate_z", default_constraints);
    ("rotate_x", default_constraints);
    ("rotate_y", default_constraints);
    ("rotate_z", default_constraints);
    ("focal_length", mk_constraints false (Some 1.0) (Some 1000.0));
    ("film_offset_x", mk_constraints false (Some (-50.0)) (Some 50.0));
    ("film_offset_y", mk_constraints false (Some (-50.0)) (Some 50.0)) ].

Fixpoint build_constraints (h : heap) (l : list (string * ParameterConstraints))
  (d : gmap string ref) : gmap string ref * heap :=
  match l with
  | [] => (d, h)
  | (name, c) :: rest =>
      let '(r, h') := alloc h c in
      build_constraints h' rest (<[name := r]> d)
  end.

(** [x or y] on strings: the empty string is falsy. *)
Definition str_or (x y : string) : string :=
  if String.eqb x "" then y else x.

(** [_update_from_maya], as [__init__] uses it: the object with its values
    read from the scene, or the exception that ends the construction. *)
Definition _update_from_maya (s : scene) (cp : CameraParameters) : res CameraParameters :=
  if negb (cmds_objExists s (camera_name cp))
  then Raise (RuntimeError ("Camera '" ++ camera_name cp ++ "' does not exist in scene"))
  else
    let* ty := cmds_nodeType s (camera_name cp) in
    let* (shape, transform) :=
      (if String.eqb ty "camera"
       then
         let* camera_transforms := cmds_listRelatives_parent s (camera_name cp) in
         match camera_transforms with
         | t :: _ => Ok (camera_name cp, t)
         | [] => Raise (RuntimeError ("Camera shape '" ++ camera_name cp
                                       ++ "' has no transform parent"))
         end
       else
         let* shapes := cmds_listRelatives_shapes s (camera_name cp) in
         match shapes with
         | sh :: _ => Ok (sh, camera_name cp)
         | [] => Raise (RuntimeError ("Transform '" ++ camera_name cp
                                       ++ "' has no camera shape"))
         end) in
    let* translation := cmds_xform_q_translation s transform in
    let* rotation := cmds_xform_q_rotation s transform in
    let* focal := cmds_getAttr s (shape ++ ".focalLength") in
    let* off_x := cmds_getAttr s (shape ++ ".horizontalFilmOffset") in
    let* off_y := cmds_getAttr s (shape ++ ".verticalFilmOffset") in
    let* ap_h := cmds_getAttr s (shape ++ ".horizontalFilmAperture") in
    let* ap_v := cmds_getAttr s (shape ++ ".verticalFilmAperture") in
    Ok (mk_params (camera_name cp) shape transform
          (idx0 translation, idx1 translation, idx2 translation)
          (idx0 rotation, idx1 rotation, idx2 rotation)
          focal (off_x * 25.4) (off_y * 25.4) (ap_h * 25.4) (ap_v * 25.4)
          (_constraints cp)).

(** [CameraParameters(camera_name)]. *)
Definition CameraParameters_init (s : scene) (h : heap) (name : string)
  : res CameraParameters * heap :=
  let '(d, h') := build_constraints h initial_constraints ∅ in
  (_update_from_maya s
     (mk_params name "" "" (0.0, 0.0, 0.0) (0.0, 0.0, 0.0) 35.0 0.0 0.0 36.0 24.0 d),
   h').

(** The properties [camera_transform] and [camera_shape]. *)
Definition camera_transform (cp : CameraParameters) : string :=
  str_or (_camera_transform cp) (camera_name cp).

Definition camera_shape (cp : CameraParameters) : string :=
  str_or (_camera_shape cp) (camera_name cp).

Definition unknown_parameter (param_name : string) : exn :=
  ValueError ("Unknown parameter: " ++ param_name).

Definition get_parameter_value (cp : CameraParameters) (param_name : string) : res float :=
  if String.eqb param_name "translate_x" then Ok (idx0 (_translation cp))
  else if String.eqb param_name "translate_y" then Ok (idx1 (_translation cp))
  else if String.eqb param_name "translate_z" then Ok (idx2 (_translation cp))
  else if String.eqb param_name "rotate_x" then Ok (idx0 (_rotation cp))
  else if String.eqb param_name "rotate_y" then Ok (idx1 (_rotation cp))
  else if String.eqb param_name "rotate_z" then Ok (idx2 (_rotation cp))
  else if String.eqb param_name "focal_length" then Ok (_focal_length cp)
  else if String.eqb param_name "film_offset_x" then Ok (_film_offset_x cp)
  else if String.eqb param_name "film_offset_y" then Ok (_film_offset_y cp)
  else Raise (unknown_parameter param_name).

Definition set_translation (cp : CameraParameters) (t : vec3) : CameraParameters :=
  mk_params (camera_name cp) (_camera_shape cp) (_camera_transform cp)
    t (_rotation cp) (_focal_length cp) (_film_offset_x cp) (_film_offset_y cp)
    (_film_aperture_h cp) (_film_aperture_v cp) (_constraints cp).

Definition set_rotation (cp : CameraParameters) (r : vec3) : CameraParameters :=
  mk_params (camera_name cp) (_camera_shape cp) (_camera_transform cp)
    (_translation cp) r (_focal_length cp) (_film_offset_x cp) (_film_offset_y cp)
    (_film_aperture_h cp) (_film_aperture_v cp) (_constraints cp).

Definition set_focal_length (cp : CameraParameters) (v : float) : CameraParameters :=
  mk_params (camera_name cp) (_camera_shape cp) (_camera_transform cp)
    (_translation cp) (_rotation cp) v (_film_offset_x cp) (_film_offset_y cp)
    (_film_aperture_h cp) (_film_aperture_v cp) (_constraints cp).

Definition set_film_offset_x (cp : CameraParameters) (v : float) : CameraParameters :=
  mk_params (camera_name cp) (_camera_shape cp) (_camera_transform cp)
    (_translation cp) (_rotation cp) (_focal_length cp) v (_film_offset_y cp)
    (_film_aperture_h cp) (_film_aperture_v cp) (_constraints cp).

Definition set_film_offset_y (cp : CameraParameters) (v : float) : CameraParameters :=
  mk_params (camera_name cp) (_camera_shape cp) (_camera_transform cp)
    (_translation cp) (_rotation cp) (_focal_length cp) (_film_offset_x cp) v
    (_film_aperture_h cp) (_film_aperture_v cp) (_constraints cp).

Definition set_constraints_dict (cp : CameraParameters) (d : gmap string ref)
  : CameraParameters :=
  mk_params (camera_name cp) (_camera_shape cp) (_camera_transform cp)
    (_translation cp) (_rotation cp) (_focal_length cp) (_film_offset_x cp)
    (_film_offset_y cp) (_film_aperture_h cp) (_film_aperture_v cp) d.

(** The value [set_parameter_value] stores: clamped when the name has an
    entry in the dict ([if param_name in self._constraints]). *)
Definition constrain (h : heap) (cp : CameraParameters) (param_name : string)
  (value : float) : float :=
  match _constraints cp !! param_name with
  | Some r => clamp_value (obj h r) value
  | None => value
  end.

Definition set_parameter_value (h : heap) (cp : CameraParameters)
  (param_name : string) (value : float) : res CameraParameters :=
  let value := constrain h cp param_name value in
  let t := _translation cp in
  let r := _rotation cp in
  if String.eqb param_name "translate_x" then Ok (set_translation cp (value, idx1 t, idx2 t))
  else if String.eqb param_name "translate_y" then Ok (set_translation cp (idx0 t, value, idx2 t))
  else if String.eqb param_name "translate_z" then Ok (set_translation cp (idx0 t, idx1 t, value))
  else if String.eqb param_name "rotate_x" then Ok (set_rotation cp (value, idx1 r, idx2 r))
  else if String.eqb param_name "rotate_y" then Ok (set_rotation cp (idx0 r, value, idx2 r))
  else if String.eqb param_name "rotate_z" then Ok (set_rotation cp (idx0 r, idx1 r, value))
  else if String.eqb param_name "focal_length" then Ok (set_focal_length cp value)
  else if String.eqb param_name "film_offset_x" then Ok (set_film_offset_x cp value)
  else if String.eqb param_name "film_offset_y" then Ok (set_film_offset_y cp value)
  else Raise (unknown_parameter param_name).

(** [self._constraints.get(param_name, ParameterConstraints())], read. *)
Definition get_constraints (h : heap) (cp : CameraParameters) (param_name : string)
  : ParameterConstraints :=
  match _constraints cp !! param_name with
  | Some r => obj h r
  | None => default_constraints
  end.

(** [set_constraints(param_name, constraints)], [constraints] being the
    object at [r]: the dict entry is assigned first, so it stays when the
    read of an unknown name raises. *)
Definition set_constraints (h : heap) (cp : CameraParameters)
  (param_name : string) (r : ref) : res unit * CameraParameters :=
  let cp1 := set_constraints_dict cp (<[param_name := r]> (_constraints cp)) in
  match get_parameter_value cp1 param_name with
  | Raise e => (Raise e, cp1)
  | Ok current_value =>
      let constrained_value := clamp_value (obj h r) current_value in
      if negb (PrimFloat.eqb constrained_value current_value)
      then match set_parameter_value h cp1 param_name constrained_value with
           | Ok cp2 => (Ok tt, cp2)
           | Raise e => (Raise e, cp1)
           end
      else (Ok tt, cp1)
  end.

Definition is_parameter_locked (h : heap) (cp : CameraParameters) (param_name : string)
  : bool :=
  is_locked (get_constraints h cp param_name).

(** [lock_parameter]: a missing entry is created, then the field
    [is_locked] of the object the entry refers to is assigned. *)
Definition lock_parameter (h : heap) (cp : CameraParameters)
  (param_name : string) (locked : bool) : heap * CameraParameters :=
  let '(r, h1, cp1) :=
    match _constraints cp !! param_name with
    | Some r => (r, h, cp)
    | None =>
        let '(r, h1) := alloc h default_constraints in
        (r, h1, set_constraints_dict cp (<[param_name := r]> (_constraints cp)))
    end in
  let c := obj h1 r in
  (update h1 r (mk_constraints locked (min_value c) (max_value c)), cp1).

Definition apply_to_maya (s : scene) (cp : CameraParameters) : res unit * list maya_write :=
  if negb (cmds_objExists s (camera_name cp))
  then (Raise (RuntimeError ("Camera '" ++ camera_name cp ++ "' does not exist in scene")), [])
  else
    cmds_writes s
      [ XformTranslation (_camera_transform cp) (_translation cp);
        XformRotation (_camera_transform cp) (_rotation cp);
        SetAttr (_camera_shape cp ++ ".focalLength") (_focal_length cp);
        SetAttr (_camera_shape cp ++ ".horizontalFilmOffset") (_film_offset_x cp / 25.4);
        SetAttr (_camera_shape cp ++ ".verticalFilmOffset") (_film_offset_y cp / 25.4) ].

(** The loop of [get_parameter_vector] over a list of names. *)
Fixpoint read_unlocked (h : heap) (cp : CameraParameters) (names : list string)
  : res (list float) :=
  match names with
  | [] => Ok []
  | param_name :: rest =>
      if negb (is_parameter_locked h cp param_name)
      then
        let* v := get_parameter_value cp param_name in
        let* vs := read_unlocked h cp rest in
        Ok (v :: vs)
      else read_unlocked h cp rest
  end.

Definition get_parameter_vector (h : heap) (cp : CameraParameters) : res (list float) :=
  read_unlocked h cp param_names.

Definition get_unlocked_parameter_names (h : heap) (cp : CameraParameters) : list string :=
  List.filter (fun name => negb (is_parameter_locked h cp name)) param_names.

(** The loop [for i, param_name in enumerate(unlocked_params)] from index
    [i] on; the object keeps the values written before an exception. *)
Fixpoint write_unlocked (h : heap) (cp : CameraParameters) (names : list string)
  (i : nat) (values : list float) : res unit * CameraParameters :=
  match names with
  | [] => (Ok tt, cp)
  | param_name :: rest =>
      match values !! i with
      | None => (Raise (IndexError "list index out of range"), cp)
      | Some v =>
          match set_parameter_value h cp param_name v with
          | Raise e => (Raise e, cp)
          | Ok cp' => write_unlocked h cp' rest (S i) values
          end
      end
  end.

Definition set_parameter_vector (h : heap) (cp : CameraParameters) (values : list float)
  : res unit * CameraParameters :=
  let unlocked_params := get_unlocked_parameter_names h cp in
  if negb (Z.eqb (len values) (len unlocked_params))
  then (Raise (ValueError ("Expected " ++ fmt_int (len unlocked_params)
                            ++ " values, got " ++ fmt_int (len values))), cp)
  else write_unlocked h cp unlocked_params O values.

(* ===================================================================== *)
(** ** math_utils.py                                                      *)
(* ===================================================================== *)

(** [om.MMatrix(seq)]: the sequence must hold the 16 entries. *)
Definition MMatrix (entries : list float) : res (list float) :=
  if Nat.eqb (length entries) 16
  then Ok entries
  else Raise (ValueError "MMatrix: expected a sequence of 16 floats").

Definition project_point `{OpenMaya} (point_3d : vec3) (camera_matrix : list float)
  (focal_length film_width film_height film_offset_x film_offset_y : float)
  : res vec2 :=
  let point := mk_MPoint (idx0 point_3d) (idx1 point_3d) (idx2 point_3d) 1.0 in
  let* matrix := MMatrix camera_matrix in
  let inv_matrix := MMatrix_inverse matrix in
  let camera_point := MPoint_mul point inv_matrix in
  if PrimFloat.ltb (abs (pz camera_point)) 1e-6
  then Ok (0.0, 0.0)
  else
    let* x_proj := truediv (- px camera_point) (pz camera_point) in
    let* y_proj := truediv (py camera_point) (pz camera_point) in
    let x_film := x_proj * focal_length + film_offset_x in
    let y_film := y_proj * focal_length + film_offset_y in
    let* x_norm := truediv x_film (film_width * 0.5) in
    let* y_norm := truediv y_film (film_height * 0.5) in
    Ok (x_norm, y_norm).

(* ===================================================================== *)
(** ** locator_pair.py                                                    *)
(* ===================================================================== *)

Record LocatorPair : Type := mk_pair {
  locator_name : string;
  pixel_coords : vec2;
  pair_id : option Z;
  _is_valid : bool
}.

(** [LocatorPair(locator_name, pixel_coords, pair_id)]. *)
Definition LocatorPair_init (name : string) (coords : vec2) (id : option Z) : LocatorPair :=
  mk_pair name coords id true.

(** [self._is_valid = False]. *)
Definition set_invalid (p : LocatorPair) : LocatorPair :=
  mk_pair (locator_name p) (pixel_coords p) (pair_id p) false.

Definition world_position (s : scene) (p : LocatorPair) : res vec3 * LocatorPair :=
  if negb (cmds_objExists s (locator_name p))
  then (Raise (RuntimeError ("Locator '" ++ locator_name p ++ "' does not exist in scene")),
        set_invalid p)
  else
    match cmds_xform_q_translation s (locator_name p) with
    | Ok position => (Ok (idx0 position, idx1 position, idx2 position), p)
    | Raise e =>
        (Raise (RuntimeError ("Failed to get world position for '" ++ locator_name p
                               ++ "': " ++ str e)),
         set_invalid p)
    end.

Definition is_valid (s : scene) (p : LocatorPair) : bool :=
  if negb (_is_valid p) then false
  else cmds_objExists s (locator_name p).

Definition update_pixel_coords (p : LocatorPair) (new_coords : vec2) : LocatorPair :=
  mk_pair (locator_name p) new_coords (pair_id p) (_is_valid p).

Definition update_locator_position (s : scene) (p : LocatorPair) (world_pos : vec3)
  : res unit * LocatorPair * list maya_write :=
  if negb (cmds_objExists s (locator_name p))
  then (Raise (RuntimeError ("Locator '" ++ locator_name p ++ "' does not exist in scene")),
        set_invalid p, [])
  else
    let '(r, done) := cmds_writes s [XformTranslation (locator_name p) world_pos] in
    (try_except r
       (fun e => Raise (RuntimeError ("Failed to update position for '" ++ locator_name p
                                       ++ "': " ++ str e))),
     p, done).

Definition delete_locator (s : scene) (p : LocatorPair)
  : res unit * LocatorPair * list maya_write :=
  if cmds_objExists s (locator_name p)
  then
    match cmds_writes s [Delete (locator_name p)] with
    | (Ok _, done) => (Ok tt, set_invalid p, done)
    | (Raise e, done) => (Raise e, p, done)
    end
  else (Ok tt, set_invalid p, []).

(** What [get_projected_coords] has read when it reaches the projection
    (the values of its local variables at line 150). *)
Record projection_inputs : Type := mk_inputs {
  in_world_pos : vec3;
  in_camera_matrix : list float;
  in_focal_length : float;
  in_h_aperture : float;
  in_v_aperture : float;
  in_h_offset : float;
  in_v_offset : float
}.

(** Lines 121-149 of [get_projected_coords]: the reads, in order, given
    the outcome of [self.world_position]. *)
Definition read_projection_inputs (s : scene) (camera_name : string)
  (world_position_result : res vec3) : res projection_inputs :=
  let* world_pos := world_position_result in
  let* ty := cmds_nodeType s camera_name in
  let* camera_transform :=
    (if String.eqb ty "camera"
     then
       let* camera_transforms := cmds_listRelatives_parent s camera_name in
       match camera_transforms with
       | t :: _ => Ok t
       | [] => Ok camera_name
       end
     else Ok camera_name) in
  let* camera_matrix := cmds_xform_q_matrix s camera_transform in
  let* camera_mmatrix := MMatrix camera_matrix in
  let* camera_shapes := cmds_listRelatives_shapes s camera_transform in
  let* camera_shape :=
    match camera_shapes with
    | sh :: _ => Ok sh
    | [] => Raise (RuntimeError ("No camera shape found for '" ++ camera_name ++ "'"))
    end in
  let* focal_length := cmds_getAttr s (camera_shape ++ ".focalLength") in
  let* h_aperture := cmds_getAttr s (camera_shape ++ ".horizontalFilmAperture") in
  let* v_aperture := cmds_getAttr s (camera_shape ++ ".verticalFilmAperture") in
  let* h_offset := cmds_getAttr s (camera_shape ++ ".horizontalFilmOffset") in
  let* v_offset := cmds_getAttr s (camera_shape ++ ".verticalFilmOffset") in
  Ok (mk_inputs world_pos camera_mmatrix focal_length
        (h_aperture * 25.4) (v_aperture * 25.4) (h_offset * 25.4) (v_offset * 25.4)).

(** [camera_space_point = point * camera_inv_matrix]. *)
Definition camera_space_point `{OpenMaya} (i : projection_inputs) : MPoint :=
  let w := in_world_pos i in
  MPoint_mul (mk_MPoint (idx0 w) (idx1 w) (idx2 w) 1.0)
             (MMatrix_inverse (in_camera_matrix i)).

Definition degenerate : exn :=
  RuntimeError "Point is at camera position (division by zero)".

(** Lines 151-171 of [get_projected_coords]. *)
Definition project_inputs `{OpenMaya} (i : projection_inputs) : res vec2 :=
  let c := camera_space_point i in
  if PrimFloat.ltb (abs (pz c)) 1e-6
  then Raise degenerate
  else
    let* x_proj := truediv (- px c) (pz c) in
    let* y_proj := truediv (py c) (pz c) in
    let x_film := x_proj * in_focal_length i + in_h_offset i in
    let y_film := y_proj * in_focal_length i + in_v_offset i in
    let* x_norm := truediv x_film (in_h_aperture i * 0.5) in
    let* y_norm := truediv y_film (in_v_aperture i * 0.5) in
    Ok (x_norm, y_norm).

Definition projection_failed (p : LocatorPair) (e : exn) : exn :=
  RuntimeError ("Failed to project locator '" ++ locator_name p ++ "': " ++ str e).

Definition get_projected_coords `{OpenMaya} (s : scene) (p : LocatorPair)
  (camera_name : string) : res vec2 * LocatorPair :=
  if negb (cmds_objExists s camera_name)
  then (Raise (RuntimeError ("Camera '" ++ camera_name ++ "' does not exist in scene")), p)
  else if negb (is_valid s p)
  then (Raise (RuntimeError ("Locator '" ++ locator_name p ++ "' is not valid")), p)
  else
    let '(world_pos, p') := world_position s p in
    (try_except
       (let* i := read_projection_inputs s camera_name world_pos in
        project_inputs i)
       (fun e => Raise (projection_failed p e)),
     p').

(** The conversion from NDC to pixels, written the same way in
    [get_reprojection_error], [_objective_function] and
    [project_locators_to_pixels]. *)
Definition proj_pixel_x (proj_ndc : vec2) (image_width : Z) : res float :=
  let* w := float_of_int image_width in
  Ok ((fst proj_ndc + 1.0) * 0.5 * w).

Definition proj_pixel_y (proj_ndc : vec2) (image_height : Z) : res float :=
  let* h := float_of_int image_height in
  Ok ((1.0 - snd proj_ndc) * 0.5 * h).

(** [get_reprojection_error]. The base of its power is a sum of two
    squares, which is never negative ([sum_of_squares_not_negative]
    below), so the power is never complex; the model gives NaN in that
    case, which no input reaches ([reprojection_distance_is_float]). *)
Definition get_reprojection_error `{OpenMaya} `{Libm} (s : scene) (p : LocatorPair)
  (camera_name : string) (image_width image_height : Z) : res float * LocatorPair :=
  let '(projected, p') := get_projected_coords s p camera_name in
  (try_except
     (let* proj_ndc := projected in
      let* x := proj_pixel_x proj_ndc image_width in
      let* y := proj_pixel_y proj_ndc image_height in
      let dx := x - fst (pixel_coords p) in
      let dy := y - snd (pixel_coords p) in
      let* distance := pow_half (dx * dx + dy * dy) in
      match distance with
      | PowFloat d => Ok d
      | PowComplex => Ok nan
      end)
     (fun _ => Ok infinity),
   p').

(* ===================================================================== *)
(** ** optimization.py                                                    *)
(* ===================================================================== *)

(** A solver of scipy, seen from the function it is given: it finishes
    with a result, raises, or calls the function at a point and goes on
    from the value returned. [V] is what the function returns (the
    residual array or the scalar cost), [R] the solver's result. *)
Inductive solver (V R : Type) : Type :=
| Finish (r : R)
| Fail (e : exn)
| Evaluate (x : list float) (k : V -> solver V R).
Arguments Finish {V R} r.
Arguments Fail {V R} e.
Arguments Evaluate {V R} x k.

(** The fields of scipy's [OptimizeResult] that [optimize] reads. *)
Record LeastSquaresResult : Type := mk_ls_result {
  ls_success : bool;
  ls_x : list float;
  ls_fun : list float;
  ls_nfev : Z
}.

Record MinimizeResult : Type := mk_min_result {
  min_success : bool;
  min_x : list float;
  min_fun : float;
  min_nit : Z
}.

(** [scipy.optimize.least_squares(fun, x0, method, bounds, max_nfev, ftol,
    xtol)] and [scipy.optimize.minimize(fun, x0, method, bounds, options =
    maxiter, ftol, gtol)], each as the solver it runs on [fun]. *)
Class Scipy : Type := {
  least_squares :
    list float -> string -> list float * list float -> Z -> float -> float ->
    solver (list float) LeastSquaresResult;
  minimize :
    list float -> string -> list (float * float) -> Z -> float -> float ->
    solver float MinimizeResult
}.

(** The module constant: scipy was imported. *)
Definition SCIPY_AVAILABLE `{Scipy} : bool := true.

(** A progress callback, by what a call of it does to its caller: it
    returns or raises. *)
Definition callback : Type := Z -> float -> res unit.

(** The fields of a [CameraOptimizer]. [camera_params] and
    [locator_pairs] refer to objects that the [CameraMatcher] holds too:
    [P] and [L] are what is kept for them, the objects themselves
    ([CameraOptimizer]) or what the matcher needs to find them. The last
    two fields are not attributes of the Python object: they record, in
    order, the calls made to the progress callback and the points at which
    [_objective_function] was called. *)
Record CameraOptimizerOf (P L : Type) : Type := mk_optimizer {
  camera_params : P;
  locator_pairs : L;
  image_width : Z;
  image_height : Z;
  max_iterations : Z;
  tolerance : float;
  method : string;
  progress_callback : option callback;
  iteration_count : Z;
  callback_calls : list (Z * float);
  objective_calls : list (list float)
}.
Arguments mk_optimizer {P L}.
Arguments camera_params {P L}.
Arguments locator_pairs {P L}.
Arguments image_width {P L}.
Arguments image_height {P L}.
Arguments max_iterations {P L}.
Arguments tolerance {P L}.
Arguments method {P L}.
Arguments progress_callback {P L}.
Arguments iteration_count {P L}.
Arguments callback_calls {P L}.
Arguments objective_calls {P L}.

Definition CameraOptimizer : Type := CameraOptimizerOf CameraParameters (list LocatorPair).

(** [CameraOptimizer(camera_params, locator_pairs, image_width, image_height)]. *)
Definition CameraOptimizer_init {P L : Type} (cp : P) (pairs : L) (w h : Z)
  : CameraOptimizerOf P L :=
  mk_optimizer cp pairs w h 1000 1e-6 "lm" None 0 [] [].

(** The objects an optimizer refers to, replaced by their current state. *)
Definition with_objects {P L P' L' : Type} (o : CameraOptimizerOf P L) (cp : P') (pairs : L')
  : CameraOptimizerOf P' L' :=
  mk_optimizer cp pairs (image_width o) (image_height o) (max_iterations o)
    (tolerance o) (method o) (progress_callback o) (iteration_count o)
    (callback_calls o) (objective_calls o).

Definition set_progress_callback {P L : Type} (o : CameraOptimizerOf P L) (cb : callback)
  : CameraOptimizerOf P L :=
  mk_optimizer (camera_params o) (locator_pairs o) (image_width o) (image_height o)
    (max_iterations o) (tolerance o) (method o) (Some cb) (iteration_count o)
    (callback_calls o) (objective_calls o).

Definition set_iteration_count {P L : Type} (o : CameraOptimizerOf P L) (n : Z)
  : CameraOptimizerOf P L :=
  mk_optimizer (camera_params o) (locator_pairs o) (image_width o) (image_height o)
    (max_iterations o) (tolerance o) (method o) (progress_callback o) n
    (callback_calls o) (objective_calls o).

Definition record_callback {P L : Type} (o : CameraOptimizerOf P L) (n : Z) (cost : float)
  : CameraOptimizerOf P L :=
  mk_optimizer (camera_params o) (locator_pairs o) (image_width o) (image_height o)
    (max_iterations o) (tolerance o) (method o) (progress_callback o) (iteration_count o)
    (callback_calls o ++ [(n, cost)]) (objective_calls o).

Definition record_objective {P L : Type} (o : CameraOptimizerOf P L) (x : list float)
  : CameraOptimizerOf P L :=
  mk_optimizer (camera_params o) (locator_pairs o) (image_width o) (image_height o)
    (max_iterations o) (tolerance o) (method o) (progress_callback o) (iteration_count o)
    (callback_calls o) (objective_calls o ++ [x]).

(** The two residual entries of one valid pair: [dx, dy], or the penalty
    when anything in the [try] block raises. *)
Definition pair_residuals (projected : res vec2) (p : LocatorPair) (w h : Z) : list float :=
  match (let* proj_ndc := projected in
         let* x := proj_pixel_x proj_ndc w in
         let* y := proj_pixel_y proj_ndc h in
         Ok [x - fst (pixel_coords p); y - snd (pixel_coords p)]) with
  | Ok l => l
  | Raise _ => [1000.0; 1000.0]
  end.

(** The loop [for pair in self.locator_pairs] of [_objective_function]:
    the residuals, and the pairs as the calls leave them. *)
Fixpoint residuals_loop `{OpenMaya} (s : scene) (camera : string) (w h : Z)
  (pairs : list LocatorPair) : list float * list LocatorPair :=
  match pairs with
  | [] => ([], [])
  | p :: rest =>
      if negb (is_valid s p)
      then
        let '(rs, ps) := residuals_loop s camera w h rest in
        (rs, p :: ps)
      else
        let '(projected, p') := get_projected_coords s p camera in
        let entry := pair_residuals projected p w h in
        let '(rs, ps) := residuals_loop s camera w h rest in
        ((entry ++ rs)%list, p' :: ps)
  end.

Definition _objective_function `{OpenMaya} (h : heap) (s : scene)
  (self : CameraOptimizer) (params : list float) : res (list float) * CameraOptimizer :=
  let self := record_objective self params in
  let '(r, cp) := set_parameter_vector h (camera_params self) params in
  match r with
  | Raise e => (Raise e, with_objects self cp (locator_pairs self))
  | Ok _ =>
      let '(residuals, pairs) :=
        residuals_loop s (camera_transform cp) (image_width self) (image_height self)
          (locator_pairs self) in
      (Ok residuals, with_objects self cp pairs)
  end.

(** [residuals ** 2], elementwise. *)
Definition squares (residuals : list float) : list float :=
  List.map (fun r => r * r) residuals.

Definition _cost_function `{OpenMaya} `{Numpy} (h : heap) (s : scene)
  (self : CameraOptimizer) (params : list float) : res float * CameraOptimizer :=
  let '(r, self) := _objective_function h s self params in
  match r with
  | Raise e => (Raise e, self)
  | Ok residuals =>
      let cost := np_sum (squares residuals) in
      let self := set_iteration_count self (iteration_count self + 1) in
      match progress_callback self with
      | Some cb =>
          let self := record_callback self (iteration_count self) cost in
          match cb (iteration_count self) cost with
          | Ok _ => (Ok cost, self)
          | Raise e => (Raise e, self)
          end
      | None => (Ok cost, self)
      end
  end.

Definition _get_parameter_bounds (h : heap) (self : CameraOptimizer)
  : list float * list float :=
  let param_names := get_unlocked_parameter_names h (camera_params self) in
  (List.map (fun param_name =>
               match min_value (get_constraints h (camera_params self) param_name) with
               | Some m => m
               | None => neg_infinity
               end) param_names,
   List.map (fun param_name =>
               match max_value (get_constraints h (camera_params self) param_name) with
               | Some m => m
               | None => infinity
               end) param_names).

(** A solver run on a function that reads and changes the optimizer. *)
Fixpoint run_solver {V R : Type}
  (f : CameraOptimizer -> list float -> res V * CameraOptimizer)
  (sv : solver V R) (self : CameraOptimizer) : res R * CameraOptimizer :=
  match sv with
  | Finish r => (Ok r, self)
  | Fail e => (Raise e, self)
  | Evaluate x k =>
      match f self x with
      | (Ok v, self') => run_solver f (k v) self'
      | (Raise e, self') => (Raise e, self')
      end
  end.

(** [method or self.method]. *)
Definition method_or (m : option string) (d : string) : string :=
  match m with
  | Some m => str_or m d
  | None => d
  end.

Definition least_squares_methods : list string := ["lm"; "trf"; "dogbox"].

Definition is_least_squares_method (m : string) : bool :=
  existsb (String.eqb m) least_squares_methods.

(** The bounds handed to [minimize]: infinite sides replaced. *)
Definition finite_bounds (lower_bounds upper_bounds : list float) : list (float * float) :=
  List.map (fun '(lb, ub) =>
              (if negb (PrimFloat.eqb lb neg_infinity) then lb else -1e6,
               if negb (PrimFloat.eqb ub infinity) then ub else 1e6))
           (combine lower_bounds upper_bounds).

(** Lines 179-222 of [optimize]: the solver chosen by the method, run on
    its function; what is kept of its result is [(success, final_params,
    final_error, iterations)]. *)
Definition run_method `{OpenMaya} `{Numpy} `{Scipy} (h : heap) (s : scene)
  (self : CameraOptimizer) (opt_method : string) (initial_params : list float)
  : res (bool * list float * float * Z) * CameraOptimizer :=
  if is_least_squares_method opt_method
  then
    let '(r, self) :=
      run_solver (_objective_function h s)
        (least_squares initial_params opt_method (_get_parameter_bounds h self)
           (max_iterations self) (tolerance self) (tolerance self))
        self in
    (let* result := r in
     Ok (ls_success result, ls_x result, np_sum (squares (ls_fun result)), ls_nfev result),
     self)
  else
    let '(lower_bounds, upper_bounds) := _get_parameter_bounds h self in
    let '(r, self) :=
      run_solver (_cost_function h s)
        (minimize initial_params opt_method (finite_bounds lower_bounds upper_bounds)
           (max_iterations self) (tolerance self) (tolerance self))
        self in
    (let* result := r in
     Ok (min_success result, min_x result, min_fun result, min_nit result),
     self).

(** The [try] block of [optimize], lines 179-227: the solver, then the
    final parameters written back. *)
Definition optimize_body `{OpenMaya} `{Numpy} `{Scipy} (h : heap) (s : scene)
  (self : CameraOptimizer) (opt_method : string) (initial_params : list float)
  : res (bool * float * Z) * CameraOptimizer :=
  let '(solved, self) := run_method h s self opt_method initial_params in
  match solved with
  | Raise e => (Raise e, self)
  | Ok (success, final_params, final_error, iterations) =>
      let '(r, cp) := set_parameter_vector h (camera_params self) final_params in
      (let* _ := r in Ok (success, final_error, iterations),
       with_objects self cp (locator_pairs self))
  end.

Definition valid_pairs (s : scene) (pairs : list LocatorPair) : list LocatorPair :=
  List.filter (is_valid s) pairs.

Definition optimize `{OpenMaya} `{Numpy} `{Scipy} (h : heap) (s : scene)
  (self : CameraOptimizer) (method_arg : option string)
  : res (bool * float * Z) * CameraOptimizer :=
  match locator_pairs self with
  | [] => (Raise (ValueError "No locator pairs available for optimization"), self)
  | _ =>
      match valid_pairs s (locator_pairs self) with
      | [] => (Raise (ValueError "No valid locator pairs available for optimization"), self)
      | valid =>
          if Z.ltb (len valid) 3
          then (Raise (ValueError "At least 3 valid locator pairs are required for optimization"),
                self)
          else
            match get_parameter_vector h (camera_params self) with
            | Raise e => (Raise e, self)
            | Ok initial_params =>
                if Z.eqb (len initial_params) 0
                then (Raise (ValueError "No unlocked parameters available for optimization"),
                      self)
                else
                  let self := set_iteration_count self 0 in
                  let opt_method := method_or method_arg (method self) in
                  let '(r, self) := optimize_body h s self opt_method initial_params in
                  (try_except r
                     (fun e => Raise (RuntimeError ("Optimization failed: " ++ str e))),
                   self)
            end
      end
  end.

(** [validate_setup]. Its second and third checks cannot fail and are left
    out: a [CameraParameters] object is truthy, and the property
    [camera_transform] does not raise. *)
Definition validate_setup `{Scipy} (h : heap) (s : scene) (self : CameraOptimizer)
  : bool * string :=
  if negb SCIPY_AVAILABLE
  then (false, "scipy is required for optimization but is not available")
  else
    match locator_pairs self with
    | [] => (false, "No locator pairs available")
    | _ =>
        let valid := valid_pairs s (locator_pairs self) in
        if Z.ltb (len valid) 3
        then (false, "At least 3 valid locator pairs required, found " ++ fmt_int (len valid))
        else
          match get_unlocked_parameter_names h (camera_params self) with
          | [] => (false, "No unlocked parameters available for optimization")
          | _ =>
              if Z.leb (image_width self) 0 || Z.leb (image_height self) 0
              then (false, "Invalid image dimensions: " ++ fmt_int (image_width self)
                             ++ "x" ++ fmt_int (image_height self))
              else (true, "Setup is valid")
          end
    end.

(* ===================================================================== *)
(** ** camera_matcher.py                                                  *)
(* ===================================================================== *)

Module CameraMatcher.

Local Abbreviation optimizer_camera_params := (@camera_params ref unit) (only parsing).
Local Abbreviation optimizer_params_now := (@camera_params CameraParameters (list LocatorPair))
  (only parsing).
Local Abbreviation optimizer_pairs_now := (@locator_pairs CameraParameters (list LocatorPair))
  (only parsing).

(** The attributes of a [CameraMatcher] that [optimize_camera] reads.
    [params_objects] holds the [CameraParameters] objects created by
    [set_camera]; [camera_params] and the optimizer's [camera_params] are
    references to them, and may or may not be the same one. The
    optimizer's [locator_pairs] is the very list of the matcher. *)
Record t : Type := mk {
  locator_pairs : list LocatorPair;
  params_objects : ref -> CameraParameters;
  camera_params : option ref;
  optimizer : option (CameraOptimizerOf ref unit)
}.

(** The optimizer with the objects it refers to. *)
Definition optimizer_objects (self : t) (o : CameraOptimizerOf ref unit) : CameraOptimizer :=
  with_objects o (params_objects self (optimizer_camera_params o)) (locator_pairs self).

(** The matcher after a call on its optimizer left it as [o']. *)
Definition after_optimizer (self : t) (o : CameraOptimizerOf ref unit) (o' : CameraOptimizer)
  : t :=
  let r := optimizer_camera_params o in
  mk (optimizer_pairs_now o')
     (fun r' => if Nat.eqb r' r then optimizer_params_now o' else params_objects self r')
     (camera_params self)
     (Some (with_objects o' r tt)).

Definition optimize_camera `{OpenMaya} `{Numpy} `{Scipy} (h : heap) (s : scene)
  (self : t) (method_arg : option string)
  : res (bool * float * Z) * t * list maya_write :=
  match optimizer self with
  | None =>
      (Raise (RuntimeError "Optimizer not initialized. Set camera and image first."),
       self, [])
  | Some o =>
      let '(is_valid, error_msg) := validate_setup h s (optimizer_objects self o) in
      if negb is_valid
      then (Raise (RuntimeError ("Optimization setup invalid: " ++ error_msg)), self, [])
      else
        let '(r, o') := optimize h s (optimizer_objects self o) method_arg in
        let self := after_optimizer self o o' in
        match r with
        | Raise e => (Raise e, self, [])
        | Ok (success, final_error, iterations) =>
            match success, camera_params self with
            | true, Some cp =>
                let '(applied, done) := apply_to_maya s (params_objects self cp) in
                (let* _ := applied in Ok (success, final_error, iterations), self, done)
            | _, _ => (Ok (success, final_error, iterations), self, [])
            end
        end
  end.

End CameraMatcher.

(* ===================================================================== *)
(** ** A session of calls on one [LocatorPair]                            *)
(* ===================================================================== *)

(** The methods of a [LocatorPair], with their arguments. *)
Inductive call : Type :=
| Call_world_position
| Call_is_valid
| Call_update_pixel_coords (new_coords : vec2)
| Call_update_locator_position (world_pos : vec3)
| Call_delete_locator
| Call_get_projected_coords (camera_name : string)
| Call_get_reprojection_error (camera_name : string) (image_width image_height : Z).

(** The pair after one call made while the scene is [s]. *)
Definition after_call `{OpenMaya} `{Libm} (s : scene) (c : call) (p : LocatorPair) : LocatorPair :=
  match c with
  | Call_world_position => snd (world_position s p)
  | Call_is_valid => p
  | Call_update_pixel_coords new_coords => update_pixel_coords p new_coords
  | Call_update_locator_position world_pos =>
      snd (fst (update_locator_position s p world_pos))
  | Call_delete_locator => snd (fst (delete_locator s p))
  | Call_get_projected_coords camera_name => snd (get_projected_coords s p camera_name)
  | Call_get_reprojection_error camera_name w h =>
      snd (get_reprojection_error s p camera_name w h)
  end.

(** The pair after a session: each call comes with the scene as it is
    when the call is made, so anything may happen to the scene between
    two calls. *)
Fixpoint after_calls `{OpenMaya} `{Libm} (session : list (scene * call)) (p : LocatorPair)
  : LocatorPair :=
  match session with
  | [] => p
  | (s, c) :: rest => after_calls rest (after_call s c p)
  end.

(* ===================================================================== *)
(** ** Instances and scenes for the examples                              *)
(* ===================================================================== *)

Definition entry (m : list float) (i : nat) : float := nth i m 0.
Arguments entry m i%_nat.

(** A row vector times a matrix. *)
Definition row_times_matrix (p : MPoint) (m : list float) : MPoint :=
  mk_MPoint
    (px p * entry m 0 + py p * entry m 4 + pz p * entry m 8 + pw p * entry m 12)
    (px p * entry m 1 + py p * entry m 5 + pz p * entry m 9 + pw p * entry m 13)
    (px p * entry m 2 + py p * entry m 6 + pz p * entry m 10 + pw p * entry m 14)
    (px p * entry m 3 + py p * entry m 7 + pz p * entry m 11 + pw p * entry m 15).

(** The inverse of a rigid transform (three rotation rows, then the
    translation row): the transposed rotation, and the translation taken
    back through it. *)
Definition rigid_inverse (m : list float) : list float :=
  [ entry m 0; entry m 4; entry m 8; 0;
    entry m 1; entry m 5; entry m 9; 0;
    entry m 2; entry m 6; entry m 10; 0;
    - (entry m 12 * entry m 0 + entry m 13 * entry m 1 + entry m 14 * entry m 2);
    - (entry m 12 * entry m 4 + entry m 13 * entry m 5 + entry m 14 * entry m 6);
    - (entry m 12 * entry m 8 + entry m 13 * entry m 9 + entry m 14 * entry m 10);
    1 ].

Definition example_OpenMaya : OpenMaya :=
  {| MMatrix_inverse := rigid_inverse; MPoint_mul := row_times_matrix |}.

(** A sum from left to right, as numpy adds fewer than eight entries. *)
(** A C library whose [pow] is the correctly rounded square root at the
    exponent 0.5 and the correctly rounded square at the exponent 2, the
    two exponents of the sources. *)
Definition example_Libm : Libm :=
  {| libm_pow := fun x y =>
       if PrimFloat.eqb y 0.5 then (PrimFloat.sqrt x, NoError)
       else if PrimFloat.eqb y 2 then (x * x, NoError)
       else (nan, NoError) |}.

(** A C library whose [pow] is one unit in the last place below the
    square root at 14170.0, as glibc's is. *)
Definition last_bit_Libm : Libm :=
  {| libm_pow := fun x y =>
       if PrimFloat.eqb x 14170 && PrimFloat.eqb y 0.5
       then (119.03780911962383, NoError)
       else @libm_pow example_Libm x y |}.

Definition example_Numpy : Numpy :=
  {| np_sum := fun l => fold_left PrimFloat.add l 0 |}.

Definition shift (x : list float) : list float := List.map (fun v => v + 1) x.

(** Solvers that call their function at the initial point, then at the
    point one further along each axis, and finish there with the given
    [success]. *)
Definition example_Scipy (success : bool) : Scipy :=
  {| least_squares := fun x0 _ _ _ _ _ =>
       Evaluate x0 (fun _ =>
       Evaluate (shift x0) (fun r =>
       Finish (mk_ls_result success (shift x0) r 2)));
     minimize := fun x0 _ _ _ _ _ =>
       Evaluate x0 (fun _ =>
       Evaluate (shift x0) (fun c =>
       Finish (mk_min_result success (shift x0) c 1))) |}.

Definition identity_matrix : list float :=
  [ 1; 0; 0; 0;
    0; 1; 0; 0;
    0; 0; 1; 0;
    0; 0; 0; 1 ].

Definition transform_node (shapes : list string) (t : vec3) (m : list float) : node :=
  mk_node "transform" [] shapes (Some t) (Some (0, 0, 0)) (Some m).

Definition translation_matrix (t : vec3) : list float :=
  [ 1; 0; 0; 0;
    0; 1; 0; 0;
    0; 0; 1; 0;
    idx0 t; idx1 t; idx2 t; 1 ].

Definition locator_node (t : vec3) : node :=
  transform_node [] t (translation_matrix t).

Definition camera_shape_node (parent : string) : node :=
  mk_node "camera" [parent] [] None None None.

(** A 35 mm camera with a 36 x 24 mm film back (Maya keeps the film back
    in inches) and no film offset. *)
Definition camera_plugs (shape : string) : gmap string float :=
  <[shape ++ ".focalLength" := 35]>
  (<[shape ++ ".horizontalFilmAperture" := 36 / 25.4]>
  (<[shape ++ ".verticalFilmAperture" := 24 / 25.4]>
  (<[shape ++ ".horizontalFilmOffset" := 0]>
  (<[shape ++ ".verticalFilmOffset" := 0]> ∅)))).

(** The camera at the origin, looking down -Z, and nothing else. *)
Definition camera_scene : scene :=
  mk_scene
    (<["camera1" := transform_node ["cameraShape1"] (0, 0, 0) identity_matrix]>
     (<["cameraShape1" := camera_shape_node "camera1"]> ∅))
    (camera_plugs "cameraShape1").

Definition add_locator (s : scene) (name : string) (t : vec3) : scene :=
  mk_scene (<[name := locator_node t]> (nodes s)) (plugs s).

(** The camera and one locator in front of it, on its axis. *)
Definition axis_scene : scene :=
  add_locator camera_scene "cam_match_loc_001" (0, 0, -10).

(** The camera and one locator at the camera position. *)
Definition degenerate_scene : scene :=
  add_locator camera_scene "cam_match_loc_001" (0, 0, 0).

(** The camera and three locators in front of it. *)
Definition three_scene : scene :=
  add_locator
    (add_locator
       (add_locator camera_scene "cam_match_loc_001" (0, 0, -10))
       "cam_match_loc_002" (1, 0, -10))
    "cam_match_loc_003" (0, 1, -10).

Definition three_pairs : list LocatorPair :=
  [ LocatorPair_init "cam_match_loc_001" (960, 540) (Some 1%Z);
    LocatorPair_init "cam_match_loc_002" (1100, 540) (Some 2%Z);
    LocatorPair_init "cam_match_loc_003" (960, 400) (Some 3%Z) ].

(** [CameraParameters("camera1")] in a scene, from the empty heap. *)
Definition camera1_params (s : scene) : res CameraParameters * heap :=
  CameraParameters_init s empty_heap "camera1".


(** The state [CameraParameters("camera1")] builds in [camera_scene]. *)
Definition example_state : CameraParameters * heap :=
  let '(d, h) := build_constraints empty_heap initial_constraints ∅ in
  (mk_params "camera1" "cameraShape1" "camera1" (0, 0, 0) (0, 0, 0) 35 0 0 36 24 d, h).

Definition example_params : CameraParameters := fst example_state.
Definition example_heap : heap := snd example_state.

(** ** example_usage.py *)

(** [configure_optimization_parameters(matcher)], on the matcher's
    [camera_params]: the focal length is locked, one constraints object is
    given to the three translations, one to the three rotations, one to
    the two film offsets. *)
Definition configure_optimization_parameters (h : heap) (cp : CameraParameters)
  : heap * CameraParameters :=
  let '(h, cp) := lock_parameter h cp "focal_length" true in
  let '(translation_constraint, h) :=
    alloc h (mk_constraints false (Some (-50)) (Some 50)) in
  let cp := snd (set_constraints h cp "translate_x" translation_constraint) in
  let cp := snd (set_constraints h cp "translate_y" translation_constraint) in
  let cp := snd (set_constraints h cp "translate_z" translation_constraint) in
  let '(rotation_constraint, h) :=
    alloc h (mk_constraints false (Some (-180)) (Some 180)) in
  let cp := snd (set_constraints h cp "rotate_x" rotation_constraint) in
  let cp := snd (set_constraints h cp "rotate_y" rotation_constraint) in
  let cp := snd (set_constraints h cp "rotate_z" rotation_constraint) in
  let '(film_offset_constraint, h) :=
    alloc h (mk_constraints false (Some (-10)) (Some 10)) in
  let cp := snd (set_constraints h cp "film_offset_x" film_offset_constraint) in
  let cp := snd (set_constraints h cp "film_offset_y" film_offset_constraint) in
  (h, cp).

(** The parameter set of [camera1] after that configuration. *)
Definition configured_state : heap * CameraParameters :=
  configure_optimization_parameters example_heap example_params.

(** The pair of the locator [cam_match_loc_001], observed at the image
    centre. *)
Definition centre_pair : LocatorPair :=
  LocatorPair_init "cam_match_loc_001" (960, 540) (Some 1%Z).

(** What [get_projected_coords] has read of [camera1] and a locator at
    [world_pos]. *)
Definition camera1_inputs (world_pos : vec3) : projection_inputs :=
  mk_inputs world_pos identity_matrix 35
    (36 / 25.4 * 25.4) (24 / 25.4 * 25.4) (0 * 25.4) (0 * 25.4).

(** An optimizer for [camera1] and the three pairs, on a 1920 x 1080
    image. *)
Definition example_optimizer : CameraOptimizer :=
  CameraOptimizer_init example_params three_pairs 1920 1080.

(** A progress callback that returns. *)
Definition example_callback : callback := fun _ _ => Ok tt.

(** The parameter set of [camera1] with the three bounded parameters
    locked: the six that stay unlocked have no bound, as method ['lm']
    wants. *)
Definition unbounded_state : heap * CameraParameters :=
  let '(h, cp) := lock_parameter example_heap example_params "focal_length" true in
  let '(h, cp) := lock_parameter h cp "film_offset_x" true in
  lock_parameter h cp "film_offset_y" true.

(** A matcher after [set_image], [set_camera("camera1")] and three
    [create_locator_pair]: one [CameraParameters] object, at reference 0,
    which the matcher and its optimizer both refer to. *)
Definition example_matcher : CameraMatcher.t :=
  CameraMatcher.mk three_pairs (fun _ => example_params) (Some O)
    (Some (CameraOptimizer_init O tt 1920 1080)).

(** ** Notions used in the statements *)

(** The Euclidean distance between two pixel positions, in binary64
    arithmetic with the correctly rounded square root. *)
Definition euclidean_distance (a b : vec2) : float :=
  let dx := fst b - fst a in
  let dy := snd b - snd a in
  PrimFloat.sqrt (dx * dx + dy * dy).

(** The value of a parameter, for a name of the canonical list. *)
Definition value_of (cp : CameraParameters) (name : string) : float :=
  match get_parameter_value cp name with
  | Ok v => v
  | Raise _ => 0
  end.

(** The object [lock_parameter] assigns to: the one the dict holds for
    the name, or the one it creates. *)
Definition lock_target (h : heap) (cp : CameraParameters) (name : string) : ref :=
  match _constraints cp !! name with
  | Some r => r
  | None => next_ref h
  end.

(** No other parameter of the canonical list refers to the object that
    locking [name] assigns to. *)
Definition unshared (h : heap) (cp : CameraParameters) (name : string) : Prop :=
  forall other, In other param_names -> other <> name ->
    _constraints cp !! other <> Some (lock_target h cp name).

(** The calls a progress callback receives when it is called once per
    evaluation, the count starting at [n]. *)
Fixpoint numbered (n : Z) (costs : list float) : list (Z * float) :=
  match costs with
  | [] => []
  | c :: rest => (n, c) :: numbered (n + 1) rest
  end.

(** The evaluations of the cost function, in order, that lead from one
    state of the optimizer to another: each with its point and its cost,
    the sum of the squares of the residuals that [_objective_function]
    returns at the point in the state of that moment. *)
Inductive cost_evaluations `{OpenMaya} `{Numpy} (h : heap) (s : scene)
  : CameraOptimizer -> list (list float * float) -> CameraOptimizer -> Prop :=
| no_evaluation (self : CameraOptimizer) :
    cost_evaluations h s self [] self
| one_evaluation (self self1 self' : CameraOptimizer) (x residuals : list float)
    (rest : list (list float * float)) :
    fst (_objective_function h s self x) = Ok residuals ->
    _cost_function h s self x = (Ok (np_sum (squares residuals)), self1) ->
    cost_evaluations h s self1 rest self' ->
    cost_evaluations h s self ((x, np_sum (squares residuals)) :: rest) self'.

(* ===================================================================== *)
(** ** optimization.py: the error reports                                 *)
(* ===================================================================== *)

(** The loop of [calculate_total_error] from the running total
    [total_error] on: the total, and the pairs as the calls leave them. *)
Fixpoint total_error_loop `{OpenMaya} `{Libm} (s : scene) (camera : string) (w h : Z)
  (pairs : list LocatorPair) (total_error : float) : float * list LocatorPair :=
  match pairs with
  | [] => (total_error, [])
  | p :: rest =>
      if negb (is_valid s p)
      then
        let '(t, ps) := total_error_loop s camera w h rest total_error in
        (t, p :: ps)
      else
        let '(r, p') := get_reprojection_error s p camera w h in
        let total_error :=
          match (let* error := r in
                 let* sq := pow_two error in
                 Ok (total_error + sq)) with
          | Ok t => t
          | Raise _ => total_error
          end in
        let '(t, ps) := total_error_loop s camera w h rest total_error in
        (t, p' :: ps)
  end.

Definition calculate_total_error `{OpenMaya} `{Libm} (s : scene) (self : CameraOptimizer)
  : float * CameraOptimizer :=
  let '(total_error, pairs) :=
    total_error_loop s (camera_transform (camera_params self))
      (image_width self) (image_height self) (locator_pairs self) 0.0 in
  (total_error, with_objects self (camera_params self) pairs).

(** [calculate_rms_error] returns what the power gives, a complex
    number when the mean is negative. *)
Definition calculate_rms_error `{OpenMaya} `{Libm} (s : scene) (self : CameraOptimizer)
  : res power * CameraOptimizer :=
  let '(total_error, self) := calculate_total_error s self in
  let valid_count := len (valid_pairs s (locator_pairs self)) in
  if Z.eqb valid_count 0
  then (Ok (PowFloat infinity), self)
  else
    (let* n := float_of_int valid_count in
     let* mean := truediv total_error n in
     pow_half mean,
     self).

(** The loop of [get_individual_errors]. *)
Fixpoint individual_errors_loop `{OpenMaya} `{Libm} (s : scene) (camera : string) (w h : Z)
  (pairs : list LocatorPair) : list (option Z * float) * list LocatorPair :=
  match pairs with
  | [] => ([], [])
  | p :: rest =>
      if negb (is_valid s p)
      then
        let '(errors, ps) := individual_errors_loop s camera w h rest in
        (errors, p :: ps)
      else
        let '(r, p') := get_reprojection_error s p camera w h in
        let entry :=
          match r with
          | Ok error => (pair_id p, error)
          | Raise _ => (pair_id p, infinity)
          end in
        let '(errors, ps) := individual_errors_loop s camera w h rest in
        (entry :: errors, p' :: ps)
  end.

Definition get_individual_errors `{OpenMaya} `{Libm} (s : scene) (self : CameraOptimizer)
  : list (option Z * float) * CameraOptimizer :=
  let '(errors, pairs) :=
    individual_errors_loop s (camera_transform (camera_params self))
      (image_width self) (image_height self) (locator_pairs self) in
  (errors, with_objects self (camera_params self) pairs).

(* ===================================================================== *)
(** ** camera_matcher.py: the pairs and the reports                       *)
(* ===================================================================== *)

Module FullMatcher.

Local Abbreviation id_of := pair_id (only parsing).

(** The attributes of [CameraMatcher.t] with the image size, which the
    methods below read as well. *)
Record t : Type := mk {
  core : CameraMatcher.t;
  image_width : Z;
  image_height : Z
}.

Definition locator_pairs (self : t) : list LocatorPair :=
  CameraMatcher.locator_pairs (core self).

(** The matcher with its list of pairs changed in place. *)
Definition with_pairs (self : t) (pairs : list LocatorPair) : t :=
  mk (CameraMatcher.mk pairs (CameraMatcher.params_objects (core self))
        (CameraMatcher.camera_params (core self)) (CameraMatcher.optimizer (core self)))
     (image_width self) (image_height self).

(** [self.optimizer = ...]. *)
Definition with_optimizer (self : t) (o : option (CameraOptimizerOf ref unit)) : t :=
  mk (CameraMatcher.mk (locator_pairs self) (CameraMatcher.params_objects (core self))
        (CameraMatcher.camera_params (core self)) o)
     (image_width self) (image_height self).

(** [pair.pair_id == pair_id]. *)
Definition has_id (pair_id : Z) (p : LocatorPair) : bool :=
  match id_of p with
  | Some i => Z.eqb i pair_id
  | None => false
  end.

Definition _update_optimizer `{Scipy} (self : t) : t :=
  match CameraMatcher.camera_params (core self) with
  | Some cp =>
      if Z.ltb 0 (image_width self) && Z.ltb 0 (image_height self)
      then with_optimizer self
             (Some (CameraOptimizer_init cp tt (image_width self) (image_height self)))
      else self
  | None => self
  end.

Fixpoint get_locator_pair_in (pairs : list LocatorPair) (pair_id : Z) : option LocatorPair :=
  match pairs with
  | [] => None
  | p :: rest => if has_id pair_id p then Some p else get_locator_pair_in rest pair_id
  end.

Definition get_locator_pair (self : t) (pair_id : Z) : option LocatorPair :=
  get_locator_pair_in (locator_pairs self) pair_id.

(** The first pair with the id replaced by [f] of it: a method called on
    the object that [get_locator_pair] returned. *)
Fixpoint on_first (pair_id : Z) (f : LocatorPair -> LocatorPair) (pairs : list LocatorPair)
  : list LocatorPair :=
  match pairs with
  | [] => []
  | p :: rest => if has_id pair_id p then f p :: rest else p :: on_first pair_id f rest
  end.

Definition update_locator_pixel_coords (self : t) (pair_id : Z) (pixel_x pixel_y : float)
  : bool * t :=
  match get_locator_pair self pair_id with
  | Some _ =>
      (true,
       with_pairs self
         (on_first pair_id (fun p => update_pixel_coords p (pixel_x, pixel_y))
            (locator_pairs self)))
  | None => (false, self)
  end.

Definition update_locator_world_pos (s : scene) (self : t) (pair_id : Z) (x y z : float)
  : bool * t * list maya_write :=
  match get_locator_pair self pair_id with
  | Some p =>
      let '(r, p', done) := update_locator_position s p (x, y, z) in
      (is_ok r, with_pairs self (on_first pair_id (fun _ => p') (locator_pairs self)), done)
  | None => (false, self, [])
  end.

(** The loop of [remove_locator_pair]: the outcome of [delete_locator] on
    the first pair with the id, the list without it (or with the pair as
    a raising [delete_locator] left it), and the commands issued; [None]
    when no pair has the id. *)
Fixpoint remove_first (s : scene) (pair_id : Z) (pairs : list LocatorPair)
  : option (res unit * list LocatorPair * list maya_write) :=
  match pairs with
  | [] => None
  | p :: rest =>
      if has_id pair_id p
      then
        match delete_locator s p with
        | (Ok _, _, done) => Some (Ok tt, rest, done)
        | (Raise e, p', done) => Some (Raise e, p' :: rest, done)
        end
      else
        match remove_first s pair_id rest with
        | Some (r, rest', done) => Some (r, p :: rest', done)
        | None => None
        end
  end.

Definition remove_locator_pair `{Scipy} (s : scene) (self : t) (pair_id : Z)
  : res bool * t * list maya_write :=
  match remove_first s pair_id (locator_pairs self) with
  | Some (Ok _, pairs, done) => (Ok true, _update_optimizer (with_pairs self pairs), done)
  | Some (Raise e, pairs, done) => (Raise e, with_pairs self pairs, done)
  | None => (Ok false, self, [])
  end.

Definition get_valid_pairs (s : scene) (self : t) : list LocatorPair :=
  valid_pairs s (locator_pairs self).

Definition get_pair_count (self : t) : Z := len (locator_pairs self).

Definition get_valid_pair_count (s : scene) (self : t) : Z := len (get_valid_pairs s self).

Definition calculate_current_error `{OpenMaya} `{Libm} (s : scene) (self : t)
  : res power * t :=
  match CameraMatcher.optimizer (core self) with
  | None => (Ok (PowFloat infinity), self)
  | Some o =>
      let '(r, o') := calculate_rms_error s (CameraMatcher.optimizer_objects (core self) o) in
      (r, mk (CameraMatcher.after_optimizer (core self) o o')
             (image_width self) (image_height self))
  end.

Definition get_individual_errors `{OpenMaya} `{Libm} (s : scene) (self : t)
  : list (option Z * float) * t :=
  match CameraMatcher.optimizer (core self) with
  | None => ([], self)
  | Some o =>
      let '(errors, o') :=
        get_individual_errors s (CameraMatcher.optimizer_objects (core self) o) in
      (errors, mk (CameraMatcher.after_optimizer (core self) o o')
                  (image_width self) (image_height self))
  end.

(** The loop of [project_locators_to_pixels], filling the dict
    [projections]. *)
Fixpoint project_loop `{OpenMaya} (s : scene) (camera : string) (w h : Z)
  (pairs : list LocatorPair) (projections : gmap (option Z) vec2)
  : gmap (option Z) vec2 * list LocatorPair :=
  match pairs with
  | [] => (projections, [])
  | p :: rest =>
      if negb (is_valid s p)
      then
        let '(d, ps) := project_loop s camera w h rest projections in
        (d, p :: ps)
      else
        let '(projected, p') := get_projected_coords s p camera in
        let projections :=
          match (let* ndc_coords := projected in
                 let* pixel_x := proj_pixel_x ndc_coords w in
                 let* pixel_y := proj_pixel_y ndc_coords h in
                 Ok (pixel_x, pixel_y)) with
          | Ok pixel => <[pair_id p := pixel]> projections
          | Raise _ => projections
          end in
        let '(d, ps) := project_loop s camera w h rest projections in
        (d, p' :: ps)
  end.

Definition project_locators_to_pixels `{OpenMaya} (s : scene) (self : t)
  : gmap (option Z) vec2 * t :=
  match CameraMatcher.camera_params (core self) with
  | None => (∅, self)
  | Some cp =>
      let '(d, pairs) :=
        project_loop s (camera_transform (CameraMatcher.params_objects (core self) cp))
          (image_width self) (image_height self) (locator_pairs self) ∅ in
      (d, with_pairs self pairs)
  end.

End FullMatcher.

(** A value lies within the bounds of a constraints object: not below
    its minimum and not above its maximum, each when it is set. *)
Definition within_bounds (c : ParameterConstraints) (v : float) : bool :=
  match min_value c with
  | Some lo => negb (PrimFloat.ltb v lo)
  | None => true
  end
  && match max_value c with
     | Some hi => negb (PrimFloat.ltb hi v)
     | None => true
     end.

(** Every unlocked parameter holds a value within the bounds of its
    constraints. *)
Definition values_within_bounds (h : heap) (cp : CameraParameters) : Prop :=
  forall name, In name (get_unlocked_parameter_names h cp) ->
    within_bounds (get_constraints h cp name) (value_of cp name) = true.

(** Two parameter sets that differ in [camera_name] at most. *)
Definition same_camera (a b : CameraParameters) : Prop :=
  _camera_shape a = _camera_shape b
  /\ _camera_transform a = _camera_transform b
  /\ _translation a = _translation b
  /\ _rotation a = _rotation b
  /\ _focal_length a = _focal_length b
  /\ _film_offset_x a = _film_offset_x b
  /\ _film_offset_y a = _film_offset_y b
  /\ _film_aperture_h a = _film_aperture_h b
  /\ _film_aperture_v a = _film_aperture_v b
  /\ _constraints a = _constraints b.



(** The matcher of [example_matcher] with its image size, a progress
    callback set on its optimizer. *)
Definition example_full_matcher : FullMatcher.t :=
  FullMatcher.mk
    (CameraMatcher.mk three_pairs (fun _ => example_params) (Some O)
       (Some (set_progress_callback (CameraOptimizer_init O tt 1920 1080) example_callback)))
    1920 1080.

(* ===================================================================== *)
(** * Properties                                                          *)
(* ===================================================================== *)

(** ** The parameter set *)

Lemma NoDup_param_names : NoDup param_names.
Proof. apply (bool_decide_unpack _). vm_compute. reflexivity. Qed.

(** Case analysis on a name of the canonical list. *)
Ltac canonical_cases H :=
  simpl in H;
  repeat match type of H with
         | _ \/ _ => destruct H as [H | H]
         end;
  [ subst .. | contradiction ].

Lemma get_parameter_value_known (cp : CameraParameters) (name : string) :
  In name param_names -> exists v, get_parameter_value cp name = Ok v.
Proof.
  intros Hin. canonical_cases Hin; eexists; reflexivity.
Qed.

(** A write of a canonical name succeeds, stores the constrained value
    under that name, and leaves the other names and the dict alone. *)
Lemma set_parameter_value_known (h : heap) (cp : CameraParameters)
  (name : string) (v : float) :
  In name param_names ->
  exists cp',
    set_parameter_value h cp name v = Ok cp'
    /\ _constraints cp' = _constraints cp
    /\ get_parameter_value cp' name = Ok (constrain h cp name v)
    /\ (forall other, In other param_names -> other <> name ->
          get_parameter_value cp' other = get_parameter_value cp other).
Proof.
  intros Hin.
  canonical_cases Hin;
    (eexists; split; [reflexivity|]; split; [reflexivity|]; split; [reflexivity|];
     intros other Ho Hne; canonical_cases Ho; first [congruence | reflexivity]).
Qed.

Lemma constrain_same_dict (h : heap) (cp cp' : CameraParameters) (name : string) (v : float) :
  _constraints cp' = _constraints cp -> constrain h cp' name v = constrain h cp name v.
Proof. intros E. unfold constrain. rewrite E. reflexivity. Qed.

Lemma is_parameter_locked_same_dict (h : heap) (cp cp' : CameraParameters) (name : string) :
  _constraints cp' = _constraints cp ->
  is_parameter_locked h cp' name = is_parameter_locked h cp name.
Proof. intros E. unfold is_parameter_locked, get_constraints. rewrite E. reflexivity. Qed.

Lemma unlocked_names_same_dict (h : heap) (cp cp' : CameraParameters) :
  _constraints cp' = _constraints cp ->
  get_unlocked_parameter_names h cp' = get_unlocked_parameter_names h cp.
Proof.
  intros E. unfold get_unlocked_parameter_names.
  apply List.filter_ext. intros name. rewrite (is_parameter_locked_same_dict h cp cp' name E).
  reflexivity.
Qed.

(** The loop of [set_parameter_vector] over distinct canonical names. *)
Lemma write_unlocked_spec (h : heap) (names : list string) :
  forall (i : nat) (values : list float) (cp : CameraParameters),
    NoDup names ->
    (forall n, In n names -> In n param_names) ->
    (i + length names <= length values)%nat ->
    exists cp',
      write_unlocked h cp names i values = (Ok tt, cp')
      /\ _constraints cp' = _constraints cp
      /\ (forall k name, names !! k = Some name ->
            exists v, values !! (i + k)%nat = Some v
                      /\ get_parameter_value cp' name = Ok (constrain h cp name v))
      /\ (forall other, In other param_names -> ~ In other names ->
            get_parameter_value cp' other = get_parameter_value cp other).
Proof.
  induction names as [|n rest IH]; intros i values cp Hnd Hsub Hlen.
  - exists cp. simpl. repeat split; try reflexivity.
    intros k name Hk. rewrite lookup_nil in Hk. discriminate.
  - simpl in Hlen.
    destruct (lookup_lt_is_Some_2 values i ltac:(lia)) as [v Hv].
    destruct (set_parameter_value_known h cp n v (Hsub n (or_introl eq_refl)))
      as (cp1 & Hset & Hdict1 & Hget1 & Hframe1).
    apply NoDup_cons in Hnd as [Hnotin Hnd].
    destruct (IH (S i) values cp1 Hnd
                (fun m Hm => Hsub m (or_intror Hm)) ltac:(lia))
      as (cp' & Hrun & Hdict & Hvals & Hframe).
    exists cp'. simpl. rewrite Hv, Hset. split; [exact Hrun|].
    split; [congruence|]. split.
    + intros [|k] name Hk; simpl in Hk.
      * injection Hk as <-. exists v. rewrite Nat.add_0_r. split; [exact Hv|].
        rewrite Hframe; [exact Hget1 | apply Hsub; left; reflexivity |].
        intros Hin. apply Hnotin. apply list_elem_of_In. exact Hin.
      * destruct (Hvals k name Hk) as (v' & Hv' & Hget').
        exists v'. split.
        -- replace (i + S k)%nat with (S i + k)%nat by lia. exact Hv'.
        -- rewrite Hget'. f_equal. apply constrain_same_dict. exact Hdict1.
    + intros other Ho Hno.
      rewrite Hframe; [| exact Ho | intros Hin; apply Hno; right; exact Hin].
      apply Hframe1; [exact Ho|].
      intros ->. apply Hno. left. reflexivity.
Qed.

Lemma NoDup_unlocked (h : heap) (cp : CameraParameters) :
  NoDup (get_unlocked_parameter_names h cp).
Proof.
  unfold get_unlocked_parameter_names.
  apply NoDup_ListNoDup, List.NoDup_filter, NoDup_ListNoDup, NoDup_param_names.
Qed.

Lemma In_unlocked (h : heap) (cp : CameraParameters) (name : string) :
  In name (get_unlocked_parameter_names h cp) <->
  In name param_names /\ is_parameter_locked h cp name = false.
Proof.
  unfold get_unlocked_parameter_names. rewrite List.filter_In, negb_true_iff. reflexivity.
Qed.

(** A vector of the right length is written whole. *)
Lemma set_parameter_vector_ok (h : heap) (cp : CameraParameters) (values : list float) :
  length values = length (get_unlocked_parameter_names h cp) ->
  exists cp',
    set_parameter_vector h cp values = (Ok tt, cp')
    /\ _constraints cp' = _constraints cp
    /\ (forall k name, get_unlocked_parameter_names h cp !! k = Some name ->
          exists v, values !! k = Some v
                    /\ get_parameter_value cp' name = Ok (constrain h cp name v))
    /\ (forall name, In name param_names -> is_parameter_locked h cp name = true ->
          get_parameter_value cp' name = get_parameter_value cp name).
Proof.
  intros Hlen. unfold set_parameter_vector, len. rewrite Hlen, Z.eqb_refl. simpl.
  destruct (write_unlocked_spec h (get_unlocked_parameter_names h cp) O values cp
              (NoDup_unlocked h cp)
              (fun n Hn => proj1 (proj1 (In_unlocked h cp n) Hn))
              ltac:(lia))
    as (cp' & Hrun & Hdict & Hvals & Hframe).
  exists cp'. repeat split; try assumption.
  intros name Hin Hlocked. apply Hframe; [exact Hin|].
  intros Hu. apply In_unlocked in Hu as [_ Hu]. congruence.
Qed.

(** A vector of the wrong length is refused and nothing is written. *)
Lemma set_parameter_vector_mismatch (h : heap) (cp : CameraParameters) (values : list float) :
  length values <> length (get_unlocked_parameter_names h cp) ->
  set_parameter_vector h cp values =
    (Raise (ValueError ("Expected " ++ fmt_int (len (get_unlocked_parameter_names h cp))
                         ++ " values, got " ++ fmt_int (len values))), cp).
Proof.
  intros Hlen. unfold set_parameter_vector, len.
  destruct (Z.eqb_spec (Z.of_nat (length values))
              (Z.of_nat (length (get_unlocked_parameter_names h cp)))) as [E|E].
  - apply Nat2Z.inj in E. contradiction.
  - reflexivity.
Qed.

(** C5. [set_parameter_vector] (the spec's [from_vector]): a list whose
    length differs from the number of unlocked parameters is refused with
    the [ValueError] that reports both counts (the spec's
    [ParameterCountMismatch]) and the object is left as it was; a list of
    the right length is written whole, its [k]-th value reaching, through
    the clamp of [set_parameter_value], the [k]-th unlocked name, where
    the unlocked names are the canonical list filtered, in its order;
    locked parameters and the constraints keep their state. *)
Theorem set_parameter_vector_spec (h : heap) (cp : CameraParameters) (values : list float) :
  let unlocked := get_unlocked_parameter_names h cp in
  unlocked =
    List.filter (fun name => negb (is_parameter_locked h cp name))
      [ "translate_x"; "translate_y"; "translate_z";
        "rotate_x"; "rotate_y"; "rotate_z";
        "focal_length"; "film_offset_x"; "film_offset_y" ]
  /\ (length values <> length unlocked ->
      set_parameter_vector h cp values =
        (Raise (ValueError ("Expected " ++ fmt_int (len unlocked)
                             ++ " values, got " ++ fmt_int (len values))), cp))
  /\ (length values = length unlocked ->
      exists cp',
        set_parameter_vector h cp values = (Ok tt, cp')
        /\ _constraints cp' = _constraints cp
        /\ (forall k name, unlocked !! k = Some name ->
              exists v, values !! k = Some v
                        /\ get_parameter_value cp' name = Ok (constrain h cp name v))
        /\ (forall name, In name param_names -> is_parameter_locked h cp name = true ->
              get_parameter_value cp' name = get_parameter_value cp name)).
Proof.
  intros unlocked. split; [reflexivity|]. split.
  - apply set_parameter_vector_mismatch.
  - apply set_parameter_vector_ok.
Qed.

Example camera1_params_eq :
  camera1_params camera_scene = (Ok example_params, example_heap).
Proof. vm_compute. reflexivity. Qed.

(** Three values for nine unlocked parameters are refused; nine are
    written, the focal length 2000 clamped to its upper bound 1000. *)
Lemma set_parameter_vector_spec_witness :
  set_parameter_vector example_heap example_params [1; 2; 3] =
    (Raise (ValueError "Expected 9 values, got 3"), example_params)
  /\ exists cp',
       set_parameter_vector example_heap example_params
         [1; 2; 3; 4; 5; 6; 2000; 8; 9] = (Ok tt, cp')
       /\ get_parameter_value cp' "translate_y" = Ok 2
       /\ get_parameter_value cp' "focal_length" = Ok 1000.
Proof.
  split.
  - destruct (set_parameter_vector_spec example_heap example_params [1; 2; 3])
      as (_ & Hbad & _).
    rewrite Hbad; [reflexivity | vm_compute; discriminate].
  - destruct (set_parameter_vector_spec example_heap example_params
                [1; 2; 3; 4; 5; 6; 2000; 8; 9]) as (_ & _ & Hgood).
    destruct (Hgood eq_refl) as (cp' & Hset & _ & Hvals & _).
    exists cp'. split; [exact Hset|]. split.
    + destruct (Hvals 1%nat "translate_y" eq_refl) as (v & Hv & Hget).
      injection Hv as <-. exact Hget.
    + destruct (Hvals 6%nat "focal_length" eq_refl) as (v & Hv & Hget).
      injection Hv as <-. exact Hget.
Defined.


(** No write of a value touches the constraints dict. *)
Lemma set_parameter_value_dict (h : heap) (cp cp' : CameraParameters)
  (name : string) (v : float) :
  set_parameter_value h cp name v = Ok cp' -> _constraints cp' = _constraints cp.
Proof.
  unfold set_parameter_value.
  repeat match goal with
         | |- context [String.eqb name ?lit] => destruct (String.eqb name lit)
         end;
    intros [= <-]; reflexivity.
Qed.

Lemma write_unlocked_dict (h : heap) (names : list string) :
  forall (i : nat) (values : list float) (cp : CameraParameters),
    _constraints (snd (write_unlocked h cp names i values)) = _constraints cp.
Proof.
  induction names as [|n rest IH]; intros i values cp; [reflexivity|].
  simpl. destruct (values !! i) as [v|]; [|reflexivity].
  destruct (set_parameter_value h cp n v) as [cp1|e] eqn:E; [|reflexivity].
  rewrite IH. apply (set_parameter_value_dict h cp cp1 n v E).
Qed.

Lemma set_parameter_vector_dict (h : heap) (cp : CameraParameters) (values : list float) :
  _constraints (snd (set_parameter_vector h cp values)) = _constraints cp.
Proof.
  unfold set_parameter_vector.
  destruct (negb _); [reflexivity | apply write_unlocked_dict].
Qed.

(** ** Locking *)

Lemma read_unlocked_eq (h : heap) (cp : CameraParameters) (names : list string) :
  (forall n, In n names -> In n param_names) ->
  read_unlocked h cp names =
    Ok (List.map (value_of cp)
          (List.filter (fun name => negb (is_parameter_locked h cp name)) names)).
Proof.
  induction names as [|n rest IH]; intros Hsub; [reflexivity|].
  simpl. rewrite IH by (intros m Hm; apply Hsub; right; exact Hm).
  destruct (negb (is_parameter_locked h cp n)); [|reflexivity].
  destruct (get_parameter_value_known cp n (Hsub n (or_introl eq_refl))) as [v Hv].
  rewrite Hv. simpl. do 2 f_equal. unfold value_of. rewrite Hv. reflexivity.
Qed.

Lemma get_parameter_vector_eq (h : heap) (cp : CameraParameters) :
  get_parameter_vector h cp =
    Ok (List.map (value_of cp) (get_unlocked_parameter_names h cp)).
Proof. apply read_unlocked_eq. intros n Hn. exact Hn. Qed.

(** Switching one element of a duplicate-free list out of a filter
    removes that one element and nothing else. *)
Lemma filter_switch_off {A : Type} (P P' : A -> bool) (x : A) (l : list A) :
  NoDup l -> In x l -> P x = true -> P' x = false ->
  (forall y, In y l -> y <> x -> P' y = P y) ->
  exists l1 l2,
    List.filter P l = (l1 ++ x :: l2)%list
    /\ List.filter P' l = (l1 ++ l2)%list
    /\ (forall y, In y (l1 ++ l2)%list -> In y l /\ y <> x).
Proof.
  induction l as [|a l IH]; intros Hnd Hin Hx Hx' Hsame; [destruct Hin|].
  apply NoDup_cons in Hnd as [Hnotin Hnd].
  destruct Hin as [-> | Hin].
  - exists [], (List.filter P l). simpl. rewrite Hx, Hx'.
    split; [reflexivity|]. split.
    + apply List.filter_ext_in. intros y Hy. apply Hsame; [right; exact Hy|].
      intros ->. apply Hnotin, list_elem_of_In, Hy.
    + intros y Hy. apply List.filter_In in Hy as [Hy _]. split; [right; exact Hy|].
      intros ->. apply Hnotin, list_elem_of_In, Hy.
  - assert (a <> x) as Hax by (intros ->; apply Hnotin, list_elem_of_In, Hin).
    destruct (IH Hnd Hin Hx Hx' (fun y Hy => Hsame y (or_intror Hy)))
      as (l1 & l2 & E & E' & Hrest).
    simpl. rewrite (Hsame a (or_introl eq_refl) Hax), E, E'.
    destruct (P a).
    + exists (a :: l1), l2. repeat split; try reflexivity.
      * destruct H as [<- | H]; [left; reflexivity | right; apply (Hrest y H)].
      * destruct H as [<- | H]; [exact Hax | apply (Hrest y H)].
    + exists l1, l2. repeat split; try reflexivity.
      * right. apply (Hrest y H).
      * apply (Hrest y H).
Qed.

(** What [lock_parameter] changes: the lock of the target object, seen
    through every name that refers to it. *)
Lemma lock_parameter_effect (h : heap) (cp : CameraParameters) (name : string) (locked : bool) :
  forall h' cp', lock_parameter h cp name locked = (h', cp') ->
    (forall n, get_parameter_value cp' n = get_parameter_value cp n)
    /\ get_constraints h' cp' name =
         mk_constraints locked (min_value (get_constraints h cp name))
                        (max_value (get_constraints h cp name))
    /\ (forall other, other <> name ->
          _constraints cp !! other <> Some (lock_target h cp name) ->
          get_constraints h' cp' other = get_constraints h cp other).
Proof.
  intros h' cp'. unfold lock_parameter, lock_target, get_constraints.
  destruct (_constraints cp !! name) as [r|] eqn:E.
  - intros [= <- <-]. split; [reflexivity|]. split.
    + rewrite E. simpl. rewrite Nat.eqb_refl. reflexivity.
    + intros other _ Hne. destruct (_constraints cp !! other) as [r'|]; [|reflexivity].
      simpl. destruct (Nat.eqb_spec r' r) as [->|]; [congruence | reflexivity].
  - simpl. intros [= <- <-]. split; [reflexivity|]. split.
    + simpl. rewrite lookup_insert_eq. simpl. rewrite !Nat.eqb_refl. reflexivity.
    + intros other Hother Hne. simpl. rewrite lookup_insert_ne by congruence.
      destruct (_constraints cp !! other) as [r'|]; [|reflexivity].
      simpl. destruct (Nat.eqb_spec r' (next_ref h)) as [->|]; [congruence | reflexivity].
Qed.

(** X5. Locking an unlocked parameter whose constraints object no other
    parameter shares removes one entry of [get_parameter_vector] and the
    entry at the same position of each bound list; the entries before and
    after it stay, in their order. *)
Lemma lock_parameter_unshared (h : heap) (cp : CameraParameters) (name : string)
  (self self' : CameraOptimizer) (h' : heap) (cp' : CameraParameters) :
  In name param_names ->
  is_parameter_locked h cp name = false ->
  unshared h cp name ->
  lock_parameter h cp name true = (h', cp') ->
  camera_params self = cp -> camera_params self' = cp' ->
  exists va v vb la l lb ua u ub,
    get_parameter_vector h cp = Ok (va ++ v :: vb)%list
    /\ get_parameter_vector h' cp' = Ok (va ++ vb)%list
    /\ _get_parameter_bounds h self = ((la ++ l :: lb)%list, (ua ++ u :: ub)%list)
    /\ _get_parameter_bounds h' self' = ((la ++ lb)%list, (ua ++ ub)%list)
    /\ length la = length va /\ length ua = length va
    /\ length lb = length vb /\ length ub = length vb.
Proof.
  intros Hin Hunlocked Hunshared Hlock Hself Hself'.
  destruct (lock_parameter_effect h cp name true h' cp' Hlock) as (Hval & Hname & Hother).
  assert (forall y, In y param_names -> y <> name ->
            get_constraints h' cp' y = get_constraints h cp y) as Hsame.
  { intros y Hy Hne. apply Hother; [exact Hne | apply Hunshared; assumption]. }
  destruct (filter_switch_off
              (fun n => negb (is_parameter_locked h cp n))
              (fun n => negb (is_parameter_locked h' cp' n))
              name param_names NoDup_param_names Hin)
    as (l1 & l2 & E & E' & Hrest).
  { rewrite Hunlocked. reflexivity. }
  { unfold is_parameter_locked. rewrite Hname. reflexivity. }
  { intros y Hy Hne. unfold is_parameter_locked. rewrite (Hsame y Hy Hne). reflexivity. }
  set (lo := fun (g : heap) (c : CameraParameters) (n : string) =>
               match min_value (get_constraints g c n) with
               | Some m => m | None => neg_infinity end).
  set (up := fun (g : heap) (c : CameraParameters) (n : string) =>
               match max_value (get_constraints g c n) with
               | Some m => m | None => infinity end).
  exists (List.map (value_of cp) l1), (value_of cp name), (List.map (value_of cp) l2),
         (List.map (lo h cp) l1), (lo h cp name), (List.map (lo h cp) l2),
         (List.map (up h cp) l1), (up h cp name), (List.map (up h cp) l2).
  assert (forall f g : string -> float,
            (forall y, In y param_names -> y <> name -> f y = g y) ->
            List.map f (l1 ++ l2)%list = List.map g (l1 ++ l2)%list) as Hmap.
  { intros f g Hfg. apply List.map_ext_in. intros y Hy.
    destruct (Hrest y Hy) as [Hy1 Hy2]. apply Hfg; assumption. }
  rewrite !get_parameter_vector_eq. unfold _get_parameter_bounds.
  rewrite Hself, Hself'.
  unfold get_unlocked_parameter_names. rewrite E, E'.
  repeat split.
  - rewrite List.map_app. reflexivity.
  - rewrite (Hmap (value_of cp') (value_of cp)), List.map_app; [reflexivity|].
    intros y _ _. unfold value_of. rewrite Hval. reflexivity.
  - rewrite !List.map_app. reflexivity.
  - f_equal.
    + rewrite (Hmap _ (lo h cp)), List.map_app; [reflexivity|].
      intros y Hy Hne. unfold lo. rewrite (Hsame y Hy Hne). reflexivity.
    + rewrite (Hmap _ (up h cp)), List.map_app; [reflexivity|].
      intros y Hy Hne. unfold up. rewrite (Hsame y Hy Hne). reflexivity.
  - rewrite !length_map. reflexivity.
  - rewrite !length_map. reflexivity.
  - rewrite !length_map. reflexivity.
  - rewrite !length_map. reflexivity.
Qed.

(** C8, at a state where it fails. After
    [configure_optimization_parameters] of example_usage.py the three
    translations refer to one constraints object. [translate_x] is
    unlocked there, and locking it removes three entries, not one, from
    the parameter vector and from each bound list: [lock_parameter] sets
    [is_locked] on the shared object. *)
Theorem lock_parameter_shared_object :
  let '(h, cp) := configured_state in
  let '(h', cp') := lock_parameter h cp "translate_x" true in
  is_parameter_locked h cp "translate_x" = false
  /\ get_unlocked_parameter_names h cp =
       [ "translate_x"; "translate_y"; "translate_z";
         "rotate_x"; "rotate_y"; "rotate_z"; "film_offset_x"; "film_offset_y" ]
  /\ get_unlocked_parameter_names h' cp' =
       [ "rotate_x"; "rotate_y"; "rotate_z"; "film_offset_x"; "film_offset_y" ]
  /\ get_parameter_vector h cp = Ok [0; 0; 0; 0; 0; 0; 0; 0]
  /\ get_parameter_vector h' cp' = Ok [0; 0; 0; 0; 0]
  /\ _get_parameter_bounds h (CameraOptimizer_init cp [] 1920 1080) =
       ([-50; -50; -50; -180; -180; -180; -10; -10], [50; 50; 50; 180; 180; 180; 10; 10])
  /\ _get_parameter_bounds h' (CameraOptimizer_init cp' [] 1920 1080) =
       ([-180; -180; -180; -10; -10], [180; 180; 180; 10; 10]).
Proof. vm_compute. repeat split. Qed.

(** The state built by [CameraParameters.__init__] shares nothing: there
    locking [translate_x] removes the first entry only. *)
Example lock_parameter_fresh_objects :
  unshared example_heap example_params "translate_x"
  /\ get_parameter_vector example_heap example_params = Ok [0; 0; 0; 0; 0; 0; 35; 0; 0]
  /\ (let '(h', cp') := lock_parameter example_heap example_params "translate_x" true in
      get_parameter_vector h' cp' = Ok [0; 0; 0; 0; 0; 35; 0; 0]).
Proof.
  split; [|vm_compute; split; reflexivity].
  intros other Hin Hne. canonical_cases Hin; first [congruence | vm_compute; discriminate].
Qed.

(** ** The validity latch *)

Lemma set_invalid_is_invalid (p : LocatorPair) : _is_valid (set_invalid p) = false.
Proof. reflexivity. Qed.

Lemma is_valid_latched (s : scene) (p : LocatorPair) :
  _is_valid p = false -> is_valid s p = false.
Proof. intros E. unfold is_valid. rewrite E. reflexivity. Qed.

Lemma world_position_failure_latches (s : scene) (p : LocatorPair) :
  is_ok (fst (world_position s p)) = false ->
  _is_valid (snd (world_position s p)) = false.
Proof.
  unfold world_position.
  destruct (negb (cmds_objExists s (locator_name p))); [reflexivity|].
  destruct (cmds_xform_q_translation s (locator_name p)); [discriminate | reflexivity].
Qed.

Section Latch.
Context `{OpenMaya} `{Libm}.

Lemma get_projected_coords_latched (s : scene) (p : LocatorPair) (camera : string) :
  _is_valid p = false -> snd (get_projected_coords s p camera) = p.
Proof.
  intros E. unfold get_projected_coords.
  destruct (negb (cmds_objExists s camera)); [reflexivity|].
  rewrite (is_valid_latched s p E). reflexivity.
Qed.

(** No method gives a latched pair its validity back. *)
Lemma after_call_latched (s : scene) (c : call) (p : LocatorPair) :
  _is_valid p = false -> _is_valid (after_call s c p) = false.
Proof.
  intros E. destruct c as [| |coords|pos| |camera|camera w ht]; simpl; try exact E.
  - unfold world_position.
    destruct (negb (cmds_objExists s (locator_name p))); [reflexivity|].
    destruct (cmds_xform_q_translation s (locator_name p)); [exact E | reflexivity].
  - unfold update_locator_position.
    destruct (negb (cmds_objExists s (locator_name p))); [reflexivity|].
    destruct (cmds_writes s _) as [r done]. exact E.
  - unfold delete_locator.
    destruct (cmds_objExists s (locator_name p)); [|reflexivity].
    destruct (cmds_writes s _) as [[u|e] done]; [reflexivity | exact E].
  - rewrite get_projected_coords_latched; assumption.
  - unfold get_reprojection_error.
    pose proof (get_projected_coords_latched s p camera E) as Hp.
    destruct (get_projected_coords s p camera) as [r p']. simpl in *.
    rewrite Hp. exact E.
Qed.

Lemma after_calls_latched (session : list (scene * call)) :
  forall p, _is_valid p = false -> _is_valid (after_calls session p) = false.
Proof.
  induction session as [|[s c] rest IH]; intros p E; [exact E|].
  simpl. apply IH, after_call_latched, E.
Qed.

(** C1. Once [world_position] has raised for a pair (its locator is gone,
    or Maya refuses the query), [is_valid] is false after every later
    session of calls on that pair, in every scene, also one in which an
    object with the locator's name exists again. *)
Theorem validity_latch (s0 : scene) (p : LocatorPair)
  (session : list (scene * call)) (s : scene) :
  is_ok (fst (world_position s0 p)) = false ->
  is_valid s (after_calls session (snd (world_position s0 p))) = false.
Proof.
  intros Hfail.
  apply is_valid_latched, after_calls_latched, world_position_failure_latches, Hfail.
Qed.

End Latch.

(** The locator is missing from [camera_scene] when its position is read;
    it is back in [axis_scene], where the pair is then queried, moved and
    projected: [is_valid] stays false although the object exists. *)
Lemma validity_latch_witness :
  let p := LocatorPair_init "cam_match_loc_001" (960, 540) (Some 1%Z) in
  let session :=
    [ (axis_scene, Call_is_valid);
      (axis_scene, Call_world_position);
      (axis_scene, Call_update_locator_position (0, 0, -5));
      (axis_scene, Call_get_reprojection_error "camera1" 1920 1080) ] in
  is_valid camera_scene p = false
  /\ cmds_objExists axis_scene (locator_name p) = true
  /\ is_valid axis_scene
       (@after_calls example_OpenMaya example_Libm session
          (snd (world_position camera_scene p))) = false.
Proof.
  split; [reflexivity|]. split; [reflexivity|].
  apply (@validity_latch example_OpenMaya example_Libm). reflexivity.
Defined.

(** The latch is set by a failed read of the position, not by [is_valid]
    itself: a pair that was only asked [is_valid] while its locator was
    missing is valid again once the name exists again. *)
Example is_valid_does_not_latch :
  let p := LocatorPair_init "cam_match_loc_001" (960, 540) (Some 1%Z) in
  is_valid camera_scene p = false
  /\ is_valid axis_scene
       (@after_call example_OpenMaya example_Libm camera_scene Call_is_valid p) = true.
Proof. split; reflexivity. Qed.

(** ** The optimizer *)

Section Optimizer.
Context `{OpenMaya} `{Numpy} `{Scipy}.

Lemma valid_pairs_few (s : scene) (self : CameraOptimizer) (method_arg : option string)
  (h : heap) :
  (len (valid_pairs s (locator_pairs self)) < 3)%Z ->
  exists msg, optimize h s self method_arg = (Raise (ValueError msg), self).
Proof.
  intros Hfew. unfold optimize.
  destruct (locator_pairs self) as [|p ps]; [eexists; reflexivity|].
  destruct (valid_pairs s (p :: ps)) as [|v vs]; [eexists; reflexivity|].
  apply Z.ltb_lt in Hfew. rewrite Hfew. eexists; reflexivity.
Qed.

(** C4. With fewer than three valid pairs, [optimize] raises the
    [ValueError] of its entry checks (the spec's [SetupInvalid]) whatever
    the parameter values, the method and the solver are, and leaves the
    optimizer as it was: no parameter is written and the objective is not
    called. [validate_setup] reports the setup invalid as well. *)
Theorem optimize_needs_three_valid_pairs (h : heap) (s : scene) (self : CameraOptimizer)
  (method_arg : option string) :
  (len (valid_pairs s (locator_pairs self)) < 3)%Z ->
  (exists msg, optimize h s self method_arg = (Raise (ValueError msg), self))
  /\ fst (validate_setup h s self) = false.
Proof.
  intros Hfew. split; [apply valid_pairs_few, Hfew|].
  unfold validate_setup. simpl.
  destruct (locator_pairs self) as [|p ps] eqn:E; [reflexivity|].
  apply Z.ltb_lt in Hfew. rewrite Hfew. reflexivity.
Qed.

(** *** The progress callback *)

Lemma _objective_function_callback_calls (h : heap) (s : scene) (self : CameraOptimizer)
  (x : list float) :
  callback_calls (snd (_objective_function h s self x)) = callback_calls self.
Proof.
  unfold _objective_function.
  destruct (set_parameter_vector h _ x) as [[u|e] cp]; [|reflexivity].
  destruct (residuals_loop s _ _ _ _) as [rs ps]. reflexivity.
Qed.

Lemma _objective_function_objective_calls (h : heap) (s : scene) (self : CameraOptimizer)
  (x : list float) :
  objective_calls (snd (_objective_function h s self x)) = (objective_calls self ++ [x])%list.
Proof.
  unfold _objective_function.
  destruct (set_parameter_vector h _ x) as [[u|e] cp]; [|reflexivity].
  destruct (residuals_loop s _ _ _ _) as [rs ps]. reflexivity.
Qed.

(** A solver run on [_objective_function] never reaches the callback. *)
Lemma run_objective_callback_calls {R : Type} (h : heap) (s : scene)
  (sv : solver (list float) R) :
  forall self,
    callback_calls (snd (run_solver (_objective_function h s) sv self)) = callback_calls self.
Proof.
  induction sv as [r|e|x k IH]; intros self; try reflexivity.
  simpl. pose proof (_objective_function_callback_calls h s self x) as E.
  destruct (_objective_function h s self x) as [[v|e] self1]; simpl in E.
  - rewrite IH. exact E.
  - exact E.
Qed.

(** With a least-squares method the progress callback is not called:
    [least_squares] is given [_objective_function], and the callback is
    called by [_cost_function] only. *)
Lemma least_squares_never_calls_back (h : heap) (s : scene) (self : CameraOptimizer)
  (opt_method : string) (x0 : list float) :
  is_least_squares_method opt_method = true ->
  callback_calls (snd (run_method h s self opt_method x0)) = callback_calls self.
Proof.
  intros Hls. unfold run_method. rewrite Hls.
  pose proof (run_objective_callback_calls h s
                (least_squares x0 opt_method (_get_parameter_bounds h self)
                   (max_iterations self) (tolerance self) (tolerance self)) self) as E.
  destruct (run_solver _ _ self) as [r self1]. exact E.
Qed.

Lemma optimize_least_squares_callback_calls (h : heap) (s : scene) (self : CameraOptimizer)
  (method_arg : option string) :
  is_least_squares_method (method_or method_arg (method self)) = true ->
  callback_calls (snd (optimize h s self method_arg)) = callback_calls self.
Proof.
  intros Hls. unfold optimize.
  destruct (locator_pairs self) as [|p ps]; [reflexivity|].
  destruct (valid_pairs s (p :: ps)) as [|v vs]; [reflexivity|].
  destruct (Z.ltb _ 3); [reflexivity|].
  destruct (get_parameter_vector h (camera_params self)) as [initial_params|e];
    [|reflexivity].
  destruct (Z.eqb _ 0); [reflexivity|].
  unfold optimize_body.
  pose proof (least_squares_never_calls_back h s (set_iteration_count self 0)
                (method_or method_arg (method self)) initial_params Hls) as E.
  simpl in E |- *.
  destruct (run_method h s _ _ initial_params) as [[[[[ok x] err] its]|e] solved];
    simpl in E |- *; [|exact E].
  destruct (set_parameter_vector h (camera_params solved) x) as [r cp]. exact E.
Qed.

(** One evaluation of [_cost_function] with a callback set: the callback
    is called once, with the new evaluation count and the cost. *)
Lemma _cost_function_reports (h : heap) (s : scene) (self self' : CameraOptimizer)
  (x : list float) (cb : callback) (cost : float) :
  progress_callback self = Some cb ->
  _cost_function h s self x = (Ok cost, self') ->
  callback_calls self' = (callback_calls self ++ [(iteration_count self + 1, cost)%Z])%list
  /\ objective_calls self' = (objective_calls self ++ [x])%list
  /\ iteration_count self' = (iteration_count self + 1)%Z
  /\ progress_callback self' = Some cb
  /\ exists residuals,
       fst (_objective_function h s self x) = Ok residuals
       /\ cost = np_sum (squares residuals).
Proof.
  intros Hcb. unfold _cost_function.
  pose proof (_objective_function_callback_calls h s self x) as Ecb.
  pose proof (_objective_function_objective_calls h s self x) as Eobj.
  assert (progress_callback (snd (_objective_function h s self x)) = Some cb
          /\ iteration_count (snd (_objective_function h s self x)) = iteration_count self)
    as [Ep Ei].
  { unfold _objective_function.
    destruct (set_parameter_vector h _ x) as [[u|e] cp]; [|split; [exact Hcb | reflexivity]].
    destruct (residuals_loop s _ _ _ _) as [rs ps]. split; [exact Hcb | reflexivity]. }
  destruct (_objective_function h s self x) as [[residuals|e] self1]; simpl in *;
    [|discriminate].
  rewrite Ep. destruct (cb _ _) as [u|e]; [|discriminate].
  intros [= <- <-]. simpl. rewrite Ecb, Eobj, Ei.
  repeat split; try reflexivity; try assumption.
  exists residuals. split; reflexivity.
Qed.

(** A run of [minimize]'s solver that ends without an exception: every
    evaluation was reported to the callback, numbered from the count
    after the last one before. *)
Lemma minimize_reports_every_evaluation {R : Type} (h : heap) (s : scene) (cb : callback)
  (sv : solver float R) :
  forall (self self' : CameraOptimizer) (r : R),
    progress_callback self = Some cb ->
    run_solver (_cost_function h s) sv self = (Ok r, self') ->
    exists xs costs,
      objective_calls self' = (objective_calls self ++ xs)%list
      /\ callback_calls self' =
           (callback_calls self ++ numbered (iteration_count self + 1) costs)%list
      /\ length xs = length costs.
Proof.
  induction sv as [r0|e|x k IH]; intros self self' r Hcb Hrun; simpl in Hrun.
  - injection Hrun as _ <-. exists [], []. rewrite !app_nil_r. repeat split.
  - discriminate.
  - destruct (_cost_function h s self x) as [[cost|e] self1] eqn:Hcost; [|discriminate].
    destruct (_cost_function_reports h s self self1 x cb cost Hcb Hcost)
      as (Ecb & Eobj & Ei & Ep & _).
    destruct (IH cost self1 self' r Ep Hrun) as (xs & costs & Exs & Ecosts & Elen).
    exists (x :: xs), (cost :: costs). simpl.
    rewrite Exs, Ecosts, Eobj, Ecb, Ei, <- !app_assoc. simpl.
    repeat split. rewrite Elen. reflexivity.
Qed.

(** *** The constraints during a run *)

Lemma _objective_function_dict (h : heap) (s : scene) (self : CameraOptimizer)
  (x : list float) :
  _constraints (camera_params (snd (_objective_function h s self x)))
  = _constraints (camera_params self).
Proof.
  unfold _objective_function.
  pose proof (set_parameter_vector_dict h (camera_params (record_objective self x)) x) as E.
  destruct (set_parameter_vector h _ x) as [[u|e] cp]; [|exact E].
  destruct (residuals_loop s _ _ _ _) as [rs ps]. exact E.
Qed.

Lemma _cost_function_dict (h : heap) (s : scene) (self : CameraOptimizer) (x : list float) :
  _constraints (camera_params (snd (_cost_function h s self x)))
  = _constraints (camera_params self).
Proof.
  unfold _cost_function.
  pose proof (_objective_function_dict h s self x) as E.
  destruct (_objective_function h s self x) as [[residuals|e] self1]; [|exact E].
  simpl in *. destruct (progress_callback self1) as [cb|]; [|exact E].
  destruct (cb _ _); exact E.
Qed.

Lemma run_solver_dict {V R : Type}
  (f : CameraOptimizer -> list float -> res V * CameraOptimizer) (sv : solver V R) :
  (forall self x, _constraints (camera_params (snd (f self x)))
                  = _constraints (camera_params self)) ->
  forall self,
    _constraints (camera_params (snd (run_solver f sv self)))
    = _constraints (camera_params self).
Proof.
  intros Hf. induction sv as [r|e|x k IH]; intros self; try reflexivity.
  simpl. pose proof (Hf self x) as E.
  destruct (f self x) as [[v|e] self1]; simpl in E; [|exact E].
  rewrite IH. exact E.
Qed.

(** The solver's evaluations leave the locks and bounds as they were. *)
Lemma run_method_dict (h : heap) (s : scene) (self : CameraOptimizer)
  (opt_method : string) (x0 : list float) :
  _constraints (camera_params (snd (run_method h s self opt_method x0)))
  = _constraints (camera_params self).
Proof.
  unfold run_method. destruct (is_least_squares_method opt_method).
  - pose proof (run_solver_dict (_objective_function h s)
                  (least_squares x0 opt_method (_get_parameter_bounds h self)
                     (max_iterations self) (tolerance self) (tolerance self))
                  (_objective_function_dict h s) self) as E.
    destruct (run_solver _ _ self) as [r self1]. exact E.
  - destruct (_get_parameter_bounds h self) as [lo up].
    pose proof (run_solver_dict (_cost_function h s)
                  (minimize x0 opt_method (finite_bounds lo up)
                     (max_iterations self) (tolerance self) (tolerance self))
                  (_cost_function_dict h s) self) as E.
    destruct (run_solver _ _ self) as [r self1]. exact E.
Qed.

(** *** The write-back *)

(** A returning [optimize] ran the solver of its method from the current
    vector and wrote the solver's final parameters with
    [set_parameter_vector], whatever [success] the solver reported. *)
Lemma optimize_returns (h : heap) (s : scene) (self self' : CameraOptimizer)
  (method_arg : option string) (success : bool) (final_error : float) (iterations : Z) :
  optimize h s self method_arg = (Ok (success, final_error, iterations), self') ->
  exists initial_params final_params solved,
    get_parameter_vector h (camera_params self) = Ok initial_params
    /\ run_method h s (set_iteration_count self 0)
         (method_or method_arg (method self)) initial_params
       = (Ok (success, final_params, final_error, iterations), solved)
    /\ set_parameter_vector h (camera_params solved) final_params
       = (Ok tt, camera_params self')
    /\ locator_pairs self' = locator_pairs solved
    /\ (forall k name,
          get_unlocked_parameter_names h (camera_params self) !! k = Some name ->
          exists v, final_params !! k = Some v
                    /\ get_parameter_value (camera_params self') name
                       = Ok (constrain h (camera_params self) name v)).
Proof.
  unfold optimize.
  destruct (locator_pairs self) as [|p ps]; [discriminate|].
  destruct (valid_pairs s (p :: ps)) as [|v vs]; [discriminate|].
  destruct (Z.ltb _ 3); [discriminate|].
  destruct (get_parameter_vector h (camera_params self)) as [initial_params|e];
    [|discriminate].
  destruct (Z.eqb _ 0); [discriminate|].
  unfold optimize_body.
  pose proof (run_method_dict h s (set_iteration_count self 0)
                (method_or method_arg (method self)) initial_params) as Hdict.
  destruct (run_method h s _ _ initial_params) as [[[[[ok x] err] its]|e] solved] eqn:Hrun;
    [|discriminate].
  simpl in Hdict.
  destruct (set_parameter_vector h (camera_params solved) x) as [[[]|e] cp] eqn:Hset;
    [|discriminate].
  simpl. intros [= <- <- <- <-]. simpl.
  exists initial_params, x, solved. repeat split; try reflexivity; try assumption.
  intros k name Hk.
  rewrite <- (unlocked_names_same_dict h _ _ Hdict) in Hk.
  destruct (Nat.eq_dec (length x) (length (get_unlocked_parameter_names h (camera_params solved))))
    as [Hlen|Hlen].
  - destruct (set_parameter_vector_ok h (camera_params solved) x Hlen)
      as (cp' & Hset' & _ & Hvals & _).
    rewrite Hset in Hset'. injection Hset' as <-.
    destruct (Hvals k name Hk) as (v0 & Hv0 & Hget). exists v0. split; [exact Hv0|].
    rewrite Hget. f_equal. apply constrain_same_dict. exact Hdict.
  - rewrite (set_parameter_vector_mismatch h (camera_params solved) x Hlen) in Hset.
    discriminate.
Qed.

(** C7. When [optimize] returns with [success] false, the parameter set
    is the one [set_parameter_vector] leaves from the solver's final
    vector: each unlocked parameter holds the (clamped) entry of that
    vector, and nothing restores the values [optimize] started from. *)
Theorem optimize_unconverged_keeps_final_vector (h : heap) (s : scene)
  (self self' : CameraOptimizer) (method_arg : option string)
  (final_error : float) (iterations : Z) :
  optimize h s self method_arg = (Ok (false, final_error, iterations), self') ->
  exists initial_params final_params solved,
    get_parameter_vector h (camera_params self) = Ok initial_params
    /\ run_method h s (set_iteration_count self 0)
         (method_or method_arg (method self)) initial_params
       = (Ok (false, final_params, final_error, iterations), solved)
    /\ set_parameter_vector h (camera_params solved) final_params
       = (Ok tt, camera_params self')
    /\ (forall k name,
          get_unlocked_parameter_names h (camera_params self) !! k = Some name ->
          exists v, final_params !! k = Some v
                    /\ get_parameter_value (camera_params self') name
                       = Ok (constrain h (camera_params self) name v)).
Proof.
  intros Hopt.
  destruct (optimize_returns h s self self' method_arg false final_error iterations Hopt)
    as (initial_params & final_params & solved & Hinit & Hrun & Hset & _ & Hvals).
  exists initial_params, final_params, solved. repeat split; assumption.
Qed.

End Optimizer.

(** Only one of the three pairs has its locator in [axis_scene]:
    [optimize] refuses, and the optimizer is untouched. *)
Lemma optimize_needs_three_valid_pairs_witness :
  len (valid_pairs axis_scene three_pairs) = 1%Z
  /\ (exists msg,
        @optimize example_OpenMaya example_Numpy (example_Scipy true)
          example_heap axis_scene example_optimizer None
        = (Raise (ValueError msg), example_optimizer))
  /\ fst (@validate_setup (example_Scipy true) example_heap axis_scene example_optimizer)
     = false.
Proof.
  split; [reflexivity|].
  apply (@optimize_needs_three_valid_pairs example_OpenMaya example_Numpy (example_Scipy true)).
  reflexivity.
Defined.

(** The solver stops at the second point with [success] false: the nine
    parameters are left there (the focal length moved from 35 to 36), not
    where they started. *)
Lemma optimize_unconverged_keeps_final_vector_witness :
  let run := @optimize example_OpenMaya example_Numpy (example_Scipy false)
               example_heap three_scene example_optimizer (Some "trf") in
  get_parameter_vector example_heap (camera_params example_optimizer)
    = Ok [0; 0; 0; 0; 0; 0; 35; 0; 0]
  /\ get_parameter_vector example_heap (camera_params (snd run))
     = Ok [1; 1; 1; 1; 1; 1; 36; 1; 1]
  /\ exists final_error initial_params final_params solved,
       fst run = Ok (false, final_error, 2%Z)
       /\ get_parameter_vector example_heap (camera_params example_optimizer)
          = Ok initial_params
       /\ @run_method example_OpenMaya example_Numpy (example_Scipy false)
            example_heap three_scene (set_iteration_count example_optimizer 0)
            (method_or (Some "trf") (method example_optimizer)) initial_params
          = (Ok (false, final_params, final_error, 2%Z), solved)
       /\ set_parameter_vector example_heap (camera_params solved) final_params
          = (Ok tt, camera_params (snd run)).
Proof.
  intros run. split; [reflexivity|]. split; [vm_compute; reflexivity|].
  assert (exists final_error, run = (Ok (false, final_error, 2%Z), snd run)) as [err Hrun].
  { eexists. vm_compute. reflexivity. }
  destruct (@optimize_unconverged_keeps_final_vector
              example_OpenMaya example_Numpy (example_Scipy false)
              example_heap three_scene example_optimizer (snd run) (Some "trf") err 2%Z Hrun)
    as (initial_params & final_params & solved & Hinit & Hmethod & Hset & _).
  exists err, initial_params, final_params, solved.
  split; [rewrite Hrun; reflexivity|]. repeat split; assumption.
Defined.

(** C2, at a state where it fails. A callback is set, the three
    pairs are valid, and the solver evaluates the objective twice. With
    each of the methods ['lm'], ['trf'] and ['dogbox'] the objective is
    called at both points and the callback is never called; with
    ['L-BFGS-B'] the callback is called at both, with the counts 1 and
    2. *)
Theorem least_squares_methods_skip_callback :
  let '(h, cp) := unbounded_state in
  let self :=
    set_progress_callback (CameraOptimizer_init cp three_pairs 1920 1080) example_callback in
  let run m :=
    @optimize example_OpenMaya example_Numpy (example_Scipy true)
      h three_scene self (Some m) in
  let evaluations := [[0; 0; 0; 0; 0; 0]; [1; 1; 1; 1; 1; 1]] in
  (is_ok (fst (run "lm")) = true
   /\ objective_calls (snd (run "lm")) = evaluations
   /\ callback_calls (snd (run "lm")) = [])
  /\ (is_ok (fst (run "trf")) = true
      /\ objective_calls (snd (run "trf")) = evaluations
      /\ callback_calls (snd (run "trf")) = [])
  /\ (is_ok (fst (run "dogbox")) = true
      /\ objective_calls (snd (run "dogbox")) = evaluations
      /\ callback_calls (snd (run "dogbox")) = [])
  /\ (is_ok (fst (run "L-BFGS-B")) = true
      /\ objective_calls (snd (run "L-BFGS-B")) = evaluations
      /\ List.map fst (callback_calls (snd (run "L-BFGS-B"))) = [1%Z; 2%Z]).
Proof. vm_compute. repeat split. Qed.

(** ** The matcher *)

Section Matcher.
Context `{OpenMaya} `{Numpy} `{Scipy}.

(** C10. [optimize_camera] issues commands to Maya only after an
    [optimize] that reported success. When it returns a result whose
    [success] is false, no command was issued, so the scene camera is as
    it was, while the [CameraParameters] object of the optimizer holds
    what [set_parameter_vector] made of the solver's final vector. *)
Theorem optimize_camera_applies_on_success_only (h : heap) (s : scene)
  (self self' : CameraMatcher.t) (method_arg : option string)
  (r : res (bool * float * Z)) (writes : list maya_write) :
  CameraMatcher.optimize_camera h s self method_arg = (r, self', writes) ->
  (writes <> [] ->
   exists o o' final_error iterations,
     CameraMatcher.optimizer self = Some o
     /\ optimize h s (CameraMatcher.optimizer_objects self o) method_arg
        = (Ok (true, final_error, iterations), o'))
  /\ (forall final_error iterations,
        r = Ok (false, final_error, iterations) ->
        writes = []
        /\ exists o o' final_params (solved : CameraOptimizer),
             CameraMatcher.optimizer self = Some o
             /\ optimize h s (CameraMatcher.optimizer_objects self o) method_arg
                = (Ok (false, final_error, iterations), o')
             /\ self' = CameraMatcher.after_optimizer self o o'
             /\ set_parameter_vector h (camera_params solved) final_params
                = (Ok tt, CameraMatcher.params_objects self' (camera_params o))).
Proof.
  unfold CameraMatcher.optimize_camera.
  destruct (CameraMatcher.optimizer self) as [o|];
    [|intros [= <- <- <-]; split; [congruence | discriminate]].
  destruct (validate_setup h s _) as [ok msg].
  destruct ok; simpl; [|intros [= <- <- <-]; split; [congruence | discriminate]].
  destruct (optimize h s (CameraMatcher.optimizer_objects self o) method_arg)
    as [[[[success err] its]|e] o'] eqn:Hopt;
    [|intros [= <- <- <-]; split; [congruence | discriminate]].
  destruct success.
  - destruct (CameraMatcher.camera_params _) as [cp|].
    + destruct (apply_to_maya s _) as [applied done].
      intros [= <- <- <-]. split.
      * intros _. exists o, o', err, its. split; [reflexivity | exact Hopt].
      * intros final_error iterations Hr. destruct applied; discriminate.
    + intros [= <- <- <-]. split; [congruence | discriminate].
  - intros [= <- <- <-]. split; [congruence|].
    intros final_error iterations [= <- <-]. split; [reflexivity|].
    destruct (optimize_returns h s _ o' method_arg false err its Hopt)
      as (initial_params & final_params & solved & _ & _ & Hset & _).
    exists o, o', final_params, solved.
    split; [reflexivity|]. split; [exact Hopt|]. split; [reflexivity|].
    simpl. rewrite Nat.eqb_refl. exact Hset.
Qed.

End Matcher.

(** Nothing is written to the scene when the solver reports failure, and
    the shared [CameraParameters] object is at the solver's last point;
    the camera is written when it reports success. *)
Lemma optimize_camera_applies_on_success_only_witness :
  let failed :=
    @CameraMatcher.optimize_camera example_OpenMaya example_Numpy (example_Scipy false)
      example_heap three_scene example_matcher (Some "trf") in
  let passed :=
    @CameraMatcher.optimize_camera example_OpenMaya example_Numpy (example_Scipy true)
      example_heap three_scene example_matcher (Some "trf") in
  (exists final_error, fst (fst failed) = Ok (false, final_error, 2%Z))
  /\ snd failed = []
  /\ get_parameter_vector example_heap
       (CameraMatcher.params_objects (snd (fst failed)) O)
     = Ok [1; 1; 1; 1; 1; 1; 36; 1; 1]
  /\ snd passed =
       [ XformTranslation "camera1" (1, 1, 1);
         XformRotation "camera1" (1, 1, 1);
         SetAttr "cameraShape1.focalLength" 36;
         SetAttr "cameraShape1.horizontalFilmOffset" (1 / 25.4);
         SetAttr "cameraShape1.verticalFilmOffset" (1 / 25.4) ].
Proof.
  intros failed passed.
  assert (exists final_error,
            failed = (Ok (false, final_error, 2%Z), snd (fst failed), snd failed))
    as [err Hrun].
  { eexists. vm_compute. reflexivity. }
  split; [exists err; rewrite Hrun; reflexivity|].
  split.
  - destruct (@optimize_camera_applies_on_success_only
                example_OpenMaya example_Numpy (example_Scipy false)
                example_heap three_scene example_matcher (snd (fst failed)) (Some "trf")
                (Ok (false, err, 2%Z)) (snd failed) Hrun) as [_ Hfalse].
    destruct (Hfalse err 2%Z eq_refl) as [Hnone _]. exact Hnone.
  - split; vm_compute; reflexivity.
Defined.

(** ** Projection *)

(** A float that compares equal to zero is one of the two zeros. *)
Lemma eqb_zero_cases (x : float) :
  PrimFloat.eqb x 0 = true -> x = 0 \/ x = -0.
Proof.
  rewrite FloatAxioms.eqb_spec. intros E.
  assert (exists sgn, Prim2SF x = S754_zero sgn) as [sgn Hx].
  { change (Prim2SF 0) with (S754_zero false) in E.
    destruct (Prim2SF x) as [sgn| | |sgn m e]; simpl in E.
    - exists sgn. reflexivity.
    - destruct s; discriminate.
    - discriminate.
    - unfold SFeqb in E. simpl in E. destruct sgn; discriminate. }
  rewrite <- (SF2Prim_Prim2SF x), Hx.
  destruct sgn; [right | left]; reflexivity.
Qed.

(** ** The sign of a sum of squares *)









Section Projection.
Context `{OpenMaya} `{Libm}.

(** The projection step of [get_projected_coords] on a camera-space
    point with [|z| < 1e-6]. *)
Lemma project_inputs_degenerate (i : projection_inputs) :
  PrimFloat.ltb (abs (pz (camera_space_point i))) 1e-6 = true ->
  project_inputs i = Raise degenerate.
Proof. intros Hz. unfold project_inputs. rewrite Hz. reflexivity. Qed.

(** Past its two entry checks, [get_projected_coords] is its reads
    followed by the projection, with any exception wrapped. *)
Lemma get_projected_coords_body (s : scene) (p : LocatorPair) (camera : string) :
  cmds_objExists s camera = true ->
  is_valid s p = true ->
  fst (get_projected_coords s p camera)
  = try_except
      (let* i := read_projection_inputs s camera (fst (world_position s p)) in
       project_inputs i)
      (fun e => Raise (projection_failed p e)).
Proof.
  intros Hcam Hvalid. unfold get_projected_coords. rewrite Hcam, Hvalid. simpl.
  destruct (world_position s p) as [w p']. reflexivity.
Qed.

Lemma get_projected_coords_degenerate (s : scene) (p : LocatorPair) (camera : string)
  (i : projection_inputs) :
  cmds_objExists s camera = true ->
  is_valid s p = true ->
  read_projection_inputs s camera (fst (world_position s p)) = Ok i ->
  PrimFloat.ltb (abs (pz (camera_space_point i))) 1e-6 = true ->
  fst (get_projected_coords s p camera) = Raise (projection_failed p degenerate).
Proof.
  intros Hcam Hvalid Hread Hz.
  rewrite (get_projected_coords_body s p camera Hcam Hvalid), Hread. simpl.
  rewrite (project_inputs_degenerate i Hz). reflexivity.
Qed.

(** C3, as the code has it. When the camera-space Z of the point has
    magnitude below 1e-6, [LocatorPair.get_projected_coords] raises: the
    [RuntimeError] "Point is at camera position (division by zero)",
    wrapped as "Failed to project locator ...". The stand-alone
    [project_point] of math_utils does not raise there: it returns the
    pair (0.0, 0.0). *)
Theorem degenerate_projection (s : scene) (p : LocatorPair) (camera : string)
  (i : projection_inputs) (point_3d : vec3) (camera_matrix : list float)
  (focal_length film_width film_height film_offset_x film_offset_y : float) :
  (cmds_objExists s camera = true ->
   is_valid s p = true ->
   read_projection_inputs s camera (fst (world_position s p)) = Ok i ->
   PrimFloat.ltb (abs (pz (camera_space_point i))) 1e-6 = true ->
   fst (get_projected_coords s p camera)
   = Raise (RuntimeError ("Failed to project locator '" ++ locator_name p
                            ++ "': Point is at camera position (division by zero)")))
  /\ (length camera_matrix = 16%nat ->
      PrimFloat.ltb
        (abs (pz (MPoint_mul (mk_MPoint (idx0 point_3d) (idx1 point_3d) (idx2 point_3d) 1.0)
                    (MMatrix_inverse camera_matrix)))) 1e-6 = true ->
      project_point point_3d camera_matrix focal_length film_width film_height
        film_offset_x film_offset_y = Ok (0.0, 0.0)).
Proof.
  split.
  - apply get_projected_coords_degenerate.
  - intros Hlen Hz. unfold project_point, MMatrix. rewrite Hlen. simpl.
    rewrite Hz. reflexivity.
Qed.




End Projection.

(** The locator of [degenerate_scene] sits at the camera position: the
    pair's projection raises, [project_point] returns the origin. *)
Lemma degenerate_projection_witness :
  fst (@get_projected_coords example_OpenMaya degenerate_scene centre_pair "camera1")
  = Raise (RuntimeError
             "Failed to project locator 'cam_match_loc_001': Point is at camera position (division by zero)")
  /\ @project_point example_OpenMaya (0, 0, 0) identity_matrix 35 36 24 0 0 = Ok (0.0, 0.0).
Proof.
  destruct (@degenerate_projection example_OpenMaya degenerate_scene centre_pair "camera1"
              (camera1_inputs (0, 0, 0)) (0, 0, 0) identity_matrix 35 36 24 0 0)
    as [Hpair Hpoint].
  split.
  - apply Hpair; vm_compute; reflexivity.
  - apply Hpoint; vm_compute; reflexivity.
Defined.

(** C3 as stated fails: [project_point] has inputs whose
    camera-space Z is below 1e-6 in magnitude and for which it returns a
    coordinate pair. *)
Lemma project_point_degenerate_returns :
  ~ (forall (api : OpenMaya) (point_3d : vec3) (camera_matrix : list float)
       (focal_length film_width film_height film_offset_x film_offset_y : float),
       length camera_matrix = 16%nat ->
       PrimFloat.ltb
         (abs (pz (MPoint_mul (mk_MPoint (idx0 point_3d) (idx1 point_3d) (idx2 point_3d) 1.0)
                     (MMatrix_inverse camera_matrix)))) 1e-6 = true ->
       exists e,
         project_point point_3d camera_matrix focal_length film_width film_height
           film_offset_x film_offset_y = Raise e).
Proof.
  intros Hclaim.
  destruct (Hclaim example_OpenMaya (0, 0, 0) identity_matrix 35 36 24 0 0
              eq_refl eq_refl) as [e He].
  vm_compute in He. discriminate.
Qed.


(** The last bit of the distance is the C library's: with the locator on
    the axis observed at (957, 421), the sum of squares is 14170.0, and a
    library whose [pow] is not correctly rounded there gives a distance
    that is not the correctly rounded square root. *)
Example reprojection_error_last_bit :
  fst (@get_reprojection_error example_OpenMaya last_bit_Libm axis_scene
         (update_pixel_coords centre_pair (957, 421)) "camera1" 1920 1080)
  = Ok 119.03780911962383
  /\ euclidean_distance (957, 421) (960, 540) = 119.03780911962384
  /\ PrimFloat.eqb 119.03780911962383 119.03780911962384 = false.
Proof. repeat split; vm_compute; reflexivity. Qed.

Section ImageCentre.
Context `{OpenMaya} `{Libm}.

(** The perspective division and the film coordinates, as
    [get_projected_coords] and [project_point] compute them, for a
    camera-space point on the optical axis, ten units in front of a
    35 mm camera with no film offset: both film coordinates are zero. *)
Lemma on_axis_film (c : MPoint) :
  PrimFloat.eqb (px c) 0 = true ->
  PrimFloat.eqb (py c) 0 = true ->
  pz c = -10 ->
  exists x_proj y_proj,
    truediv (- px c) (pz c) = Ok x_proj
    /\ truediv (py c) (pz c) = Ok y_proj
    /\ x_proj * 35 + 0 = 0
    /\ y_proj * 35 + 0 = 0.
Proof.
  intros Hx Hy Hz. rewrite Hz.
  destruct (eqb_zero_cases _ Hx) as [-> | ->], (eqb_zero_cases _ Hy) as [-> | ->];
    eexists _, _; vm_compute; repeat split.
Qed.

(** C9. Camera at the origin looking down -Z (the identity world matrix,
    which leaves the point (0, 0, -10) on the axis in camera space), focal
    length 35, film back 36 x 24 mm, no film offset, image 1920 x 1080:
    the point (0, 0, -10) projects to the pixel (960, 540), through
    [project_point] and through [get_projected_coords] for a locator
    there, and that locator observed at (960, 540) has reprojection
    error 0. *)
Theorem image_centre_projection :
  let c := MPoint_mul (mk_MPoint 0 0 (-10) 1) (MMatrix_inverse identity_matrix) in
  PrimFloat.eqb (px c) 0 = true ->
  PrimFloat.eqb (py c) 0 = true ->
  pz c = -10 ->
  (exists ndc,
     project_point (0, 0, -10) identity_matrix 35 36 24 0 0 = Ok ndc
     /\ proj_pixel_x ndc 1920 = Ok 960
     /\ proj_pixel_y ndc 1080 = Ok 540)
  /\ (exists ndc,
        fst (get_projected_coords axis_scene centre_pair "camera1") = Ok ndc
        /\ proj_pixel_x ndc 1920 = Ok 960
        /\ proj_pixel_y ndc 1080 = Ok 540)
  /\ fst (get_reprojection_error axis_scene centre_pair "camera1" 1920 1080) = Ok 0.
Proof.
  intros c Hx Hy Hz.
  destruct (on_axis_film c Hx Hy Hz) as (x_proj & y_proj & Hxp & Hyp & Hxf & Hyf).
  assert (PrimFloat.ltb (abs (pz c)) 1e-6 = false) as Hfar by (rewrite Hz; reflexivity).
  assert (project_point (0, 0, -10) identity_matrix 35 36 24 0 0 = Ok (0 / 18, 0 / 12))
    as Hpoint.
  { unfold project_point. change (MMatrix identity_matrix) with (Ok identity_matrix).
    cbn [bind idx0 idx1 idx2 fst snd]. fold c. rewrite Hfar, Hxp, Hyp.
    cbn [bind]. rewrite Hxf, Hyf. reflexivity. }
  assert (fst (get_projected_coords axis_scene centre_pair "camera1") = Ok (0 / 18, 0 / 12))
    as Hpair.
  { rewrite get_projected_coords_body by reflexivity.
    change (read_projection_inputs axis_scene "camera1"
              (fst (world_position axis_scene centre_pair)))
      with (Ok (camera1_inputs (0, 0, -10))).
    cbn [bind try_except]. unfold project_inputs.
    change (camera_space_point (camera1_inputs (0, 0, -10))) with c.
    rewrite Hfar, Hxp, Hyp. cbn [bind].
    change (in_focal_length (camera1_inputs (0, 0, -10))) with 35.
    change (in_h_offset (camera1_inputs (0, 0, -10))) with 0.
    change (in_v_offset (camera1_inputs (0, 0, -10))) with 0.
    rewrite Hxf, Hyf. reflexivity. }
  split; [|split].
  - exists (0 / 18, 0 / 12). split; [exact Hpoint|]. split; reflexivity.
  - exists (0 / 18, 0 / 12). split; [exact Hpair|]. split; reflexivity.
  - unfold get_reprojection_error.
    destruct (get_projected_coords axis_scene centre_pair "camera1") as [r p'].
    simpl in Hpair. subst r. reflexivity.
Qed.

End ImageCentre.

(** With Maya's matrices taken as exact on rigid transforms, the
    hypotheses on the camera-space point hold, and the pixel is
    (960, 540). *)
Lemma image_centre_projection_witness :
  (exists ndc,
     @project_point example_OpenMaya (0, 0, -10) identity_matrix 35 36 24 0 0 = Ok ndc
     /\ proj_pixel_x ndc 1920 = Ok 960
     /\ proj_pixel_y ndc 1080 = Ok 540)
  /\ (exists ndc,
        fst (@get_projected_coords example_OpenMaya axis_scene centre_pair "camera1") = Ok ndc
        /\ proj_pixel_x ndc 1920 = Ok 960
        /\ proj_pixel_y ndc 1080 = Ok 540)
  /\ fst (@get_reprojection_error example_OpenMaya example_Libm axis_scene centre_pair
            "camera1" 1920 1080)
     = Ok 0.
Proof.
  apply (@image_centre_projection example_OpenMaya example_Libm); reflexivity.
Defined.

(* ===================================================================== *)
(** * Further properties                                                  *)
(* ===================================================================== *)

(** ** Clamping *)

Lemma SFcompare_refl (f : spec_float) :
  SFcompare f f = Some Eq \/ SFcompare f f = None.
Proof.
  destruct f as [sgn|sgn| |sgn m e]; simpl.
  - left; reflexivity.
  - left; destruct sgn; reflexivity.
  - right; reflexivity.
  - left. rewrite Z.compare_refl, Pos.compare_cont_refl. destruct sgn; reflexivity.
Qed.

Lemma ltb_irrefl (x : float) : PrimFloat.ltb x x = false.
Proof.
  rewrite FloatAxioms.ltb_spec. unfold SFltb.
  destruct (SFcompare_refl (Prim2SF x)) as [-> | ->]; reflexivity.
Qed.

Lemma clamp_value_twice (c : ParameterConstraints) (v : float) :
  clamp_value c (clamp_value c v) = clamp_value c v.
Proof.
  unfold clamp_value, py_max, py_min.
  destruct (min_value c) as [lo|], (max_value c) as [hi|].
  - destruct (PrimFloat.ltb v lo) eqn:Evl.
    + destruct (PrimFloat.ltb hi lo) eqn:Ehl.
      * rewrite Ehl. rewrite Ehl. reflexivity.
      * rewrite (ltb_irrefl lo), Ehl. reflexivity.
    + destruct (PrimFloat.ltb hi v) eqn:Ehv.
      * destruct (PrimFloat.ltb hi lo) eqn:Ehl.
        -- rewrite Ehl. reflexivity.
        -- rewrite (ltb_irrefl hi). reflexivity.
      * rewrite Evl, Ehv. reflexivity.
  - destruct (PrimFloat.ltb v lo) eqn:Evl.
    + rewrite (ltb_irrefl lo). reflexivity.
    + rewrite Evl. reflexivity.
  - destruct (PrimFloat.ltb hi v) eqn:Ehv.
    + rewrite (ltb_irrefl hi). reflexivity.
    + rewrite Ehv. reflexivity.
  - reflexivity.
Qed.

Lemma clamp_value_within (c : ParameterConstraints) (v : float) :
  within_bounds c v = true -> clamp_value c v = v.
Proof.
  unfold clamp_value, within_bounds, py_max, py_min.
  destruct (min_value c) as [lo|], (max_value c) as [hi|]; simpl.
  - intros [E1 E2]%andb_prop. apply negb_true_iff in E1, E2. rewrite E1, E2. reflexivity.
  - rewrite andb_true_r. intros E1%negb_true_iff. rewrite E1. reflexivity.
  - intros E2%negb_true_iff. rewrite E2. reflexivity.
  - reflexivity.
Qed.

(** X1. Clamping is idempotent, for every float (NaN and the infinities
    too) and every pair of bounds, crossed or not: on a constraints
    object, and through the dict as [set_parameter_value] applies it. *)
Theorem clamp_value_idempotent (h : heap) (cp : CameraParameters) (name : string)
  (c : ParameterConstraints) (v : float) :
  clamp_value c (clamp_value c v) = clamp_value c v
  /\ constrain h cp name (constrain h cp name v) = constrain h cp name v.
Proof.
  split; [apply clamp_value_twice|].
  unfold constrain. destruct (_constraints cp !! name) as [r|]; [|reflexivity].
  apply clamp_value_twice.
Qed.

(** X2. The clamped value is never above the maximum, and never below
    the minimum unless the maximum is below the minimum; a value within
    the bounds is returned as it is. *)
Theorem clamp_value_bounds (c : ParameterConstraints) (v : float) :
  (forall hi, max_value c = Some hi -> PrimFloat.ltb hi (clamp_value c v) = false)
  /\ (forall lo, min_value c = Some lo ->
        (forall hi, max_value c = Some hi -> PrimFloat.ltb hi lo = false) ->
        PrimFloat.ltb (clamp_value c v) lo = false)
  /\ (within_bounds c v = true -> clamp_value c v = v).
Proof.
  split; [|split]; [unfold clamp_value, py_max, py_min ..|].
  - intros hi ->. destruct (min_value c) as [lo|].
    + destruct (PrimFloat.ltb v lo).
      * destruct (PrimFloat.ltb hi lo) eqn:E; [apply ltb_irrefl | exact E].
      * destruct (PrimFloat.ltb hi v) eqn:E; [apply ltb_irrefl | exact E].
    + destruct (PrimFloat.ltb hi v) eqn:E; [apply ltb_irrefl | exact E].
  - intros lo -> Hcross. destruct (max_value c) as [hi|].
    + specialize (Hcross hi eq_refl).
      destruct (PrimFloat.ltb v lo) eqn:Evl.
      * rewrite Hcross. apply ltb_irrefl.
      * destruct (PrimFloat.ltb hi v) eqn:Ehv; [exact Hcross | exact Evl].
    + destruct (PrimFloat.ltb v lo) eqn:Evl; [apply ltb_irrefl | exact Evl].
  - intros Hin. apply (clamp_value_within c v). exact Hin.
Qed.

(** ** The parameter vector and the parameter set *)

(** Writing a canonical parameter its own value, when clamping leaves
    that value alone, changes nothing. *)
Lemma set_parameter_value_same (h : heap) (cp : CameraParameters) (name : string) :
  In name param_names ->
  constrain h cp name (value_of cp name) = value_of cp name ->
  set_parameter_value h cp name (value_of cp name) = Ok cp.
Proof.
  intros Hin Hc. unfold set_parameter_value. rewrite Hc. clear Hc.
  destruct cp as [n sh tr [[tx ty] tz] [[rx ry] rz] f ox oy ah av d].
  canonical_cases Hin; reflexivity.
Qed.

Lemma write_unlocked_same (h : heap) (cp : CameraParameters) (values : list float)
  (names : list string) :
  forall i : nat,
    (forall k name, names !! k = Some name ->
       In name param_names
       /\ values !! (i + k)%nat = Some (value_of cp name)
       /\ constrain h cp name (value_of cp name) = value_of cp name) ->
    write_unlocked h cp names i values = (Ok tt, cp).
Proof.
  induction names as [|n rest IH]; intros i Hall; [reflexivity|].
  destruct (Hall O n eq_refl) as (Hin & Hv & Hc).
  simpl. rewrite Nat.add_0_r in Hv. rewrite Hv.
  rewrite (set_parameter_value_same h cp n Hin Hc).
  apply IH. intros k name Hk.
  replace (S i + k)%nat with (i + S k)%nat by lia. apply (Hall (S k) name Hk).
Qed.

Lemma constrain_within (h : heap) (cp : CameraParameters) (name : string) (v : float) :
  within_bounds (get_constraints h cp name) v = true -> constrain h cp name v = v.
Proof.
  unfold constrain, get_constraints.
  destruct (_constraints cp !! name) as [r|]; [apply clamp_value_within | reflexivity].
Qed.

(** X3. Round trip: when every unlocked parameter holds a value within
    its bounds, writing back the vector that [get_parameter_vector]
    returns succeeds and leaves the parameter set exactly as it was. *)
Theorem set_get_parameter_vector_round_trip (h : heap) (cp : CameraParameters) :
  values_within_bounds h cp ->
  exists values,
    get_parameter_vector h cp = Ok values
    /\ set_parameter_vector h cp values = (Ok tt, cp).
Proof.
  intros Hwithin.
  exists (List.map (value_of cp) (get_unlocked_parameter_names h cp)).
  split; [apply get_parameter_vector_eq|].
  unfold set_parameter_vector, len. rewrite length_map, Z.eqb_refl. simpl.
  apply write_unlocked_same. intros k name Hk.
  assert (In name (get_unlocked_parameter_names h cp)) as Hin.
  { apply list_elem_of_In, list_elem_of_lookup. exists k. exact Hk. }
  split; [apply (In_unlocked h cp name), Hin|]. split.
  - simpl. change (List.map (value_of cp) (get_unlocked_parameter_names h cp))
      with (value_of cp <$> get_unlocked_parameter_names h cp).
    rewrite list_lookup_fmap, Hk. reflexivity.
  - apply constrain_within, Hwithin, Hin.
Qed.

Lemma map_eq_zip_with {A B C : Type} (f : A -> C) (g : A -> B -> C) (l : list A) :
  forall vs : list B,
    length vs = length l ->
    (forall k a, l !! k = Some a -> exists v, vs !! k = Some v /\ f a = g a v) ->
    List.map f l = zip_with g l vs.
Proof.
  induction l as [|a l IH]; intros vs Hlen Hall; [reflexivity|].
  destruct vs as [|v vs]; [discriminate|].
  destruct (Hall O a eq_refl) as (v' & [= <-] & Hfa).
  simpl. rewrite Hfa. f_equal. apply IH; [simpl in Hlen; lia|].
  intros k b Hk. apply (Hall (S k) b Hk).
Qed.

(** X4. Reading after writing: a vector of the right length that is
    written with [set_parameter_vector] is read back by
    [get_parameter_vector] with each entry clamped by the constraints of
    its parameter. *)
Theorem get_after_set_parameter_vector (h : heap) (cp : CameraParameters)
  (values : list float) :
  length values = length (get_unlocked_parameter_names h cp) ->
  exists cp',
    set_parameter_vector h cp values = (Ok tt, cp')
    /\ get_parameter_vector h cp' =
         Ok (zip_with (constrain h cp) (get_unlocked_parameter_names h cp) values).
Proof.
  intros Hlen.
  destruct (set_parameter_vector_ok h cp values Hlen) as (cp' & Hset & Hdict & Hvals & _).
  exists cp'. split; [exact Hset|].
  rewrite get_parameter_vector_eq, (unlocked_names_same_dict h cp cp' Hdict).
  f_equal. apply map_eq_zip_with; [exact Hlen|].
  intros k name Hk. destruct (Hvals k name Hk) as (v & Hv & Hget).
  exists v. split; [exact Hv|]. unfold value_of. rewrite Hget. reflexivity.
Qed.

Lemma example_values_within_bounds : values_within_bounds example_heap example_params.
Proof.
  intros name Hin. apply In_unlocked in Hin as [Hin _].
  canonical_cases Hin; vm_compute; reflexivity.
Qed.

Lemma set_get_parameter_vector_round_trip_witness :
  exists values,
    get_parameter_vector example_heap example_params = Ok values
    /\ set_parameter_vector example_heap example_params values = (Ok tt, example_params).
Proof.
  apply set_get_parameter_vector_round_trip, example_values_within_bounds.
Defined.

(** A focal length of 2000 and a film offset of -80 are read back as the
    bounds 1000 and -50. *)
Lemma get_after_set_parameter_vector_witness :
  exists cp',
    set_parameter_vector example_heap example_params [1; 2; 3; 4; 5; 6; 2000; -80; 9]
    = (Ok tt, cp')
    /\ get_parameter_vector example_heap cp' = Ok [1; 2; 3; 4; 5; 6; 1000; -50; 9].
Proof.
  destruct (get_after_set_parameter_vector example_heap example_params
              [1; 2; 3; 4; 5; 6; 2000; -80; 9] eq_refl) as (cp' & Hset & Hget).
  exists cp'. split; [exact Hset|]. rewrite Hget. vm_compute. reflexivity.
Defined.

(** Locking [translate_y] in the state [__init__] builds: nine entries
    before, eight after, one removed at one position of the three
    lists. *)
Lemma lock_parameter_unshared_witness :
  let h' := fst (lock_parameter example_heap example_params "translate_y" true) in
  let cp' := snd (lock_parameter example_heap example_params "translate_y" true) in
  get_unlocked_parameter_names h' cp' =
    [ "translate_x"; "translate_z"; "rotate_x"; "rotate_y"; "rotate_z";
      "focal_length"; "film_offset_x"; "film_offset_y" ]
  /\ exists va v vb la l lb ua u ub,
       get_parameter_vector example_heap example_params = Ok (va ++ v :: vb)%list
       /\ get_parameter_vector h' cp' = Ok (va ++ vb)%list
       /\ _get_parameter_bounds example_heap example_optimizer
          = ((la ++ l :: lb)%list, (ua ++ u :: ub)%list)
       /\ _get_parameter_bounds h' (with_objects example_optimizer cp' three_pairs)
          = ((la ++ lb)%list, (ua ++ ub)%list)
       /\ length la = length va /\ length ua = length va
       /\ length lb = length vb /\ length ub = length vb.
Proof.
  intros h' cp'. split; [vm_compute; reflexivity|].
  assert (unshared example_heap example_params "translate_y") as Hun.
  { intros other Hin Hne. canonical_cases Hin; first [congruence | vm_compute; discriminate]. }
  apply (lock_parameter_unshared example_heap example_params "translate_y"
           example_optimizer (with_objects example_optimizer cp' three_pairs) h' cp').
  - simpl; tauto.
  - reflexivity.
  - exact Hun.
  - subst h' cp'. destruct (lock_parameter _ _ _ _). reflexivity.
  - reflexivity.
  - reflexivity.
Defined.

(** ** Locks and constraints *)

Lemma unlocked_names_ext (h h' : heap) (cp cp' : CameraParameters) :
  (forall n, get_constraints h' cp' n = get_constraints h cp n) ->
  get_unlocked_parameter_names h' cp' = get_unlocked_parameter_names h cp.
Proof.
  intros Hext. unfold get_unlocked_parameter_names. apply List.filter_ext.
  intros n. unfold is_parameter_locked. rewrite Hext. reflexivity.
Qed.

(** X6. Locking a parameter and unlocking it again restores the state:
    the parameter is locked in between, and afterwards every parameter
    has the constraints it had, also those that share the object, so the
    unlocked names and the parameter vector are the ones before. *)
Theorem lock_then_unlock_restores (h : heap) (cp : CameraParameters) (name : string)
  (r : ref) :
  _constraints cp !! name = Some r ->
  is_locked (obj h r) = false ->
  let h1 := fst (lock_parameter h cp name true) in
  let cp1 := snd (lock_parameter h cp name true) in
  let h2 := fst (lock_parameter h1 cp1 name false) in
  let cp2 := snd (lock_parameter h1 cp1 name false) in
  is_parameter_locked h1 cp1 name = true
  /\ cp2 = cp
  /\ (forall n, get_constraints h2 cp2 n = get_constraints h cp n)
  /\ get_unlocked_parameter_names h2 cp2 = get_unlocked_parameter_names h cp
  /\ get_parameter_vector h2 cp2 = get_parameter_vector h cp.
Proof.
  intros Hentry Hunlocked h1 cp1 h2 cp2.
  assert (cp1 = cp) as Hcp1 by (subst cp1; unfold lock_parameter; rewrite Hentry; reflexivity).
  assert (cp2 = cp) as Hcp2.
  { subst cp2. rewrite Hcp1. unfold lock_parameter. rewrite Hentry. reflexivity. }
  assert (forall n, get_constraints h2 cp2 n = get_constraints h cp n) as Hext.
  { intros n. rewrite Hcp2. subst h2. rewrite Hcp1. subst h1.
    unfold lock_parameter, get_constraints. rewrite Hentry. simpl.
    destruct (_constraints cp !! n) as [r'|]; [|reflexivity]. simpl.
    destruct (Nat.eqb_spec r' r) as [->|Hne]; [|reflexivity].
    rewrite Nat.eqb_refl. simpl.
    destruct (obj h r) as [locked lo hi]. simpl in *. subst locked. reflexivity. }
  split; [|split; [exact Hcp2|split; [exact Hext|split]]].
  - subst cp1 h1. unfold is_parameter_locked, get_constraints, lock_parameter.
    rewrite Hentry. simpl. rewrite Hentry. simpl. rewrite Nat.eqb_refl. reflexivity.
  - apply unlocked_names_ext, Hext.
  - rewrite !get_parameter_vector_eq, (unlocked_names_ext h h2 cp cp2 Hext), Hcp2.
    reflexivity.
Qed.

(** In the configured state, where the three translations share one
    object: locking [translate_x] locks all three, unlocking it gives all
    eight unlocked parameters back. *)
Lemma lock_then_unlock_restores_witness :
  let '(h, cp) := configured_state in
  let h1 := fst (lock_parameter h cp "translate_x" true) in
  let cp1 := snd (lock_parameter h cp "translate_x" true) in
  let h2 := fst (lock_parameter h1 cp1 "translate_x" false) in
  let cp2 := snd (lock_parameter h1 cp1 "translate_x" false) in
  length (get_unlocked_parameter_names h cp) = 8%nat
  /\ length (get_unlocked_parameter_names h1 cp1) = 5%nat
  /\ get_unlocked_parameter_names h2 cp2 = get_unlocked_parameter_names h cp
  /\ get_parameter_vector h2 cp2 = get_parameter_vector h cp.
Proof.
  destruct configured_state as [h cp] eqn:E.
  assert (h = fst configured_state /\ cp = snd configured_state) as [-> ->]
    by (rewrite E; split; reflexivity).
  clear E. intros h1 cp1 h2 cp2.
  split; [vm_compute; reflexivity|]. split; [vm_compute; reflexivity|].
  destruct (lock_then_unlock_restores (fst configured_state) (snd configured_state)
              "translate_x" 9%nat) as (_ & _ & _ & Hnames & Hvector).
  - vm_compute. reflexivity.
  - vm_compute. reflexivity.
  - split; [exact Hnames | exact Hvector].
Defined.

Lemma get_parameter_value_unknown (cp : CameraParameters) (name : string) :
  ~ In name param_names -> get_parameter_value cp name = Raise (unknown_parameter name).
Proof.
  intros Hno. unfold get_parameter_value.
  repeat match goal with
         | |- context [String.eqb name ?lit] =>
             destruct (String.eqb_spec name lit) as [-> | _];
             [exfalso; apply Hno; simpl; tauto|]
         end.
  reflexivity.
Qed.

(** X7. [set_constraints] on a parameter of the canonical list stores the
    object under that name and re-clamps the current value: the value
    becomes its clamp, or stays when the two compare equal; the other
    parameters keep their values. On any other name it raises the
    [ValueError] "Unknown parameter", yet the dict has got the entry. *)
Theorem set_constraints_spec (h : heap) (cp : CameraParameters) (name : string) (r : ref) :
  (In name param_names ->
   exists cp',
     set_constraints h cp name r = (Ok tt, cp')
     /\ _constraints cp' = <[name := r]> (_constraints cp)
     /\ (get_parameter_value cp' name = Ok (clamp_value (obj h r) (value_of cp name))
         \/ (get_parameter_value cp' name = Ok (value_of cp name)
             /\ PrimFloat.eqb (clamp_value (obj h r) (value_of cp name)) (value_of cp name)
                = true))
     /\ (forall other, In other param_names -> other <> name ->
           get_parameter_value cp' other = get_parameter_value cp other))
  /\ (~ In name param_names ->
      exists cp',
        set_constraints h cp name r = (Raise (ValueError ("Unknown parameter: " ++ name)), cp')
        /\ _constraints cp' = <[name := r]> (_constraints cp)
        /\ (forall n, get_parameter_value cp' n = get_parameter_value cp n)).
Proof.
  set (cp1 := set_constraints_dict cp (<[name := r]> (_constraints cp))).
  assert (forall n, get_parameter_value cp1 n = get_parameter_value cp n) as Hsame
    by reflexivity.
  split.
  - intros Hin. unfold set_constraints. fold cp1. rewrite Hsame.
    destruct (get_parameter_value_known cp name Hin) as [v Hv]. rewrite Hv.
    assert (value_of cp name = v) as -> by (unfold value_of; rewrite Hv; reflexivity).
    destruct (PrimFloat.eqb (clamp_value (obj h r) v) v) eqn:Eeq; simpl.
    + exists cp1. split; [reflexivity|]. split; [reflexivity|]. split.
      * right. split; [rewrite Hsame; exact Hv | reflexivity].
      * intros other _ _. apply Hsame.
    + destruct (set_parameter_value_known h cp1 name (clamp_value (obj h r) v) Hin)
        as (cp2 & Hset & Hdict & Hget & Hframe).
      rewrite Hset. exists cp2. split; [reflexivity|]. split; [exact Hdict|]. split.
      * left. rewrite Hget. unfold constrain. simpl. rewrite lookup_insert_eq.
        rewrite clamp_value_twice. reflexivity.
      * intros other Ho Hne. rewrite (Hframe other Ho Hne). apply Hsame.
  - intros Hno. unfold set_constraints. fold cp1. rewrite Hsame.
    rewrite (get_parameter_value_unknown cp name Hno).
    exists cp1. split; [reflexivity|]. split; [reflexivity | exact Hsame].
Qed.

(** A new object with the bounds [-10, 10] for [focal_length], whose
    value is 35: the value becomes 10. The same object for the unknown
    name ["zoom"]: the call raises, and ["zoom"] is in the dict. *)
Lemma set_constraints_spec_witness :
  let '(r, h) := alloc example_heap (mk_constraints false (Some (-10)) (Some 10)) in
  (exists cp',
     set_constraints h example_params "focal_length" r = (Ok tt, cp')
     /\ get_parameter_value cp' "focal_length" = Ok 10)
  /\ (exists cp',
        set_constraints h example_params "zoom" r
        = (Raise (ValueError "Unknown parameter: zoom"), cp')
        /\ _constraints cp' !! "zoom" = Some r).
Proof.
  destruct (alloc example_heap _) as [r h] eqn:E.
  assert (r = 9%nat /\ h = snd (alloc example_heap (mk_constraints false (Some (-10)) (Some 10))))
    as [-> ->] by (injection E as <- <-; split; reflexivity).
  clear E.
  set (h := snd (alloc example_heap (mk_constraints false (Some (-10)) (Some 10)))).
  destruct (set_constraints_spec h example_params "focal_length" 9%nat) as [Hknown _].
  destruct (set_constraints_spec h example_params "zoom" 9%nat) as [_ Hunknown].
  split.
  - destruct (Hknown ltac:(simpl; tauto)) as (cp' & Hset & _ & [Hget | [_ Heq]] & _).
    + exists cp'. split; [exact Hset|]. rewrite Hget. vm_compute. reflexivity.
    + vm_compute in Heq. discriminate.
  - destruct Hunknown as (cp' & Hset & Hdict & _).
    + simpl. intros Hin. repeat destruct Hin as [Hin | Hin]; try discriminate. exact Hin.
    + exists cp'. split; [exact Hset|]. rewrite Hdict. apply lookup_insert_eq.
Defined.

(** X8. The parameter vector and the two bound lists are aligned: they
    have one entry per unlocked name, and the entries at a position are
    the value, the lower and the upper bound of the unlocked name at that
    position, an absent bound being an infinity. *)
Theorem bounds_align_with_vector (h : heap) (self : CameraOptimizer) :
  let cp := camera_params self in
  let names := get_unlocked_parameter_names h cp in
  exists values,
    get_parameter_vector h cp = Ok values
    /\ length values = length names
    /\ length (fst (_get_parameter_bounds h self)) = length names
    /\ length (snd (_get_parameter_bounds h self)) = length names
    /\ forall k name, names !! k = Some name ->
         get_parameter_value cp name = Ok (value_of cp name)
         /\ values !! k = Some (value_of cp name)
         /\ fst (_get_parameter_bounds h self) !! k
            = Some (default neg_infinity (min_value (get_constraints h cp name)))
         /\ snd (_get_parameter_bounds h self) !! k
            = Some (default infinity (max_value (get_constraints h cp name))).
Proof.
  intros cp names.
  exists (List.map (value_of cp) names).
  split; [apply get_parameter_vector_eq|].
  unfold _get_parameter_bounds. fold cp. fold names. simpl.
  rewrite !length_map. repeat split.
  - assert (In name names) as Hin
      by (apply list_elem_of_In, list_elem_of_lookup; exists k; exact H).
    apply In_unlocked in Hin as [Hin _].
    destruct (get_parameter_value_known cp name Hin) as [v Hv].
    unfold value_of. rewrite Hv. reflexivity.
  - change (List.map (value_of cp) names) with (value_of cp <$> names).
    rewrite list_lookup_fmap, H. reflexivity.
  - match goal with
    | |- List.map ?f names !! k = _ => change (List.map f names) with (f <$> names)
    end.
    rewrite list_lookup_fmap, H. simpl.
    destruct (min_value (get_constraints h cp name)); reflexivity.
  - match goal with
    | |- List.map ?f names !! k = _ => change (List.map f names) with (f <$> names)
    end.
    rewrite list_lookup_fmap, H. simpl.
    destruct (max_value (get_constraints h cp name)); reflexivity.
Qed.

(** ** Writing the camera *)

Lemma cmds_writes_done (s : scene) (ws : list maya_write) :
  (exists rest, ws = (snd (cmds_writes s ws) ++ rest)%list)
  /\ (is_ok (fst (cmds_writes s ws)) = true <-> snd (cmds_writes s ws) = ws).
Proof.
  induction ws as [|w ws [[rest Hrest] Hok]]; simpl.
  - split; [exists []; reflexivity | split; reflexivity].
  - destruct (cmds_write s w) as [u|e].
    + destruct (cmds_writes s ws) as [r done]. simpl in *. split.
      * exists rest. rewrite <- Hrest. reflexivity.
      * rewrite Hok. split; [intros ->; reflexivity | intros [= E]; exact E].
    + simpl. split; [exists (w :: ws); reflexivity | split; discriminate].
Qed.

(** X9. [apply_to_maya] issues no command when the camera named at
    construction does not exist and raises the [RuntimeError] saying so.
    In every case the commands it issued are the first ones of the five
    (translation, rotation, focal length, the two film offsets divided by
    25.4), in that order, and it returns exactly when all five were
    issued: a failure half way leaves the camera partly written. *)
Theorem apply_to_maya_spec (s : scene) (cp : CameraParameters) :
  let five :=
    [ XformTranslation (_camera_transform cp) (_translation cp);
      XformRotation (_camera_transform cp) (_rotation cp);
      SetAttr (_camera_shape cp ++ ".focalLength") (_focal_length cp);
      SetAttr (_camera_shape cp ++ ".horizontalFilmOffset") (_film_offset_x cp / 25.4);
      SetAttr (_camera_shape cp ++ ".verticalFilmOffset") (_film_offset_y cp / 25.4) ] in
  (cmds_objExists s (camera_name cp) = false ->
   apply_to_maya s cp
   = (Raise (RuntimeError ("Camera '" ++ camera_name cp ++ "' does not exist in scene")), []))
  /\ (exists rest, five = (snd (apply_to_maya s cp) ++ rest)%list)
  /\ (is_ok (fst (apply_to_maya s cp)) = true <-> snd (apply_to_maya s cp) = five).
Proof.
  intros five. unfold apply_to_maya. fold five.
  destruct (cmds_objExists s (camera_name cp)); cbn [negb].
  - split; [discriminate|]. apply cmds_writes_done.
  - split; [reflexivity|]. split; [exists five; reflexivity | split; discriminate].
Qed.

(** A camera whose shape has lost its attributes: the transform is
    written, then the call raises. *)
Lemma apply_to_maya_spec_witness :
  let s := mk_scene (nodes camera_scene) ∅ in
  snd (apply_to_maya s example_params)
  = [ XformTranslation "camera1" (0, 0, 0); XformRotation "camera1" (0, 0, 0) ]
  /\ is_ok (fst (apply_to_maya s example_params)) = false
  /\ apply_to_maya (mk_scene ∅ ∅) example_params
     = (Raise (RuntimeError "Camera 'camera1' does not exist in scene"), []).
Proof.
  intros s. split; [vm_compute; reflexivity|]. split; [vm_compute; reflexivity|].
  destruct (apply_to_maya_spec (mk_scene ∅ ∅) example_params) as (Hmissing & _).
  apply Hmissing. reflexivity.
Defined.

(** ** Construction *)

(** The dict literal of [__init__]: each name gets an object of its own,
    at the next references of the heap. *)
Lemma build_constraints_spec (l : list (string * ParameterConstraints)) :
  forall (h : heap) (d : gmap string ref),
    NoDup (List.map fst l) ->
    forall d' h', build_constraints h l d = (d', h') ->
      (forall i k c, l !! i = Some (k, c) ->
         d' !! k = Some (next_ref h + i)%nat /\ obj h' (next_ref h + i)%nat = c)
      /\ (forall k, ~ In k (List.map fst l) -> d' !! k = d !! k)
      /\ (forall r, (r < next_ref h)%nat -> obj h' r = obj h r).
Proof.
  induction l as [|[k c] rest IH]; intros h d Hnd d' h' Hbuild; simpl in *.
  - injection Hbuild as <- <-. split; [|split; reflexivity].
    intros i k c Hi. rewrite lookup_nil in Hi. discriminate.
  - apply NoDup_cons in Hnd as [Hnotin Hnd].
    destruct (IH _ _ Hnd d' h' Hbuild) as (Hat & Hother & Hold). simpl in *.
    split; [|split].
    + intros [|i] k' c' Hi; simpl in Hi.
      * injection Hi as <- <-. rewrite Nat.add_0_r. split.
        -- rewrite Hother by (intros Hin; apply Hnotin, list_elem_of_In, Hin).
           apply lookup_insert_eq.
        -- rewrite Hold by lia. simpl. rewrite Nat.eqb_refl. reflexivity.
      * replace (next_ref h + S i)%nat with (S (next_ref h) + i)%nat by lia.
        apply (Hat i k' c' Hi).
    + intros k' Hno. rewrite Hother by tauto. apply lookup_insert_ne. tauto.
    + intros r Hr. rewrite Hold by lia. simpl.
      destruct (Nat.eqb_spec r (next_ref h)); [lia | reflexivity].
Qed.

Lemma _update_from_maya_keeps (s : scene) (cp cp' : CameraParameters) :
  _update_from_maya s cp = Ok cp' ->
  _constraints cp' = _constraints cp /\ camera_name cp' = camera_name cp.
Proof.
  unfold _update_from_maya.
  destruct (negb (cmds_objExists s (camera_name cp))); [discriminate|].
  destruct (cmds_nodeType s (camera_name cp)) as [ty|e]; [simpl|discriminate].
  match goal with
  | |- bind ?resolved _ = _ -> _ => destruct resolved as [[shape transform]|e]
  end; [simpl|discriminate].
  repeat match goal with
         | |- bind ?read _ = _ -> _ => destruct read; [simpl|discriminate]
         end.
  intros [= <-]. split; reflexivity.
Qed.

(** X10. A [CameraParameters] object that [__init__] has built, on any
    heap: every parameter of the canonical list is unlocked, has the
    constraints of the dict literal (the bounds [1, 1000] for the focal
    length, [-50, 50] for the film offsets, none for the others), and has
    a constraints object that no other parameter refers to. *)
Theorem CameraParameters_init_fresh (s : scene) (h h' : heap) (name : string)
  (cp : CameraParameters) :
  CameraParameters_init s h name = (Ok cp, h') ->
  camera_name cp = name
  /\ get_unlocked_parameter_names h' cp = param_names
  /\ (forall n c, In (n, c) initial_constraints -> get_constraints h' cp n = c)
  /\ (forall n, In n param_names -> unshared h' cp n).
Proof.
  unfold CameraParameters_init.
  destruct (build_constraints h initial_constraints ∅) as [d h1] eqn:Hbuild.
  intros [= Hupdate <-].
  destruct (_update_from_maya_keeps s _ cp Hupdate) as [Hdict Hname]. simpl in Hdict, Hname.
  destruct (build_constraints_spec initial_constraints h ∅ NoDup_param_names d h1 Hbuild)
    as (Hat & _ & _).
  assert (forall n c, In (n, c) initial_constraints ->
            exists i, initial_constraints !! i = Some (n, c)
                      /\ _constraints cp !! n = Some (next_ref h + i)%nat
                      /\ get_constraints h1 cp n = c) as Hentry.
  { intros n c Hin. apply list_elem_of_In, list_elem_of_lookup in Hin as [i Hi].
    exists i. destruct (Hat i n c Hi) as [Hd Ho].
    split; [exact Hi|]. rewrite Hdict. split; [exact Hd|].
    unfold get_constraints. rewrite Hdict. unfold ref in *. rewrite Hd. exact Ho. }
  assert (forall n, In n param_names -> exists c, In (n, c) initial_constraints) as Hhas.
  { intros n Hin. change param_names with (List.map fst initial_constraints) in Hin.
    apply List.in_map_iff in Hin as [[n' c] [<- Hin]]. exists c. exact Hin. }
  split; [exact Hname|]. split; [|split].
  - unfold get_unlocked_parameter_names.
    rewrite (List.filter_ext_in _ (fun _ => true)); [apply List.filter_true|].
    intros n Hin. destruct (Hhas n Hin) as [c Hc].
    destruct (Hentry n c Hc) as (i & _ & _ & Hget).
    unfold is_parameter_locked. rewrite Hget. clear - Hc.
    simpl in Hc.
    repeat match type of Hc with
           | _ \/ _ => destruct Hc as [Hc | Hc]
           end; try (injection Hc as _ <-; reflexivity). contradiction.
  - intros n c Hin. destruct (Hentry n c Hin) as (i & _ & _ & Hget). exact Hget.
  - intros n Hin other Ho Hne.
    destruct (Hhas n Hin) as [c Hc]. destruct (Hhas other Ho) as [c' Hc'].
    destruct (Hentry n c Hc) as (i & Hi & Hd & _).
    destruct (Hentry other c' Hc') as (j & Hj & Hd' & _).
    unfold lock_target. unfold ref in *. rewrite Hd, Hd'. intros [= E].
    assert (i = j) as -> by lia. rewrite Hi in Hj. injection Hj as -> _.
    apply Hne. reflexivity.
Qed.

Lemma CameraParameters_init_fresh_witness :
  get_unlocked_parameter_names example_heap example_params = param_names
  /\ get_constraints example_heap example_params "focal_length"
     = mk_constraints false (Some 1) (Some 1000)
  /\ unshared example_heap example_params "translate_x".
Proof.
  destruct (CameraParameters_init_fresh camera_scene empty_heap example_heap "camera1"
              example_params camera1_params_eq) as (_ & Hnames & Hget & Hun).
  split; [exact Hnames|]. split.
  - apply Hget. simpl. tauto.
  - apply Hun. simpl. tauto.
Defined.

(** X11. A camera may be named by its transform or by its shape: when
    the first camera shape of the transform is the shape and the first
    transform parent of the shape is the transform, the two constructions
    read the same camera: both succeed with the same shape, transform,
    values and constraints, or both raise the same exception. *)
Theorem init_by_shape_or_transform (s : scene) (h : heap) (transform shape : string)
  (nt ns : node) (more_shapes more_parents : list string) :
  nodes s !! transform = Some nt ->
  String.eqb (node_type nt) "camera" = false ->
  camera_shapes nt = shape :: more_shapes ->
  nodes s !! shape = Some ns ->
  node_type ns = "camera" ->
  transform_parents ns = transform :: more_parents ->
  match fst (CameraParameters_init s h shape), fst (CameraParameters_init s h transform) with
  | Ok a, Ok b =>
      camera_name a = shape /\ camera_name b = transform
      /\ _camera_shape a = shape /\ _camera_transform a = transform
      /\ same_camera a b
  | Raise e1, Raise e2 => e1 = e2
  | _, _ => False
  end.
Proof.
  intros Ht Htype Hshapes Hs Hstype Hparents.
  unfold CameraParameters_init.
  destruct (build_constraints h initial_constraints ∅) as [d h1]. simpl fst.
  unfold _update_from_maya, cmds_objExists, cmds_nodeType, cmds_listRelatives_parent,
    cmds_listRelatives_shapes, cmds_node.
  cbn [camera_name]. rewrite Ht, Hs.
  rewrite !bool_decide_eq_true_2 by eauto.
  cbn [negb bind]. rewrite Htype, Hstype, Hshapes, Hparents. cbn [String.eqb Ascii.eqb Bool.eqb bind].
  repeat match goal with
         | |- context [bind ?read _] =>
             destruct read; cbn [bind]; [|reflexivity]
         end.
  unfold same_camera. cbn. repeat split.
Qed.

Lemma init_by_shape_or_transform_witness :
  match fst (CameraParameters_init camera_scene empty_heap "cameraShape1"),
        fst (CameraParameters_init camera_scene empty_heap "camera1") with
  | Ok a, Ok b =>
      camera_name a = "cameraShape1" /\ camera_name b = "camera1"
      /\ _camera_shape a = "cameraShape1" /\ _camera_transform a = "camera1"
      /\ same_camera a b
  | Raise e1, Raise e2 => e1 = e2
  | _, _ => False
  end.
Proof.
  apply (init_by_shape_or_transform camera_scene empty_heap "camera1" "cameraShape1"
           (transform_node ["cameraShape1"] (0, 0, 0) identity_matrix)
           (camera_shape_node "camera1") [] []); reflexivity.
Defined.

(** ** Locator pairs *)

Section Pairs.
Context `{OpenMaya} `{Libm}.

(** X12. [delete_locator] returns, issues the one command that deletes
    the locator when the locator exists and none otherwise, and latches
    the pair: [is_valid] is false after every later session, in every
    scene. [update_locator_position] on a missing locator issues no
    command and latches the pair as well. *)
Theorem delete_locator_latches (s0 : scene) (p : LocatorPair) (world_pos : vec3)
  (session : list (scene * call)) (s : scene) :
  (fst (fst (delete_locator s0 p)) = Ok tt
   /\ snd (delete_locator s0 p)
      = (if cmds_objExists s0 (locator_name p) then [Delete (locator_name p)] else [])
   /\ is_valid s (after_calls session (snd (fst (delete_locator s0 p)))) = false)
  /\ (cmds_objExists s0 (locator_name p) = false ->
      is_ok (fst (fst (update_locator_position s0 p world_pos))) = false
      /\ snd (update_locator_position s0 p world_pos) = []
      /\ is_valid s (after_calls session
                       (snd (fst (update_locator_position s0 p world_pos)))) = false).
Proof.
  split.
  - unfold delete_locator. simpl.
    destruct (cmds_objExists s0 (locator_name p)) eqn:E; simpl;
      (split; [reflexivity|]; split; [reflexivity|]);
      apply is_valid_latched, after_calls_latched; reflexivity.
  - intros E. unfold update_locator_position. rewrite E. simpl.
    split; [reflexivity|]. split; [reflexivity|].
    apply is_valid_latched, after_calls_latched. reflexivity.
Qed.

(** X13. The queries that stop at the validity check do not latch: a
    pair that is asked [is_valid], [get_projected_coords] or
    [get_reprojection_error] while its locator is missing is left as it
    was, so a pair that was valid is valid again in a scene where the
    name exists. *)
Theorem missing_locator_queries_do_not_latch (s0 s1 : scene) (p : LocatorPair)
  (camera : string) (w ht : Z) (c : call) :
  In c [ Call_is_valid; Call_get_projected_coords camera;
         Call_get_reprojection_error camera w ht ] ->
  _is_valid p = true ->
  cmds_objExists s0 (locator_name p) = false ->
  cmds_objExists s1 (locator_name p) = true ->
  is_valid s0 p = false
  /\ after_call s0 c p = p
  /\ is_valid s1 (after_call s0 c p) = true.
Proof.
  intros Hc Hflag Hgone Hback.
  assert (is_valid s0 p = false) as Hinvalid
    by (unfold is_valid; rewrite Hflag, Hgone; reflexivity).
  assert (snd (get_projected_coords s0 p camera) = p) as Hproj.
  { unfold get_projected_coords.
    destruct (negb (cmds_objExists s0 camera)); [reflexivity|].
    rewrite Hinvalid. reflexivity. }
  assert (after_call s0 c p = p) as Hsame.
  { destruct Hc as [<- | [<- | [<- | []]]]; simpl.
    - reflexivity.
    - exact Hproj.
    - unfold get_reprojection_error.
      destruct (get_projected_coords s0 p camera) as [r p']. simpl in *. exact Hproj. }
  split; [exact Hinvalid|]. split; [exact Hsame|].
  rewrite Hsame. unfold is_valid. rewrite Hflag, Hback. reflexivity.
Qed.

(** X14. [get_projected_coords] raises [RuntimeError] and nothing else:
    for a missing camera and for a pair that is not valid with the
    message that says so, and for whatever goes wrong in its reads or in
    the projection with "Failed to project locator ..." around the
    message of the cause. *)
Theorem get_projected_coords_errors (s : scene) (p : LocatorPair) (camera : string) (e : exn) :
  fst (get_projected_coords s p camera) = Raise e ->
  (cmds_objExists s camera = false
   /\ e = RuntimeError ("Camera '" ++ camera ++ "' does not exist in scene"))
  \/ (cmds_objExists s camera = true /\ is_valid s p = false
      /\ e = RuntimeError ("Locator '" ++ locator_name p ++ "' is not valid"))
  \/ (cmds_objExists s camera = true /\ is_valid s p = true
      /\ exists cause,
           e = RuntimeError ("Failed to project locator '" ++ locator_name p
                              ++ "': " ++ str cause)).
Proof.
  unfold get_projected_coords.
  destruct (cmds_objExists s camera); simpl.
  - destruct (is_valid s p); simpl.
    + destruct (world_position s p) as [wp p']. simpl.
      destruct (bind _ _) as [ndc|cause]; simpl; [discriminate|].
      intros [= <-]. right. right. repeat split. exists cause. reflexivity.
    + intros [= <-]. right. left. repeat split.
  - intros [= <-]. left. split; reflexivity.
Qed.

(** X15. The two projections agree away from the degenerate case: on
    what [get_projected_coords] has read, with a point whose camera-space
    Z is not below 1e-6 in magnitude, its projection is the result of
    [project_point] on the same point, matrix, focal length, film back
    and film offsets. *)
Theorem project_point_agrees (i : projection_inputs) :
  length (in_camera_matrix i) = 16%nat ->
  PrimFloat.ltb (abs (pz (camera_space_point i))) 1e-6 = false ->
  project_inputs i
  = project_point (in_world_pos i) (in_camera_matrix i) (in_focal_length i)
      (in_h_aperture i) (in_v_aperture i) (in_h_offset i) (in_v_offset i).
Proof.
  intros Hlen Hfar. unfold project_inputs, project_point, MMatrix.
  rewrite Hlen. cbn [Nat.eqb bind]. fold (camera_space_point i).
  rewrite Hfar. reflexivity.
Qed.

End Pairs.

Lemma missing_locator_queries_do_not_latch_witness :
  is_valid camera_scene centre_pair = false
  /\ is_valid axis_scene
       (@after_call example_OpenMaya example_Libm camera_scene
          (Call_get_reprojection_error "camera1" 1920 1080) centre_pair) = true.
Proof.
  destruct (@missing_locator_queries_do_not_latch example_OpenMaya example_Libm
              camera_scene axis_scene
              centre_pair "camera1" 1920 1080
              (Call_get_reprojection_error "camera1" 1920 1080))
    as (Hinvalid & _ & Hvalid).
  - simpl. tauto.
  - reflexivity.
  - reflexivity.
  - reflexivity.
  - split; assumption.
Defined.

Lemma get_projected_coords_errors_witness :
  fst (@get_projected_coords example_OpenMaya camera_scene centre_pair "camera1")
  = Raise (RuntimeError "Locator 'cam_match_loc_001' is not valid").
Proof.
  destruct (@get_projected_coords_errors example_OpenMaya camera_scene centre_pair "camera1"
              (RuntimeError "Locator 'cam_match_loc_001' is not valid") eq_refl)
    as [[Hcam _] | [(_ & _ & He) | (_ & Hvalid & _)]].
  - discriminate Hcam.
  - reflexivity.
  - discriminate Hvalid.
Defined.

(** The locator one unit off the axis: both projections give the same
    NDC pair. *)
Lemma project_point_agrees_witness :
  @project_inputs example_OpenMaya (camera1_inputs (1, 0, -10))
  = @project_point example_OpenMaya (1, 0, -10) identity_matrix 35
      (36 / 25.4 * 25.4) (24 / 25.4 * 25.4) (0 * 25.4) (0 * 25.4)
  /\ is_ok (@project_inputs example_OpenMaya (camera1_inputs (1, 0, -10))) = true.
Proof.
  split; [|reflexivity].
  apply (@project_point_agrees example_OpenMaya (camera1_inputs (1, 0, -10))); reflexivity.
Defined.

(** ** Residuals *)

(** No write of a value touches the names of the camera. *)
Lemma set_parameter_value_names (h : heap) (cp cp' : CameraParameters)
  (name : string) (v : float) :
  set_parameter_value h cp name v = Ok cp' -> camera_transform cp' = camera_transform cp.
Proof.
  unfold set_parameter_value.
  repeat match goal with
         | |- context [String.eqb name ?lit] => destruct (String.eqb name lit)
         end;
    intros [= <-]; reflexivity.
Qed.

Lemma write_unlocked_names (h : heap) (names : list string) :
  forall (i : nat) (values : list float) (cp : CameraParameters),
    camera_transform (snd (write_unlocked h cp names i values)) = camera_transform cp.
Proof.
  induction names as [|n rest IH]; intros i values cp; [reflexivity|].
  simpl. destruct (values !! i) as [v|]; [|reflexivity].
  destruct (set_parameter_value h cp n v) as [cp1|e] eqn:E; [|reflexivity].
  rewrite IH. apply (set_parameter_value_names h cp cp1 n v E).
Qed.

Lemma set_parameter_vector_names (h : heap) (cp : CameraParameters) (values : list float) :
  camera_transform (snd (set_parameter_vector h cp values)) = camera_transform cp.
Proof.
  unfold set_parameter_vector.
  destruct (negb _); [reflexivity | apply write_unlocked_names].
Qed.

Section Residuals.
Context `{OpenMaya}.

Lemma pair_residuals_length (projected : res vec2) (p : LocatorPair) (w h : Z) :
  length (pair_residuals projected p w h) = 2%nat.
Proof.
  unfold pair_residuals, proj_pixel_x, proj_pixel_y.
  destruct projected as [ndc|e]; simpl; [|reflexivity].
  destruct (float_of_int w); simpl; [|reflexivity].
  destruct (float_of_int h); reflexivity.
Qed.

Lemma residuals_loop_flat_map (s : scene) (camera : string) (w h : Z)
  (pairs : list LocatorPair) :
  fst (residuals_loop s camera w h pairs)
  = flat_map (fun p => pair_residuals (fst (get_projected_coords s p camera)) p w h)
      (valid_pairs s pairs).
Proof.
  induction pairs as [|p rest IH]; [reflexivity|].
  simpl. unfold valid_pairs in *. simpl.
  destruct (is_valid s p); simpl.
  - destruct (get_projected_coords s p camera) as [r p'].
    destruct (residuals_loop s camera w h rest) as [rs ps]. simpl in *.
    rewrite IH. reflexivity.
  - destruct (residuals_loop s camera w h rest) as [rs ps]. exact IH.
Qed.

(** X16. The residual array of [_objective_function], when it returns:
    the pairs that are not valid contribute nothing, each valid pair
    contributes two entries in the order of the list (its pixel residuals,
    or the penalty 1000.0, 1000.0 when its projection raises), so the
    array has twice as many entries as there are valid pairs. *)
Theorem _objective_function_residuals (h : heap) (s : scene)
  (self self' : CameraOptimizer) (x residuals : list float) :
  _objective_function h s self x = (Ok residuals, self') ->
  residuals
  = flat_map (fun p =>
                pair_residuals
                  (fst (get_projected_coords s p (camera_transform (camera_params self))))
                  p (image_width self) (image_height self))
      (valid_pairs s (locator_pairs self))
  /\ length residuals = (2 * length (valid_pairs s (locator_pairs self)))%nat
  /\ (forall p,
        In p (valid_pairs s (locator_pairs self)) ->
        is_ok (fst (get_projected_coords s p (camera_transform (camera_params self)))) = false ->
        pair_residuals
          (fst (get_projected_coords s p (camera_transform (camera_params self))))
          p (image_width self) (image_height self) = [1000.0; 1000.0]).
Proof.
  unfold _objective_function.
  pose proof (set_parameter_vector_names h (camera_params (record_objective self x)) x) as Hn.
  destruct (set_parameter_vector h _ x) as [[u|e] cp]; [|discriminate].
  simpl in Hn.
  pose proof (residuals_loop_flat_map s (camera_transform cp)
                (image_width (record_objective self x))
                (image_height (record_objective self x))
                (locator_pairs (record_objective self x))) as Hflat.
  destruct (residuals_loop s _ _ _ _) as [rs ps]. simpl in Hflat.
  intros [= <- <-]. rewrite Hn in Hflat.
  split; [exact Hflat|]. split.
  - rewrite Hflat. clear.
    induction (valid_pairs s (locator_pairs self)) as [|p l IH]; [reflexivity|].
    simpl. rewrite length_app, pair_residuals_length, IH. lia.
  - intros p _ Hfail.
    destruct (fst (get_projected_coords s p _)) as [ndc|e]; [discriminate | reflexivity].
Qed.

(** X17. The residuals do not depend on the parameter vector. The
    objective writes the vector into the [CameraParameters] object, but
    every projection reads the camera from the scene, which the objective
    never writes: two vectors of the right length give the same
    residuals. *)
Theorem residuals_ignore_parameter_vector (h : heap) (s : scene) (self : CameraOptimizer)
  (x x' : list float) :
  length x = length (get_unlocked_parameter_names h (camera_params self)) ->
  length x' = length (get_unlocked_parameter_names h (camera_params self)) ->
  exists residuals,
    fst (_objective_function h s self x) = Ok residuals
    /\ fst (_objective_function h s self x') = Ok residuals.
Proof.
  intros Hx Hx'.
  assert (forall y,
            length y = length (get_unlocked_parameter_names h (camera_params self)) ->
            fst (_objective_function h s self y)
            = Ok (fst (residuals_loop s (camera_transform (camera_params self))
                         (image_width self) (image_height self) (locator_pairs self))))
    as Hany.
  { intros y Hy. unfold _objective_function.
    pose proof (set_parameter_vector_names h (camera_params (record_objective self y)) y)
      as Hn.
    destruct (set_parameter_vector_ok h (camera_params self) y Hy) as (cp' & Hset & _).
    change (camera_params (record_objective self y)) with (camera_params self) in *.
    rewrite Hset in *. simpl in Hn. rewrite Hn.
    change (image_width (record_objective self y)) with (image_width self).
    change (image_height (record_objective self y)) with (image_height self).
    change (locator_pairs (record_objective self y)) with (locator_pairs self).
    destruct (residuals_loop s _ _ _ _) as [rs ps]. reflexivity. }
  eexists. split; [apply Hany, Hx | apply Hany, Hx'].
Qed.

End Residuals.

(** The three pairs seen from [camera1]: the same six residuals at the
    camera's own parameters and at parameters one unit away on every
    axis. *)
Lemma residuals_ignore_parameter_vector_witness :
  exists residuals,
    fst (@_objective_function example_OpenMaya example_heap three_scene example_optimizer
           [0; 0; 0; 0; 0; 0; 35; 0; 0]) = Ok residuals
    /\ fst (@_objective_function example_OpenMaya example_heap three_scene example_optimizer
              [1; 1; 1; 1; 1; 1; 36; 1; 1]) = Ok residuals
    /\ length residuals = 6%nat.
Proof.
  destruct (@residuals_ignore_parameter_vector example_OpenMaya example_heap three_scene
              example_optimizer [0; 0; 0; 0; 0; 0; 35; 0; 0] [1; 1; 1; 1; 1; 1; 36; 1; 1]
              eq_refl eq_refl) as (residuals & Hx & Hx').
  exists residuals. split; [exact Hx|]. split; [exact Hx'|].
  assert (Ok residuals = Ok (fst (@residuals_loop example_OpenMaya three_scene "camera1"
                                    1920 1080 three_pairs))) as E
    by (rewrite <- Hx; vm_compute; reflexivity).
  injection E as ->. vm_compute. reflexivity.
Defined.

(** One valid pair of the three in [axis_scene]: two residuals. *)
Lemma _objective_function_residuals_witness :
  exists residuals self',
    @_objective_function example_OpenMaya example_heap axis_scene example_optimizer
      [0; 0; 0; 0; 0; 0; 35; 0; 0] = (Ok residuals, self')
    /\ length residuals = 2%nat.
Proof.
  destruct (@_objective_function example_OpenMaya example_heap axis_scene example_optimizer
              [0; 0; 0; 0; 0; 0; 35; 0; 0]) as [[residuals|e] self'] eqn:E;
    [|vm_compute in E; discriminate].
  exists residuals, self'. split; [reflexivity|].
  destruct (@_objective_function_residuals example_OpenMaya example_heap axis_scene
              example_optimizer self' _ residuals E) as (_ & Hlen & _).
  rewrite Hlen. reflexivity.
Defined.

(** ** The outcomes of [optimize] *)

Section Outcomes.
Context `{OpenMaya} `{Numpy} `{Scipy}.

(** The ways [optimize] raises: one of its four entry checks, with the
    optimizer untouched, or the [RuntimeError] that wraps whatever the
    [try] block raised. *)
Lemma optimize_raise_cases (h : heap) (s : scene) (self self' : CameraOptimizer)
  (method_arg : option string) (e : exn) :
  optimize h s self method_arg = (Raise e, self') ->
  (self' = self
   /\ ((locator_pairs self = []
        /\ e = ValueError "No locator pairs available for optimization")
       \/ (locator_pairs self <> [] /\ valid_pairs s (locator_pairs self) = []
           /\ e = ValueError "No valid locator pairs available for optimization")
       \/ ((0 < len (valid_pairs s (locator_pairs self)) < 3)%Z
           /\ e = ValueError "At least 3 valid locator pairs are required for optimization")
       \/ ((3 <= len (valid_pairs s (locator_pairs self)))%Z
           /\ get_unlocked_parameter_names h (camera_params self) = []
           /\ e = ValueError "No unlocked parameters available for optimization")))
  \/ ((3 <= len (valid_pairs s (locator_pairs self)))%Z
      /\ get_unlocked_parameter_names h (camera_params self) <> []
      /\ exists cause, e = RuntimeError ("Optimization failed: " ++ str cause)).
Proof.
  unfold optimize. rewrite get_parameter_vector_eq.
  destruct (locator_pairs self) as [|p ps] eqn:Epairs.
  { intros [= <- <-]. left. split; [reflexivity|]. left. split; reflexivity. }
  destruct (valid_pairs s (p :: ps)) as [|v vs] eqn:Evalid.
  { intros [= <- <-]. left. split; [reflexivity|]. right. left.
    split; [discriminate|]. split; reflexivity. }
  destruct (Z.ltb_spec (len (v :: vs)) 3) as [Hfew|Hmany].
  { intros [= <- <-]. left. split; [reflexivity|]. right. right. left.
    split; [|reflexivity]. unfold len in *. simpl length in *. lia. }
  unfold len at 1. rewrite length_map.
  destruct (get_unlocked_parameter_names h (camera_params self)) as [|n ns] eqn:Enames.
  { simpl. intros [= <- <-]. left. split; [reflexivity|]. right. right. right.
    split; [exact Hmany|]. split; reflexivity. }
  simpl Z.eqb. cbv iota.
  destruct (optimize_body h s _ _ _) as [[ok|cause] self1]; simpl; [discriminate|].
  intros [= <- <-]. right. split; [exact Hmany|]. split; [discriminate|].
  exists cause. reflexivity.
Qed.

(** X18. [optimize] raises in two ways only. A failed entry check (no
    pair, no valid pair, fewer than three valid pairs, no unlocked
    parameter) raises [ValueError] and leaves the optimizer, its
    parameters and its pairs exactly as they were. Anything raised later,
    by the solver, the objective or the final write, comes out as the
    [RuntimeError] "Optimization failed: ..." around the message of the
    cause. *)
Theorem optimize_errors (h : heap) (s : scene) (self self' : CameraOptimizer)
  (method_arg : option string) (e : exn) :
  optimize h s self method_arg = (Raise e, self') ->
  (exists msg,
     e = ValueError msg /\ self' = self
     /\ In msg [ "No locator pairs available for optimization";
                 "No valid locator pairs available for optimization";
                 "At least 3 valid locator pairs are required for optimization";
                 "No unlocked parameters available for optimization" ])
  \/ (exists cause, e = RuntimeError ("Optimization failed: " ++ str cause)).
Proof.
  intros Hopt.
  destruct (optimize_raise_cases h s self self' method_arg e Hopt)
    as [[Hsame [(_ & ->) | [(_ & _ & ->) | [(_ & ->) | (_ & _ & ->)]]]] | (_ & _ & Hwrap)].
  - left. eexists. split; [reflexivity|]. split; [exact Hsame|]. simpl. tauto.
  - left. eexists. split; [reflexivity|]. split; [exact Hsame|]. simpl. tauto.
  - left. eexists. split; [reflexivity|]. split; [exact Hsame|]. simpl. tauto.
  - left. eexists. split; [reflexivity|]. split; [exact Hsame|]. simpl. tauto.
  - right. exact Hwrap.
Qed.

Lemma validate_setup_true (h : heap) (s : scene) (self : CameraOptimizer) :
  fst (validate_setup h s self) = true ->
  (3 <= len (valid_pairs s (locator_pairs self)))%Z
  /\ get_unlocked_parameter_names h (camera_params self) <> []
  /\ (0 < image_width self)%Z /\ (0 < image_height self)%Z.
Proof.
  unfold validate_setup. simpl.
  destruct (locator_pairs self) as [|p ps]; [discriminate|].
  destruct (Z.ltb_spec (len (valid_pairs s (p :: ps))) 3) as [|Hmany]; [discriminate|].
  destruct (get_unlocked_parameter_names h (camera_params self)); [discriminate|].
  destruct (Z.leb_spec (image_width self) 0); [discriminate|].
  destruct (Z.leb_spec (image_height self) 0); [discriminate|].
  intros _. repeat split; try assumption. discriminate.
Qed.

(** X19. [validate_setup] answers [True] exactly when there are at least
    three valid pairs, an unlocked parameter and an image of positive
    width and height, then with the message "Setup is valid". After it
    answered [True], [optimize] in the same scene does not raise
    [ValueError]: it returns, or raises "Optimization failed: ...". *)
Theorem validate_setup_spec (h : heap) (s : scene) (self : CameraOptimizer) :
  (fst (validate_setup h s self) = true <->
   (3 <= len (valid_pairs s (locator_pairs self)))%Z
   /\ get_unlocked_parameter_names h (camera_params self) <> []
   /\ (0 < image_width self)%Z /\ (0 < image_height self)%Z)
  /\ (fst (validate_setup h s self) = true ->
      validate_setup h s self = (true, "Setup is valid")
      /\ forall method_arg e self',
           optimize h s self method_arg = (Raise e, self') ->
           exists cause, e = RuntimeError ("Optimization failed: " ++ str cause)).
Proof.
  split; [split; [apply validate_setup_true|]|].
  - intros (Hmany & Hnames & Hw & Hh). unfold validate_setup. simpl.
    destruct (locator_pairs self) as [|p ps] eqn:E; [unfold len in Hmany; simpl in Hmany; lia|].
    destruct (Z.ltb_spec (len (valid_pairs s (p :: ps))) 3); [lia|].
    destruct (get_unlocked_parameter_names h (camera_params self)); [congruence|].
    destruct (Z.leb_spec (image_width self) 0); [lia|].
    destruct (Z.leb_spec (image_height self) 0); [lia|]. reflexivity.
  - intros Hok. destruct (validate_setup_true h s self Hok) as (Hmany & Hnames & Hw & Hh).
    split.
    + revert Hok. unfold validate_setup. simpl.
      destruct (locator_pairs self) as [|p ps]; [discriminate|].
      destruct (Z.ltb _ 3); [discriminate|].
      destruct (get_unlocked_parameter_names h (camera_params self)); [discriminate|].
      destruct (_ || _); [discriminate | reflexivity].
    + intros method_arg e self' Hopt.
      destruct (optimize_raise_cases h s self self' method_arg e Hopt)
        as [[_ [(Hnone & _) | [(_ & Hnone & _) | [(Hfew & _) | (_ & Hnone & _)]]]]
           | (_ & _ & Hwrap)].
      * rewrite Hnone in Hmany. unfold len in Hmany. simpl in Hmany. lia.
      * rewrite Hnone in Hmany. unfold len in Hmany. simpl in Hmany. lia.
      * lia.
      * contradiction.
      * exact Hwrap.
Qed.

(** *** The callback with [minimize] *)

Lemma run_cost_function_evaluations {R : Type} (h : heap) (s : scene) (cb : callback)
  (sv : solver float R) :
  forall (self self' : CameraOptimizer) (r : R),
    progress_callback self = Some cb ->
    run_solver (_cost_function h s) sv self = (Ok r, self') ->
    exists evaluations,
      cost_evaluations h s self evaluations self'
      /\ objective_calls self' = (objective_calls self ++ List.map fst evaluations)%list
      /\ callback_calls self' =
           (callback_calls self
            ++ numbered (iteration_count self + 1) (List.map snd evaluations))%list
      /\ iteration_count self' = (iteration_count self + len evaluations)%Z.
Proof.
  induction sv as [r0|e|x k IH]; intros self self' r Hcb Hrun; simpl in Hrun.
  - injection Hrun as _ <-. exists []. split; [constructor|].
    rewrite !app_nil_r. unfold len. simpl. repeat split. lia.
  - discriminate.
  - destruct (_cost_function h s self x) as [[cost|e] self1] eqn:Hcost; [|discriminate].
    destruct (_cost_function_reports h s self self1 x cb cost Hcb Hcost)
      as (Ecb & Eobj & Ei & Ep & residuals & Hresiduals & ->).
    destruct (IH _ self1 self' r Ep Hrun) as (rest & Htrace & Exs & Ecosts & Ecount).
    exists ((x, np_sum (squares residuals)) :: rest).
    split; [exact (one_evaluation h s self self1 self' x residuals rest
                     Hresiduals Hcost Htrace)|].
    simpl. rewrite Exs, Ecosts, Eobj, Ecb, Ecount, Ei, <- !app_assoc. simpl.
    repeat split. unfold len. simpl length. lia.
Qed.

(** X20. With a method that is not one of ['lm'], ['trf'], ['dogbox'] and
    a progress callback set, a returning [optimize] has called the
    callback once per evaluation of the cost function, in order, with the
    counts 1, 2, ... (the count restarts at every [optimize]) and the
    cost of that evaluation: the sum of the squares of the residuals that
    the objective returns at the point the solver asked for, in the state
    the optimizer had then. [iteration_count] ends as the number of
    evaluations. *)
Theorem minimize_reports_progress (h : heap) (s : scene) (self self' : CameraOptimizer)
  (method_arg : option string) (cb : callback) (result : bool * float * Z) :
  is_least_squares_method (method_or method_arg (method self)) = false ->
  progress_callback self = Some cb ->
  optimize h s self method_arg = (Ok result, self') ->
  exists evaluations solved,
    cost_evaluations h s (set_iteration_count self 0) evaluations solved
    /\ objective_calls self' = (objective_calls self ++ List.map fst evaluations)%list
    /\ callback_calls self' =
         (callback_calls self ++ numbered 1 (List.map snd evaluations))%list
    /\ iteration_count self' = len evaluations.
Proof.
  intros Hmin Hcb. unfold optimize.
  destruct (locator_pairs self) as [|p ps]; [discriminate|].
  destruct (valid_pairs s (p :: ps)) as [|v vs]; [discriminate|].
  destruct (Z.ltb _ 3); [discriminate|].
  destruct (get_parameter_vector h (camera_params self)) as [initial_params|e];
    [|discriminate].
  destruct (Z.eqb _ 0); [discriminate|].
  unfold optimize_body, run_method. simpl method. rewrite Hmin.
  destruct (_get_parameter_bounds h (set_iteration_count self 0)) as [lo up].
  destruct (run_solver _ _ (set_iteration_count self 0)) as [[r|e] solved] eqn:Hrun;
    [|discriminate].
  destruct (run_cost_function_evaluations h s cb _ (set_iteration_count self 0) solved r
              Hcb Hrun) as (evaluations & Htrace & Exs & Ecosts & Ecount).
  simpl in Exs, Ecosts, Ecount. simpl.
  destruct (set_parameter_vector h (camera_params solved) (min_x r)) as [[u|e] cp];
    [|discriminate].
  simpl. intros [= _ <-]. simpl.
  exists evaluations, solved. repeat split; assumption.
Qed.

(** [finite_bounds] pairs the two lists position by position and replaces
    an infinite side. *)
Lemma finite_bounds_lookup (lower_bounds upper_bounds : list float) :
  length (finite_bounds lower_bounds upper_bounds)
  = Nat.min (length lower_bounds) (length upper_bounds)
  /\ forall k lb ub,
       lower_bounds !! k = Some lb -> upper_bounds !! k = Some ub ->
       finite_bounds lower_bounds upper_bounds !! k
       = Some (if PrimFloat.eqb lb neg_infinity then -1e6 else lb,
               if PrimFloat.eqb ub infinity then 1e6 else ub).
Proof.
  unfold finite_bounds. split; [rewrite length_map, length_combine; reflexivity|].
  intros k lb ub Hlb Hub.
  match goal with
  | |- context [List.map ?f ?l] => change (List.map f l) with (f <$> l)
  end.
  rewrite list_lookup_fmap.
  assert (combine lower_bounds upper_bounds !! k = Some (lb, ub)) as ->.
  { revert k upper_bounds Hlb Hub.
    induction lower_bounds as [|a l IH]; intros [|k] [|b u] Hlb Hub;
      simpl in *; try discriminate.
    - congruence.
    - apply IH; assumption. }
  simpl. destruct (PrimFloat.eqb lb neg_infinity), (PrimFloat.eqb ub infinity); reflexivity.
Qed.

(** X21. The bounds that [optimize] hands to [minimize]: one pair per
    unlocked parameter, in the order of the parameter vector. A parameter
    without a minimum (the translations and rotations, as constructed)
    gets the lower bound -1e6 and one without a maximum the upper bound
    1e6, so no lower bound is minus infinity and no upper bound is plus
    infinity; a minimum or maximum that is set and not that infinity is
    passed as it is. *)
Theorem minimize_bounds (h : heap) (self : CameraOptimizer) :
  let cp := camera_params self in
  let names := get_unlocked_parameter_names h cp in
  let bounds :=
    finite_bounds (fst (_get_parameter_bounds h self)) (snd (_get_parameter_bounds h self)) in
  length bounds = length names
  /\ forall k name, names !! k = Some name ->
       exists lb ub,
         bounds !! k = Some (lb, ub)
         /\ PrimFloat.eqb lb neg_infinity = false
         /\ PrimFloat.eqb ub infinity = false
         /\ (min_value (get_constraints h cp name) = None -> lb = -1e6)
         /\ (max_value (get_constraints h cp name) = None -> ub = 1e6)
         /\ (forall m, min_value (get_constraints h cp name) = Some m ->
                       PrimFloat.eqb m neg_infinity = false -> lb = m)
         /\ (forall m, max_value (get_constraints h cp name) = Some m ->
                       PrimFloat.eqb m infinity = false -> ub = m).
Proof.
  intros cp names bounds.
  destruct (finite_bounds_lookup (fst (_get_parameter_bounds h self))
              (snd (_get_parameter_bounds h self))) as [Hlen Hlookup].
  fold bounds in Hlen, Hlookup.
  unfold _get_parameter_bounds in Hlen, Hlookup. fold cp in Hlen, Hlookup.
  fold names in Hlen, Hlookup. cbn [fst snd] in Hlen, Hlookup.
  split; [rewrite Hlen, !length_map; apply Nat.min_id|].
  intros k name Hname.
  specialize (Hlookup k
                (default neg_infinity (min_value (get_constraints h cp name)))
                (default infinity (max_value (get_constraints h cp name)))).
  rewrite Hlookup.
  - eexists _, _. split; [reflexivity|].
    destruct (min_value (get_constraints h cp name)) as [lo|] eqn:Hmin,
             (max_value (get_constraints h cp name)) as [hi|] eqn:Hmax;
      cbn [from_option]; unfold id.
    + destruct (PrimFloat.eqb lo neg_infinity) eqn:Hlo,
               (PrimFloat.eqb hi infinity) eqn:Hhi;
        repeat split; try reflexivity; try assumption; try discriminate;
        intros m [= <-] Hm; congruence.
    + destruct (PrimFloat.eqb lo neg_infinity) eqn:Hlo;
        repeat split; try reflexivity; try assumption; try discriminate;
        intros m [= <-] Hm; congruence.
    + destruct (PrimFloat.eqb hi infinity) eqn:Hhi;
        repeat split; try reflexivity; try assumption; try discriminate;
        intros m [= <-] Hm; congruence.
    + repeat split; try reflexivity; try discriminate.
  - match goal with
    | |- List.map ?f names !! k = _ => change (List.map f names) with (f <$> names)
    end.
    rewrite list_lookup_fmap, Hname. simpl.
    destruct (min_value (get_constraints h cp name)); reflexivity.
  - match goal with
    | |- List.map ?f names !! k = _ => change (List.map f names) with (f <$> names)
    end.
    rewrite list_lookup_fmap, Hname. simpl.
    destruct (max_value (get_constraints h cp name)); reflexivity.
Qed.

End Outcomes.

(** An empty list of pairs stops [optimize] at its first check. *)
Lemma optimize_errors_witness :
  exists msg,
    @optimize example_OpenMaya example_Numpy (example_Scipy true) example_heap three_scene
      (CameraOptimizer_init example_params [] 1920 1080) None
    = (Raise (ValueError msg), CameraOptimizer_init example_params [] 1920 1080)
    /\ msg = "No locator pairs available for optimization".
Proof.
  destruct (@optimize_errors example_OpenMaya example_Numpy (example_Scipy true)
              example_heap three_scene
              (CameraOptimizer_init example_params [] 1920 1080)
              (CameraOptimizer_init example_params [] 1920 1080) None
              (ValueError "No locator pairs available for optimization") eq_refl)
    as [(msg & Hmsg & _ & _) | (cause & Hcause)]; [|discriminate].
  exists msg. injection Hmsg as <-. split; reflexivity.
Defined.

(** ['L-BFGS-B'] on the three pairs, the solver evaluating the cost
    twice: the callback receives the counts 1 and 2, each with the cost
    of its evaluation. *)
Lemma minimize_reports_progress_witness :
  let before := set_progress_callback example_optimizer example_callback in
  let run := @optimize example_OpenMaya example_Numpy (example_Scipy true)
               example_heap three_scene before (Some "L-BFGS-B") in
  List.map fst (callback_calls (snd run)) = [1; 2]%Z
  /\ exists evaluations solved,
       @cost_evaluations example_OpenMaya example_Numpy example_heap three_scene
         (set_iteration_count before 0) evaluations solved
       /\ objective_calls (snd run)
          = (objective_calls before ++ List.map fst evaluations)%list
       /\ callback_calls (snd run)
          = (callback_calls before ++ numbered 1 (List.map snd evaluations))%list
       /\ iteration_count (snd run) = len evaluations.
Proof.
  intros before run. split; [vm_compute; reflexivity|].
  assert (exists result, run = (Ok result, snd run)) as [result Hrun].
  { eexists. vm_compute. reflexivity. }
  exact (@minimize_reports_progress example_OpenMaya example_Numpy (example_Scipy true)
           example_heap three_scene before (snd run) (Some "L-BFGS-B") example_callback
           result eq_refl eq_refl Hrun).
Defined.

(** ** The error reports *)

Section Reports.
Context `{OpenMaya} `{Libm}.

Lemma get_reprojection_error_returns (s : scene) (p : LocatorPair) (camera : string)
  (w h : Z) :
  exists error, fst (get_reprojection_error s p camera w h) = Ok error.
Proof.
  unfold get_reprojection_error.
  destruct (get_projected_coords s p camera) as [projected p']. simpl.
  match goal with
  | |- exists error, try_except ?body _ = _ => destruct body as [v|e]
  end; simpl; eexists; reflexivity.
Qed.

Lemma with_objects_same (self : CameraOptimizer) :
  with_objects self (camera_params self) (locator_pairs self) = self.
Proof. destruct self; reflexivity. Qed.

Lemma total_error_loop_none_valid (s : scene) (camera : string) (w h : Z)
  (pairs : list LocatorPair) (total_error : float) :
  valid_pairs s pairs = [] ->
  total_error_loop s camera w h pairs total_error = (total_error, pairs).
Proof.
  unfold valid_pairs. induction pairs as [|p rest IH]; simpl; intros Hnone; [reflexivity|].
  destruct (is_valid s p); [discriminate|]. simpl. rewrite (IH Hnone). reflexivity.
Qed.

Lemma individual_errors_loop_none_valid (s : scene) (camera : string) (w h : Z)
  (pairs : list LocatorPair) :
  valid_pairs s pairs = [] ->
  individual_errors_loop s camera w h pairs = ([], pairs).
Proof.
  unfold valid_pairs. induction pairs as [|p rest IH]; simpl; intros Hnone; [reflexivity|].
  destruct (is_valid s p); [discriminate|]. simpl. rewrite (IH Hnone). reflexivity.
Qed.

Lemma calculate_rms_error_none_valid (s : scene) (self : CameraOptimizer) :
  valid_pairs s (locator_pairs self) = [] ->
  calculate_rms_error s self = (Ok (PowFloat infinity), self).
Proof.
  intros Hnone. unfold calculate_rms_error, calculate_total_error.
  rewrite (total_error_loop_none_valid _ _ _ _ _ _ Hnone), with_objects_same, Hnone.
  reflexivity.
Qed.

(** X22. Without a valid pair the reports are: total error 0.0, RMS
    error plus infinity (no division by the zero count), no individual
    error; the optimizer and its pairs are left as they were: no pair
    latches. The matcher's [calculate_current_error] is plus infinity and
    its [get_individual_errors] empty then, and also when it has no
    optimizer yet. *)
Theorem reports_without_valid_pairs (s : scene) (self : CameraOptimizer)
  (matcher : FullMatcher.t) :
  (valid_pairs s (locator_pairs self) = [] ->
   calculate_total_error s self = (0, self)
   /\ calculate_rms_error s self = (Ok (PowFloat infinity), self)
   /\ get_individual_errors s self = ([], self))
  /\ (CameraMatcher.optimizer (FullMatcher.core matcher) = None
      \/ FullMatcher.get_valid_pairs s matcher = [] ->
      fst (FullMatcher.calculate_current_error s matcher) = Ok (PowFloat infinity)
      /\ fst (FullMatcher.get_individual_errors s matcher) = []).
Proof.
  split.
  - intros Hnone. split; [|split].
    + unfold calculate_total_error.
      rewrite (total_error_loop_none_valid _ _ _ _ _ _ Hnone), with_objects_same.
      reflexivity.
    + apply calculate_rms_error_none_valid, Hnone.
    + unfold get_individual_errors.
      rewrite (individual_errors_loop_none_valid _ _ _ _ _ Hnone), with_objects_same.
      reflexivity.
  - unfold FullMatcher.calculate_current_error, FullMatcher.get_individual_errors.
    destruct (CameraMatcher.optimizer (FullMatcher.core matcher)) as [o|];
      [|intros _; split; reflexivity].
    intros [Hno | Hnone]; [discriminate|].
    rewrite calculate_rms_error_none_valid by exact Hnone.
    unfold get_individual_errors.
    rewrite individual_errors_loop_none_valid by exact Hnone.
    split; reflexivity.
Qed.

Lemma individual_errors_loop_spec (s : scene) (camera : string) (w h : Z)
  (pairs : list LocatorPair) :
  Forall2
    (fun p entry =>
       fst entry = pair_id p
       /\ fst (get_reprojection_error s p camera w h) = Ok (snd entry))
    (valid_pairs s pairs)
    (fst (individual_errors_loop s camera w h pairs)).
Proof.
  unfold valid_pairs. induction pairs as [|p rest IH]; simpl; [constructor|].
  destruct (is_valid s p); simpl.
  - destruct (get_reprojection_error_returns s p camera w h) as [error Herror].
    destruct (get_reprojection_error s p camera w h) as [r p'] eqn:Hcall.
    simpl in Herror. subst r.
    destruct (individual_errors_loop s camera w h rest) as [errors ps]. simpl in *.
    constructor; [|exact IH]. rewrite Hcall. split; reflexivity.
  - destruct (individual_errors_loop s camera w h rest) as [errors ps]. exact IH.
Qed.

(** X23. [get_individual_errors] returns one entry per valid pair, in
    the order of the list of pairs: the pair's id with the value that
    [get_reprojection_error] returns for it (plus infinity when the pair
    cannot be projected). Invalid pairs have no entry. *)
Theorem get_individual_errors_spec (s : scene) (self : CameraOptimizer) :
  Forall2
    (fun p entry =>
       fst entry = pair_id p
       /\ fst (get_reprojection_error s p (camera_transform (camera_params self))
                 (image_width self) (image_height self)) = Ok (snd entry))
    (valid_pairs s (locator_pairs self))
    (fst (get_individual_errors s self)).
Proof.
  unfold get_individual_errors.
  pose proof (individual_errors_loop_spec s (camera_transform (camera_params self))
                (image_width self) (image_height self) (locator_pairs self)) as Hloop.
  destruct (individual_errors_loop _ _ _ _ _) as [errors pairs]. exact Hloop.
Qed.

End Reports.

(** In the scene with the camera alone the three locators are missing. *)
Lemma reports_without_valid_pairs_witness :
  @calculate_rms_error example_OpenMaya example_Libm camera_scene example_optimizer
  = (Ok (PowFloat infinity), example_optimizer)
  /\ fst (@FullMatcher.calculate_current_error example_OpenMaya example_Libm camera_scene
            (FullMatcher.mk example_matcher 1920 1080)) = Ok (PowFloat infinity).
Proof.
  destruct (@reports_without_valid_pairs example_OpenMaya example_Libm camera_scene
              example_optimizer
              (FullMatcher.mk example_matcher 1920 1080)) as [Hoptimizer Hmatcher].
  split.
  - apply Hoptimizer. reflexivity.
  - apply Hmatcher. right. reflexivity.
Defined.

(** ** The matcher *)

Section Matcher.
Context `{OpenMaya} `{Numpy} `{Scipy}.

Lemma validated_optimize_raises (h : heap) (s : scene) (self self' : CameraOptimizer)
  (method_arg : option string) (e : exn) :
  fst (validate_setup h s self) = true ->
  optimize h s self method_arg = (Raise e, self') ->
  exists cause, e = RuntimeError ("Optimization failed: " ++ str cause).
Proof.
  intros Hok Hopt.
  destruct (validate_setup_true h s self Hok) as (Hmany & Hnames & _).
  destruct (optimize_raise_cases h s self self' method_arg e Hopt)
    as [[_ [(Hnone & _) | [(_ & Hnone & _) | [(Hfew & _) | (_ & Hnone & _)]]]]
       | (_ & _ & Hwrap)].
  - rewrite Hnone in Hmany. unfold len in Hmany. simpl in Hmany. lia.
  - rewrite Hnone in Hmany. unfold len in Hmany. simpl in Hmany. lia.
  - lia.
  - contradiction.
  - exact Hwrap.
Qed.

(** X24. What [optimize_camera] raises, and what it leaves behind. It
    raises in four situations only: there is no optimizer; [validate_setup]
    refuses the setup, which gives the [RuntimeError] "Optimization setup
    invalid: ..." with the matcher unchanged; [optimize] raises, and then
    what comes out is its [RuntimeError] "Optimization failed: ..." (the
    [ValueError] of its entry checks cannot come out, the setup having
    been validated); or [apply_to_maya] raises after an optimization that
    succeeded. In the first three no Maya command has been issued. *)
Theorem optimize_camera_errors (h : heap) (s : scene) (self self' : CameraMatcher.t)
  (method_arg : option string) (e : exn) (writes : list maya_write) :
  CameraMatcher.optimize_camera h s self method_arg = (Raise e, self', writes) ->
  (CameraMatcher.optimizer self = None
   /\ e = RuntimeError "Optimizer not initialized. Set camera and image first."
   /\ self' = self /\ writes = [])
  \/ (exists o msg,
        CameraMatcher.optimizer self = Some o
        /\ validate_setup h s (CameraMatcher.optimizer_objects self o) = (false, msg)
        /\ e = RuntimeError ("Optimization setup invalid: " ++ msg)
        /\ self' = self /\ writes = [])
  \/ (exists o o' cause,
        CameraMatcher.optimizer self = Some o
        /\ optimize h s (CameraMatcher.optimizer_objects self o) method_arg = (Raise e, o')
        /\ e = RuntimeError ("Optimization failed: " ++ str cause)
        /\ self' = CameraMatcher.after_optimizer self o o' /\ writes = [])
  \/ (exists o o' final_error iterations cp,
        CameraMatcher.optimizer self = Some o
        /\ optimize h s (CameraMatcher.optimizer_objects self o) method_arg
           = (Ok (true, final_error, iterations), o')
        /\ self' = CameraMatcher.after_optimizer self o o'
        /\ CameraMatcher.camera_params self' = Some cp
        /\ apply_to_maya s (CameraMatcher.params_objects self' cp) = (Raise e, writes)).
Proof.
  unfold CameraMatcher.optimize_camera.
  destruct (CameraMatcher.optimizer self) as [o|] eqn:Ho.
  2:{ intros [= <- <- <-]. left. repeat split; assumption. }
  destruct (validate_setup h s (CameraMatcher.optimizer_objects self o)) as [ok msg] eqn:Hv.
  destruct ok; cbn [negb].
  2:{ intros [= <- <- <-]. right. left. exists o, msg. repeat split; assumption. }
  destruct (optimize h s (CameraMatcher.optimizer_objects self o) method_arg)
    as [[[[success final_error] iterations]|e0] o'] eqn:Hopt.
  - destruct success; [|discriminate].
    destruct (CameraMatcher.camera_params (CameraMatcher.after_optimizer self o o'))
      as [cp|] eqn:Hcp; [|discriminate].
    destruct (apply_to_maya s
                (CameraMatcher.params_objects (CameraMatcher.after_optimizer self o o') cp))
      as [[u|e1] done] eqn:Happly; simpl; [discriminate|].
    intros [= <- <- <-]. right. right. right.
    exists o, o', final_error, iterations, cp. repeat split; assumption.
  - intros [= <- <- <-].
    destruct (validated_optimize_raises h s (CameraMatcher.optimizer_objects self o) o'
                method_arg e0) as [cause ->];
      [rewrite Hv; reflexivity | exact Hopt |].
    right. right. left. exists o, o', cause. repeat split. exact Hopt.
Qed.

End Matcher.

(** With one valid pair of three the matcher refuses the setup, where
    [optimize] alone raises [ValueError]. *)
Lemma optimize_camera_errors_witness :
  exists msg,
    @CameraMatcher.optimize_camera example_OpenMaya example_Numpy (example_Scipy true)
      example_heap axis_scene example_matcher None
    = (Raise (RuntimeError ("Optimization setup invalid: " ++ msg)), example_matcher, [])
    /\ msg = "At least 3 valid locator pairs required, found 1".
Proof.
  destruct (@optimize_camera_errors example_OpenMaya example_Numpy (example_Scipy true)
              example_heap axis_scene example_matcher example_matcher None
              (RuntimeError "Optimization setup invalid: At least 3 valid locator pairs required, found 1")
              [] eq_refl)
    as [(Hno & _) | [(o & msg & _) | [(o & o' & cause & _ & _ & Hcause & _)
                                     | (o & o' & err & n & cp & _ & Hopt & _)]]].
  - discriminate.
  - exists "At least 3 valid locator pairs required, found 1". split; reflexivity.
  - discriminate.
  - vm_compute in Hopt. discriminate.
Defined.

(** ** The matcher's pairs *)

Section MatcherPairs.
Import FullMatcher.

Lemma has_id_both (i j : Z) (p : LocatorPair) :
  has_id i p = true -> has_id j p = true -> i = j.
Proof.
  unfold has_id. destruct (pair_id p) as [k|]; [|discriminate].
  intros Hi Hj. apply Z.eqb_eq in Hi, Hj. congruence.
Qed.

Lemma get_locator_pair_in_split (pair_id : Z) (pairs : list LocatorPair) :
  match get_locator_pair_in pairs pair_id with
  | Some p =>
      exists before after,
        pairs = (before ++ p :: after)%list
        /\ Forall (fun q => has_id pair_id q = false) before
        /\ has_id pair_id p = true
  | None => Forall (fun q => has_id pair_id q = false) pairs
  end.
Proof.
  induction pairs as [|q rest IH]; simpl; [constructor|].
  destruct (has_id pair_id q) eqn:Hq.
  - exists [], rest. repeat split; [constructor | exact Hq].
  - destruct (get_locator_pair_in rest pair_id) as [p|].
    + destruct IH as (before & after & -> & Hbefore & Hp).
      exists (q :: before), after. repeat split; [constructor; assumption | exact Hp].
    + constructor; assumption.
Qed.

Lemma remove_first_split (s : scene) (pair_id : Z) (before after : list LocatorPair)
  (p : LocatorPair) :
  Forall (fun q => has_id pair_id q = false) before ->
  has_id pair_id p = true ->
  remove_first s pair_id (before ++ p :: after)
  = Some (Ok tt, (before ++ after)%list,
          if cmds_objExists s (locator_name p) then [Delete (locator_name p)] else []).
Proof.
  intros Hbefore Hp. induction Hbefore as [|q before Hq _ IH]; simpl.
  - rewrite Hp. unfold delete_locator.
    destruct (cmds_objExists s (locator_name p)) eqn:Hexists; [|reflexivity].
    simpl. rewrite Hexists. reflexivity.
  - rewrite Hq, IH. reflexivity.
Qed.

Lemma remove_first_none (s : scene) (pair_id : Z) (pairs : list LocatorPair) :
  Forall (fun q => has_id pair_id q = false) pairs ->
  remove_first s pair_id pairs = None.
Proof.
  intros Hnone. induction Hnone as [|q rest Hq _ IH]; simpl; [reflexivity|].
  rewrite Hq, IH. reflexivity.
Qed.

(** X25. [remove_locator_pair] with an id that no pair has returns
    [False], issues no command and changes nothing. Otherwise it returns
    [True] and removes the first pair with the id, and that one only
    (every other pair stays, in order, also a later pair with the same
    id); the locator is deleted in Maya when it exists there, with that
    one command. When a camera is set and the image has a positive size
    the optimizer is replaced by a new one, so the method, the tolerance,
    the iteration limit and the progress callback set on the old one are
    lost. *)
Theorem remove_locator_pair_spec `{Scipy} (s : scene) (self : FullMatcher.t) (pair_id : Z) :
  (get_locator_pair self pair_id = None ->
   remove_locator_pair s self pair_id = (Ok false, self, []))
  /\ (forall p, get_locator_pair self pair_id = Some p ->
        exists before after,
          FullMatcher.locator_pairs self = (before ++ p :: after)%list
          /\ Forall (fun q => has_id pair_id q = false) before
          /\ remove_locator_pair s self pair_id
             = (Ok true, _update_optimizer (with_pairs self (before ++ after)),
                if cmds_objExists s (locator_name p) then [Delete (locator_name p)] else [])
          /\ FullMatcher.locator_pairs (snd (fst (remove_locator_pair s self pair_id)))
             = (before ++ after)%list
          /\ forall cp,
               CameraMatcher.camera_params (core self) = Some cp ->
               (0 < FullMatcher.image_width self)%Z ->
               (0 < FullMatcher.image_height self)%Z ->
               CameraMatcher.optimizer (core (snd (fst (remove_locator_pair s self pair_id))))
               = Some (CameraOptimizer_init cp tt (FullMatcher.image_width self)
                         (FullMatcher.image_height self))).
Proof.
  unfold get_locator_pair, remove_locator_pair.
  pose proof (get_locator_pair_in_split pair_id (FullMatcher.locator_pairs self)) as Hsplit.
  destruct (get_locator_pair_in (FullMatcher.locator_pairs self) pair_id) as [p0|].
  - split; [discriminate|]. intros p [= <-].
    destruct Hsplit as (before & after & Hpairs & Hbefore & Hp).
    exists before, after. rewrite Hpairs, (remove_first_split s _ _ _ _ Hbefore Hp).
    split; [reflexivity|]. split; [exact Hbefore|]. split; [reflexivity|].
    cbn [fst snd]. unfold _update_optimizer. cbn [with_pairs core CameraMatcher.camera_params
      FullMatcher.image_width FullMatcher.image_height].
    split.
    + destruct (CameraMatcher.camera_params (core self)); [|reflexivity].
      destruct (_ && _); reflexivity.
    + intros cp -> Hw Hh.
      apply Z.ltb_lt in Hw, Hh. rewrite Hw, Hh. reflexivity.
  - split; [|discriminate]. intros _. rewrite (remove_first_none s _ _ Hsplit). reflexivity.
Qed.

Lemma on_first_update (pair_id : Z) (coords : vec2) (pairs : list LocatorPair) :
  let pairs' := on_first pair_id (fun p => update_pixel_coords p coords) pairs in
  get_locator_pair_in pairs' pair_id
  = option_map (fun p => update_pixel_coords p coords) (get_locator_pair_in pairs pair_id)
  /\ (forall other, other <> pair_id ->
        get_locator_pair_in pairs' other = get_locator_pair_in pairs other)
  /\ length pairs' = length pairs
  /\ List.map locator_name pairs' = List.map locator_name pairs
  /\ forall s, List.map (is_valid s) pairs' = List.map (is_valid s) pairs.
Proof.
  induction pairs as [|q rest (IHsame & IHother & IHlen & IHnames & IHvalid)]; simpl.
  - repeat split.
  - destruct (has_id pair_id q) eqn:Hq; simpl.
    + change (has_id pair_id (update_pixel_coords q coords)) with (has_id pair_id q).
      rewrite Hq. repeat split.
      intros other Hother.
      change (has_id other (update_pixel_coords q coords)) with (has_id other q).
      destruct (has_id other q) eqn:Ho; [|reflexivity].
      exfalso. apply Hother. exact (has_id_both _ _ _ Ho Hq).
    + rewrite Hq. split; [exact IHsame|]. split; [|split; [|split]].
      * intros other Hother. rewrite (IHother other Hother). reflexivity.
      * rewrite IHlen. reflexivity.
      * rewrite IHnames. reflexivity.
      * intros s. rewrite IHvalid. reflexivity.
Qed.

Lemma filter_length_same {A : Type} (f : A -> bool) (l l' : list A) :
  List.map f l' = List.map f l ->
  length (List.filter f l') = length (List.filter f l).
Proof.
  revert l'. induction l as [|a l IH]; intros [|b l']; simpl; try discriminate;
    [reflexivity|].
  intros [= Hab Hrest]. rewrite Hab.
  destruct (f a); simpl; rewrite (IH l' Hrest); reflexivity.
Qed.

(** X26. [update_locator_pixel_coords] with an id that no pair has
    returns [False] and changes nothing. Otherwise it returns [True];
    afterwards [get_locator_pair] of the id gives the same pair with the
    new pixel coordinates, the lookup of every other id gives what it
    gave before, and the number of pairs, their locators and their
    validity in any scene are unchanged. *)
Theorem update_locator_pixel_coords_spec (self : FullMatcher.t) (pair_id : Z)
  (pixel_x pixel_y : float) :
  (get_locator_pair self pair_id = None ->
   update_locator_pixel_coords self pair_id pixel_x pixel_y = (false, self))
  /\ (forall p, get_locator_pair self pair_id = Some p ->
        let self' := snd (update_locator_pixel_coords self pair_id pixel_x pixel_y) in
        fst (update_locator_pixel_coords self pair_id pixel_x pixel_y) = true
        /\ get_locator_pair self' pair_id = Some (update_pixel_coords p (pixel_x, pixel_y))
        /\ (forall other, other <> pair_id ->
              get_locator_pair self' other = get_locator_pair self other)
        /\ get_pair_count self' = get_pair_count self
        /\ List.map locator_name (FullMatcher.locator_pairs self')
           = List.map locator_name (FullMatcher.locator_pairs self)
        /\ forall s, get_valid_pair_count s self' = get_valid_pair_count s self).
Proof.
  unfold update_locator_pixel_coords.
  destruct (get_locator_pair self pair_id) as [p0|] eqn:Hget.
  - split; [discriminate|]. intros p [= <-]. cbn [fst snd].
    destruct (on_first_update pair_id (pixel_x, pixel_y) (FullMatcher.locator_pairs self))
      as (Hsame & Hother & Hlen & Hnames & Hvalid).
    unfold get_locator_pair, get_pair_count, get_valid_pair_count, get_valid_pairs, len in *.
    cbn [with_pairs FullMatcher.locator_pairs core CameraMatcher.locator_pairs] in *.
    split; [reflexivity|]. split; [rewrite Hsame, Hget; reflexivity|].
    split; [exact Hother|]. split; [rewrite Hlen; reflexivity|].
    split; [exact Hnames|].
    intros s. f_equal. unfold valid_pairs.
    apply filter_length_same, Hvalid.
  - split; [reflexivity | discriminate].
Qed.

End MatcherPairs.

Section MatcherProjections.
Context `{OpenMaya}.
Import FullMatcher.

Lemma on_first_found (pair_id : Z) (f : LocatorPair -> LocatorPair)
  (pairs : list LocatorPair) (p : LocatorPair) :
  get_locator_pair_in pairs pair_id = Some p ->
  has_id pair_id (f p) = true ->
  get_locator_pair_in (on_first pair_id f pairs) pair_id = Some (f p).
Proof.
  intros Hget Hid. induction pairs as [|q rest IH]; simpl in *; [discriminate|].
  destruct (has_id pair_id q) eqn:Hq; simpl.
  - injection Hget as ->. rewrite Hid. reflexivity.
  - rewrite Hq. exact (IH Hget).
Qed.

Lemma get_locator_pair_in_has_id (pair_id : Z) (pairs : list LocatorPair) (p : LocatorPair) :
  get_locator_pair_in pairs pair_id = Some p -> has_id pair_id p = true.
Proof.
  induction pairs as [|q rest IH]; simpl; [discriminate|].
  destruct (has_id pair_id q) eqn:Hq; [intros [= <-]; exact Hq | exact IH].
Qed.

(** X27. [update_locator_world_pos] does not raise. With an id that no
    pair has it returns [False] and changes nothing. For a pair whose
    locator exists it returns [True], having issued the one command that
    moves that locator to the position, and the pair is left as it was.
    For a pair whose locator is missing it returns [False], issues no
    command, and the pair is marked invalid for good. *)
Theorem update_locator_world_pos_spec (s : scene) (self : FullMatcher.t) (pair_id : Z)
  (x y z : float) :
  (get_locator_pair self pair_id = None ->
   update_locator_world_pos s self pair_id x y z = (false, self, []))
  /\ (forall p, get_locator_pair self pair_id = Some p ->
        let '(moved, self', writes) := update_locator_world_pos s self pair_id x y z in
        (cmds_objExists s (locator_name p) = true ->
         moved = true
         /\ writes = [XformTranslation (locator_name p) (x, y, z)]
         /\ get_locator_pair self' pair_id = Some p)
        /\ (cmds_objExists s (locator_name p) = false ->
            moved = false
            /\ writes = []
            /\ get_locator_pair self' pair_id = Some (set_invalid p)
            /\ forall s', is_valid s' (set_invalid p) = false)).
Proof.
  unfold update_locator_world_pos.
  destruct (get_locator_pair self pair_id) as [p0|] eqn:Hget.
  - split; [discriminate|]. intros p [= <-].
    pose proof (get_locator_pair_in_has_id _ _ _ Hget) as Hid.
    unfold update_locator_position.
    destruct (cmds_objExists s (locator_name p0)) eqn:Hexists; cbn [negb].
    + simpl. rewrite Hexists. simpl. split; [|discriminate]. intros _.
      split; [reflexivity|]. split; [reflexivity|].
      exact (on_first_found pair_id (fun _ => p0) _ p0 Hget Hid).
    + split; [discriminate|]. intros _.
      split; [reflexivity|]. split; [reflexivity|]. split; [|reflexivity].
      exact (on_first_found pair_id (fun _ => set_invalid p0) _ p0 Hget Hid).
  - split; [reflexivity | discriminate].
Qed.

Lemma project_loop_spec (s : scene) (camera : string) (w h : Z) (pairs : list LocatorPair) :
  forall (projections : gmap (option Z) vec2) (k : option Z) (v : vec2),
    fst (project_loop s camera w h pairs projections) !! k = Some v ->
    projections !! k = Some v
    \/ exists p ndc,
         In p (valid_pairs s pairs) /\ pair_id p = k
         /\ fst (get_projected_coords s p camera) = Ok ndc
         /\ proj_pixel_x ndc w = Ok (fst v)
         /\ proj_pixel_y ndc h = Ok (snd v).
Proof.
  unfold valid_pairs.
  induction pairs as [|q rest IH]; intros projections k v; simpl; [intros Hk; left; exact Hk|].
  destruct (is_valid s q) eqn:Hvalid; cbn [negb].
  - destruct (get_projected_coords s q camera) as [projected q'] eqn:Hprojected.
    match goal with
    | |- context [project_loop s camera w h rest ?d] => remember d as filled eqn:Hfilled
    end.
    specialize (IH filled k v).
    destruct (project_loop s camera w h rest filled) as [d ps]. cbn [fst] in *.
    intros Hk. destruct (IH Hk) as [Hhere | (p & ndc & Hin & Hrest)].
    + subst filled. destruct projected as [ndc|e]; cbn [bind] in Hhere; [|left; exact Hhere].
      destruct (proj_pixel_x ndc w) as [pixel_x|e] eqn:Hx; cbn [bind] in Hhere;
        [|left; exact Hhere].
      destruct (proj_pixel_y ndc h) as [pixel_y|e] eqn:Hy; cbn [bind] in Hhere;
        [|left; exact Hhere].
      apply lookup_insert_Some in Hhere as [[<- <-] | [_ Hbefore]]; [|left; exact Hbefore].
      right. exists q, ndc. split; [left; reflexivity|]. split; [reflexivity|].
      rewrite Hprojected. repeat split; assumption.
    + right. exists p, ndc. split; [right; exact Hin | exact Hrest].
  - specialize (IH projections k v).
    destruct (project_loop s camera w h rest projections) as [d ps]. cbn [fst] in *.
    intros Hk. destruct (IH Hk) as [Hhere | (p & ndc & Hin & Hrest)];
      [left; exact Hhere | right; exists p, ndc; split; assumption].
Qed.

(** X28. Every entry of the dict that [project_locators_to_pixels]
    returns belongs to a valid pair: its key is the id of a pair that is
    valid and that [get_projected_coords] projects on the camera of the
    matcher, and its value is the pixel position of that projection,
    ((x + 1) * 0.5 * width, (1 - y) * 0.5 * height). Invalid pairs and
    pairs that cannot be projected have no entry of their own, and
    without a camera the dict is empty. *)
Theorem project_locators_to_pixels_spec (s : scene) (self : FullMatcher.t)
  (k : option Z) (v : vec2) :
  fst (project_locators_to_pixels s self) !! k = Some v ->
  exists cp p ndc,
    CameraMatcher.camera_params (core self) = Some cp
    /\ In p (get_valid_pairs s self) /\ pair_id p = k
    /\ fst (get_projected_coords s p
              (camera_transform (CameraMatcher.params_objects (core self) cp))) = Ok ndc
    /\ proj_pixel_x ndc (FullMatcher.image_width self) = Ok (fst v)
    /\ proj_pixel_y ndc (FullMatcher.image_height self) = Ok (snd v).
Proof.
  unfold project_locators_to_pixels, get_valid_pairs.
  destruct (CameraMatcher.camera_params (core self)) as [cp|];
    [|cbn [fst]; rewrite lookup_empty; discriminate].
  pose proof (project_loop_spec s
                (camera_transform (CameraMatcher.params_objects (core self) cp))
                (FullMatcher.image_width self) (FullMatcher.image_height self)
                (FullMatcher.locator_pairs self) ∅ k v) as Hloop.
  destruct (project_loop _ _ _ _ _ _) as [d ps]. cbn [fst] in *.
  intros Hk. destruct (Hloop Hk) as [Hempty | (p & ndc & Hrest)].
  - rewrite lookup_empty in Hempty. discriminate.
  - exists cp, p, ndc. split; [reflexivity | exact Hrest].
Qed.

End MatcherProjections.

(** The second of the three pairs is removed: its locator is deleted, the
    other two stay, and the new optimizer has no progress callback. An id
    that no pair has changes nothing. *)
Lemma remove_locator_pair_spec_witness :
  let removed :=
    @FullMatcher.remove_locator_pair (example_Scipy true) three_scene example_full_matcher 2 in
  fst (fst removed) = Ok true
  /\ snd removed = [Delete "cam_match_loc_002"]
  /\ List.map pair_id (FullMatcher.locator_pairs (snd (fst removed)))
     = [Some 1%Z; Some 3%Z]
  /\ CameraMatcher.optimizer (FullMatcher.core (snd (fst removed)))
     = Some (CameraOptimizer_init O tt 1920 1080)
  /\ @FullMatcher.remove_locator_pair (example_Scipy true) three_scene example_full_matcher 7
     = (Ok false, example_full_matcher, []).
Proof.
  intros removed.
  destruct (@remove_locator_pair_spec (example_Scipy true) three_scene example_full_matcher 2)
    as [_ Hfound].
  destruct (Hfound (LocatorPair_init "cam_match_loc_002" (1100, 540) (Some 2%Z)) eq_refl)
    as (before & after & _ & _ & _ & _ & Hoptimizer).
  split; [reflexivity|]. split; [reflexivity|]. split; [reflexivity|].
  split; [apply (Hoptimizer O); reflexivity|].
  apply (@remove_locator_pair_spec (example_Scipy true) three_scene example_full_matcher 7).
  reflexivity.
Defined.

(** The second pair gets new pixel coordinates. *)
Lemma update_locator_pixel_coords_spec_witness :
  let self' :=
    snd (FullMatcher.update_locator_pixel_coords example_full_matcher 2 1000 500) in
  fst (FullMatcher.update_locator_pixel_coords example_full_matcher 2 1000 500) = true
  /\ FullMatcher.get_locator_pair self' 2
     = Some (update_pixel_coords
               (LocatorPair_init "cam_match_loc_002" (1100, 540) (Some 2%Z)) (1000, 500))
  /\ (forall other, other <> 2%Z ->
        FullMatcher.get_locator_pair self' other
        = FullMatcher.get_locator_pair example_full_matcher other)
  /\ FullMatcher.get_pair_count self' = FullMatcher.get_pair_count example_full_matcher
  /\ List.map locator_name (FullMatcher.locator_pairs self')
     = List.map locator_name (FullMatcher.locator_pairs example_full_matcher)
  /\ forall s, FullMatcher.get_valid_pair_count s self'
               = FullMatcher.get_valid_pair_count s example_full_matcher.
Proof.
  exact (proj2 (update_locator_pixel_coords_spec example_full_matcher 2 1000 500)
           (LocatorPair_init "cam_match_loc_002" (1100, 540) (Some 2%Z)) eq_refl).
Defined.

(** In the scene with the camera alone the locator of the first pair is
    missing: nothing is written and the pair is marked invalid. *)
Lemma update_locator_world_pos_spec_witness :
  let moved := FullMatcher.update_locator_world_pos camera_scene example_full_matcher 1 1 2 3 in
  fst (fst moved) = false
  /\ snd moved = []
  /\ FullMatcher.get_locator_pair (snd (fst moved)) 1 = Some (set_invalid centre_pair).
Proof.
  intros moved.
  pose proof (proj2 (update_locator_world_pos_spec camera_scene example_full_matcher 1 1 2 3)
                centre_pair eq_refl) as Hmoved.
  fold moved in Hmoved. destruct moved as [[result self'] writes].
  destruct Hmoved as [_ Hmissing].
  destruct (Hmissing eq_refl) as (-> & -> & Hget & _).
  split; [reflexivity|]. split; [reflexivity | exact Hget].
Defined.

(** The locator on the axis of [camera1] is projected on the centre of
    the 1920x1080 image. *)
Lemma project_locators_to_pixels_spec_witness :
  fst (@FullMatcher.project_locators_to_pixels example_OpenMaya three_scene
         example_full_matcher) !! Some 1%Z = Some (960, 540)
  /\ exists cp p ndc,
       CameraMatcher.camera_params (FullMatcher.core example_full_matcher) = Some cp
       /\ In p (FullMatcher.get_valid_pairs three_scene example_full_matcher)
       /\ pair_id p = Some 1%Z
       /\ fst (@get_projected_coords example_OpenMaya three_scene p
                 (camera_transform
                    (CameraMatcher.params_objects (FullMatcher.core example_full_matcher) cp)))
          = Ok ndc
       /\ proj_pixel_x ndc (FullMatcher.image_width example_full_matcher) = Ok 960
       /\ proj_pixel_y ndc (FullMatcher.image_height example_full_matcher) = Ok 540.
Proof.
  assert (fst (@FullMatcher.project_locators_to_pixels example_OpenMaya three_scene
                 example_full_matcher) !! Some 1%Z = Some (960, 540)) as Hentry
    by (vm_compute; reflexivity).
  split; [exact Hentry|].
  exact (@project_locators_to_pixels_spec example_OpenMaya three_scene example_full_matcher
           (Some 1%Z) (960, 540) Hentry).
Defined.

(** The three pairs on [camera1] with the 1920x1080 image are a valid
    setup. *)
Lemma validate_setup_spec_witness :
  @validate_setup (example_Scipy true) example_heap three_scene example_optimizer
  = (true, "Setup is valid")
  /\ (3 <= len (valid_pairs three_scene (locator_pairs example_optimizer)))%Z.
Proof.
  destruct (@validate_setup_spec example_OpenMaya example_Numpy (example_Scipy true)
              example_heap three_scene example_optimizer) as [Hiff Hvalid].
  split; [apply Hvalid; reflexivity | apply Hiff; reflexivity].
Defined.
